(** * Regulatory monitor: the daily change-detection pipeline

    A shallow embedding of [api/cron/monitor.ts]: the cron entry point
    [handler], the per-source pipeline [checkSource], the error-snapshot
    writer [saveSnapshot] and the analysis step [analyzeDiff], together with
    the parts of the platform they call (the SHA-256 fingerprint, the store
    client, the network and the analysis service).

    The store, the network and the analysis service are external: their
    answers come from an oracle [Env], and every request to them is appended
    to a trace kept in the [World], so that "no work was performed" and "the
    analysis service was not called" are statements about the trace. *)

From Stdlib Require Import ZArith List String Ascii Bool Lia PeanoNat.
From Stdlib Require Import Floats.SpecFloat.
From Stdlib Require Decimal DecimalString.
From Stdlib Require Import Sorting.Sorted.
Import ListNotations.

Local Open Scope string_scope.

(** ** Strings of the host language

    A JavaScript string is a sequence of UTF-16 code units.  It is modelled
    by a Rocq [string] whose characters are the code units, which covers the
    strings with code units below 256; [length] and [substring] then count
    code units as [String.prototype.length] and [substring] do. *)

Definition js_truthy_string (s : string) : bool :=
  match s with
  | EmptyString => false
  | String _ _ => true
  end.

(** [s.substring(0, n)]: the first [n] code units, or all of [s] when it is
    shorter. *)
Definition js_substring0 (n : nat) (s : string) : string := substring 0 n s.

(** Rendering of a non-negative integer inside a template literal. *)
Definition show_nat (n : nat) : string :=
  DecimalString.NilEmpty.string_of_uint (Nat.to_uint n).

(** UTF-8 encoding of a string, as [hash.update(string)] performs it before
    hashing: one byte for a code unit below 128 and two bytes for the code
    units from 128 to 255. *)
Definition utf8_of_unit (c : ascii) : list Z :=
  let n := Z.of_N (N_of_ascii c) in
  if Z.ltb n 128 then [n]
  else [Z.lor 192 (Z.shiftr n 6); Z.lor 128 (Z.land n 63)].

Fixpoint utf8_encode (s : string) : list Z :=
  match s with
  | EmptyString => []
  | String c rest => (utf8_of_unit c ++ utf8_encode rest)%list
  end.

(** ** SHA-256 (FIPS 180-4), the fingerprint of fetched content *)

Module SHA256.

Local Open Scope Z_scope.
Local Open Scope list_scope.

Definition wrap32 (x : Z) : Z := x mod 4294967296.

Definition add32 (x y : Z) : Z := wrap32 (x + y).

Definition rotr (n x : Z) : Z :=
  wrap32 (Z.lor (Z.shiftr x n) (Z.shiftl x (32 - n))).

Definition not32 (x : Z) : Z := Z.lxor x 4294967295.

Definition Ch (x y z : Z) : Z :=
  Z.lxor (Z.land x y) (Z.land (not32 x) z).

Definition Maj (x y z : Z) : Z :=
  Z.lxor (Z.lxor (Z.land x y) (Z.land x z)) (Z.land y z).

Definition Sigma0 (x : Z) : Z :=
  Z.lxor (Z.lxor (rotr 2 x) (rotr 13 x)) (rotr 22 x).

Definition Sigma1 (x : Z) : Z :=
  Z.lxor (Z.lxor (rotr 6 x) (rotr 11 x)) (rotr 25 x).

Definition sigma0 (x : Z) : Z :=
  Z.lxor (Z.lxor (rotr 7 x) (rotr 18 x)) (Z.shiftr x 3).

Definition sigma1 (x : Z) : Z :=
  Z.lxor (Z.lxor (rotr 17 x) (rotr 19 x)) (Z.shiftr x 10).

(** The constants are fractional parts of roots of the first primes: the
first 32 bits of the fractional part of the cube root of each of the first
64 primes for [K], and of the square root of each of the first 8 primes for
the initial hash value. *)
Definition is_prime (n : nat) : bool :=
  forallb (fun d => negb (n mod d =? 0)%nat) (seq 2 (n - 2)).

Definition primes : list Z :=
  map Z.of_nat (filter is_prime (seq 2 310)).

(** The greatest [r] below [2 ^ bits] with [r ^ k <= n], found bit by bit
from the top. *)
Fixpoint root_bits (k : Z) (bits : nat) (n r : Z) : Z :=
  match bits with
  | O => r
  | S b =>
      let candidate := r + 2 ^ Z.of_nat b in
      if candidate ^ k <=? n then root_bits k b n candidate
      else root_bits k b n r
  end.

Definition root_fraction (k p : Z) : Z :=
  wrap32 (root_bits k 40 (p * 2 ^ (32 * k)) 0).

Definition K : list Z := Eval vm_compute in map (root_fraction 3) primes.

(** The eight working variables, also the running hash value. *)
Record state : Type := mkState
{ sa : Z; sb : Z; sc : Z; sd : Z; se : Z; sf : Z; sg : Z; sh : Z }.

Definition state_of_list (l : list Z) : state :=
  mkState (nth 0 l 0) (nth 1 l 0) (nth 2 l 0) (nth 3 l 0)
          (nth 4 l 0) (nth 5 l 0) (nth 6 l 0) (nth 7 l 0).

Definition H0 : state :=
  Eval vm_compute in state_of_list (map (root_fraction 2) (firstn 8 primes)).

(** Padding: a 1 bit, zero bits up to 56 bytes modulo 64, then the bit
    length of the message on 64 bits, big-endian. *)
Definition be_bytes (n : nat) (x : Z) : list Z :=
  map (fun i => Z.land (Z.shiftr x (8 * Z.of_nat i)) 255) (rev (seq 0 n)).

Definition pad (msg : list Z) : list Z :=
  let len := Z.of_nat (List.length msg) in
  let zeros := Z.to_nat ((55 - len) mod 64) in
  msg ++ [128] ++ repeat 0 zeros ++ be_bytes 8 (8 * len).

Fixpoint words_of_bytes (fuel : nat) (bs : list Z) : list Z :=
  match fuel, bs with
  | S fuel', b0 :: b1 :: b2 :: b3 :: rest =>
      (Z.lor (Z.shiftl b0 24)
         (Z.lor (Z.shiftl b1 16) (Z.lor (Z.shiftl b2 8) b3)))
      :: words_of_bytes fuel' rest
  | _, _ => []
  end.

(** The message schedule, most recent word first: with [W_t] about to be
    computed, [W_(t-k)] is the element of index [k - 1]. *)
Fixpoint schedule (n : nat) (recent : list Z) : list Z :=
  match n with
  | O => recent
  | S n' =>
      let w := add32 (add32 (sigma1 (nth 1 recent 0)) (nth 6 recent 0))
                     (add32 (sigma0 (nth 14 recent 0)) (nth 15 recent 0)) in
      schedule n' (w :: recent)
  end.

Definition round (s : state) (kw : Z * Z) : state :=
  let t1 := add32 (add32 (add32 (sh s) (Sigma1 (se s)))
                         (add32 (Ch (se s) (sf s) (sg s)) (fst kw)))
                  (snd kw) in
  let t2 := add32 (Sigma0 (sa s)) (Maj (sa s) (sb s) (sc s)) in
  mkState (add32 t1 t2) (sa s) (sb s) (sc s)
          (add32 (sd s) t1) (se s) (sf s) (sg s).

Definition compress (h : state) (block : list Z) : state :=
  let w := rev (schedule 48 (rev block)) in
  let s := fold_left round (combine K w) h in
  mkState (add32 (sa h) (sa s)) (add32 (sb h) (sb s))
          (add32 (sc h) (sc s)) (add32 (sd h) (sd s))
          (add32 (se h) (se s)) (add32 (sf h) (sf s))
          (add32 (sg h) (sg s)) (add32 (sh h) (sh s)).

Fixpoint blocks (fuel : nat) (ws : list Z) : list (list Z) :=
  match fuel, ws with
  | S fuel', _ :: _ => firstn 16 ws :: blocks fuel' (skipn 16 ws)
  | _, _ => []
  end.

Definition digest (msg : list Z) : state :=
  let bytes := pad msg in
  let ws := words_of_bytes (List.length bytes) bytes in
  fold_left compress (blocks (List.length ws) ws) H0.

(** Lower-case hexadecimal output, eight digits per word. *)
Definition hex_digit (n : Z) : ascii :=
  if n <? 10 then ascii_of_N (Z.to_N (48 + n))
  else ascii_of_N (Z.to_N (87 + n)).

Definition nibble (x : Z) (i : Z) : ascii :=
  hex_digit (Z.land (Z.shiftr x (4 * i)) 15).

Definition hex32 (x : Z) : string :=
  String (nibble x 7) (String (nibble x 6) (String (nibble x 5)
  (String (nibble x 4) (String (nibble x 3) (String (nibble x 2)
  (String (nibble x 1) (String (nibble x 0) EmptyString))))))).

Definition hex_of_state (s : state) : string :=
  (hex32 (sa s) ++ hex32 (sb s) ++ hex32 (sc s) ++ hex32 (sd s) ++
   hex32 (se s) ++ hex32 (sf s) ++ hex32 (sg s) ++ hex32 (sh s))%string.

End SHA256.

(** [crypto.createHash('sha256').update(s).digest('hex')]. *)
Definition sha256_hex (s : string) : string :=
  SHA256.hex_of_state (SHA256.digest (utf8_encode s)).

(** ** Values produced by [JSON.parse]

    Numbers are IEEE 754 doubles. *)

#[warnings="-register-all"]
Inductive JSValue : Type :=
| JSNull
| JSBool (b : bool)
| JSNumber (f : spec_float)
| JSString (s : string)
| JSArray (items : list JSValue)
| JSObject (fields : list (string * JSValue)).

(** A number is truthy unless it is a zero or not a number. *)
Definition js_truthy_number (f : spec_float) : bool :=
  match f with
  | S754_zero _ => false
  | S754_nan => false
  | S754_infinity _ => true
  | S754_finite _ _ _ => true
  end.

(** Truthiness, as [||] tests it. *)
Definition js_truthy (v : JSValue) : bool :=
  match v with
  | JSNull => false
  | JSBool b => b
  | JSNumber f => js_truthy_number f
  | JSString s => js_truthy_string s
  | JSArray _ => true
  | JSObject _ => true
  end.

Fixpoint lookup_field (k : string) (fields : list (string * JSValue))
  : option JSValue :=
  match fields with
  | [] => None
  | (k', v) :: rest => if k' =? k then Some v else lookup_field k rest
  end.

(** [v.k] for one of the keys read by the pipeline: a [TypeError] ([None])
    on [null], the field of an object, and [undefined] ([Some None]) on an
    object without the key and on every other value. *)
Definition js_get (v : JSValue) (k : string) : option (option JSValue) :=
  match v with
  | JSNull => None
  | JSObject fields => Some (lookup_field k fields)
  | _ => Some None
  end.

(** [x || d], with [None] for [undefined]. *)
Definition js_or (x : option JSValue) (d : JSValue) : JSValue :=
  match x with
  | Some v => if js_truthy v then v else d
  | None => d
  end.

(** [x !== false]. *)
Definition js_not_false (x : option JSValue) : bool :=
  match x with
  | Some (JSBool false) => false
  | _ => true
  end.

(** ** Rows of the store and values of the pipeline *)

(** A thrown value; the pipeline reads its [message] only. *)
Record Error : Type := mkError { message : string }.

Module Source.
Record t : Type := mk
  { id : string; name : string; url : string; source_type : string }.
End Source.

(** Row identifiers are generated by the store; they are never empty, so
    that [row?.id || null] is the identifier whenever there is a row. *)
Module Snapshot.
Record t : Type := mk
  { id : positive;
    source_id : string;
    raw_html : string;
    raw_hash : string;
    fetch_status : string;
    error_message : option string;
    http_status : option nat;
    fetched_at : nat }.
End Snapshot.

Module ChangeEvent.
Record t : Type := mk
  { id : positive;
    source_id : string;
    snapshot_before_id : option positive;
    snapshot_after_id : positive;
    change_summary : JSValue;
    tags : JSValue;
    status : JSValue;
    effective_date : JSValue;
    needs_review : bool;
    detected_at : nat }.
End ChangeEvent.

(** The value returned by [analyzeDiff]. *)
Module Analysis.
Record t : Type := mk
  { summary : JSValue;
    tags : JSValue;
    status : JSValue;
    effectiveDate : JSValue;
    needsReview : bool }.
End Analysis.

(** One entry of the run report, as returned by [checkSource]; an absent
    key is [None]. *)
Module Entry.
Record t : Type := mk
  { source : string;
    status : string;
    summary : option JSValue;
    error : option string;
    httpStatus : option nat }.
End Entry.

(** ** The outside world *)

(** What [fetch] gives: a rejection, or a response with its status and the
    outcome of reading its body with [text()]. *)
Module HttpResponse.
Record t : Type := mk { status : nat; text : Error + string }.
Definition ok (r : t) : bool := (200 <=? status r)%nat && (status r <=? 299)%nat.
End HttpResponse.

Inductive FetchResult : Type :=
| FetchRejects (e : Error)
| FetchResolves (r : HttpResponse.t).

(** The chat completion request sent to the analysis service. *)
Module ChatRequest.
Record t : Type := mk
  { model : string;
    system : string;
    user : string;
    response_format : string;
    temperature : spec_float }.
End ChatRequest.

(** What the analysis service gives: a rejection, or a completion whose
    choices carry [message.content], a string or [null]. *)
Inductive Completion : Type :=
| CompletionRejects (e : Error)
| CompletionResolves (choices : list (option string)).

(** A row to insert: the store adds the generated columns. *)
Module NewSnapshot.
Record t : Type := mk
  { source_id : string;
    raw_html : string;
    raw_hash : string;
    fetch_status : string;
    error_message : option string;
    http_status : option nat }.
End NewSnapshot.

Module NewChangeEvent.
Record t : Type := mk
  { source_id : string;
    snapshot_before_id : option positive;
    snapshot_after_id : positive;
    change_summary : JSValue;
    tags : JSValue;
    status : JSValue;
    effective_date : JSValue;
    needs_review : bool }.
End NewChangeEvent.

(** Every request made to the outside, in the order it is made. *)
Inductive Request : Type :=
| SelectActiveSources
| SelectLatestSnapshot (source_id : string)
| InsertSnapshot (row : NewSnapshot.t)
| InsertChangeEvent (row : NewChangeEvent.t)
| Fetch (url : string) (user_agent : string)
| CreateCompletion (req : ChatRequest.t).

(** The oracle of a run.  A request is identified by its tick, the number
    of requests made before it. *)
Record Env : Type := mkEnv
  { CRON_SECRET : option string;
    clock : nat -> string;
    store_error : nat -> option Error;
    network : nat -> string -> FetchResult;
    completions : nat -> ChatRequest.t -> Completion }.

Record World : Type := mkWorld
  { sources : list (Source.t * bool);
    snapshots : list Snapshot.t;
    change_events : list ChangeEvent.t;
    next_id : positive;
    trace : list Request }.

Definition tick (w : World) : nat := List.length (trace w).

Definition log (r : Request) (w : World) : World :=
  mkWorld (sources w) (snapshots w) (change_events w) (next_id w)
          (trace w ++ [r])%list.

(** ** Computations: state passing with exceptions *)

Inductive Outcome (A : Type) : Type :=
| Returns (a : A)
| Throws (e : Error).

Arguments Returns {A} a.
Arguments Throws {A} e.

Definition M (A : Type) : Type := World -> Outcome A * World.

Definition ret {A : Type} (a : A) : M A := fun w => (Returns a, w).

Definition throw {A : Type} (e : Error) : M A := fun w => (Throws e, w).

Definition bind {A B : Type} (m : M A) (k : A -> M B) : M B :=
  fun w =>
    match m w with
    | (Returns a, w') => k a w'
    | (Throws e, w') => (Throws e, w')
    end.

Definition try_catch {A : Type} (body : M A) (handler : Error -> M A) : M A :=
  fun w =>
    match body w with
    | (Returns a, w') => (Returns a, w')
    | (Throws e, w') => handler e w'
    end.

Declare Scope monad_scope.
Delimit Scope monad_scope with monad.

Notation "x <- c ;; k" := (bind c (fun x => k))
  (at level 61, c at next level, right associativity) : monad_scope.
Notation "c ;;; k" := (bind c (fun _ => k))
  (at level 61, right associativity) : monad_scope.

Local Open Scope monad_scope.

(** Awaiting a value that either resolves or rejects. *)
Definition await {A : Type} (r : Error + A) : M A :=
  match r with
  | inl e => throw e
  | inr a => ret a
  end.

(** ** The store client

    A request to the store never rejects: it resolves to a reply carrying
    either [data] or [error], and it is the caller who decides what an
    [error] means. *)

Module Reply.
Record t (A : Type) : Type := mk { data : option A; error : option Error }.
Arguments mk {A} data error.
Arguments data {A} _.
Arguments error {A} _.
Definition accepted {A : Type} (a : A) : t A := mk (Some a) None.
Definition refused {A : Type} (e : Error) : t A := mk None (Some e).
End Reply.

(** The most recent snapshot of a source: the row with the greatest
    [fetched_at] among those of the source (the later row on a tie). *)
Fixpoint latest_of (sid : string) (rows : list Snapshot.t)
  (best : option Snapshot.t) : option Snapshot.t :=
  match rows with
  | [] => best
  | r :: rest =>
      if Snapshot.source_id r =? sid then
        match best with
        | Some b =>
            if (Snapshot.fetched_at r <? Snapshot.fetched_at b)%nat
            then latest_of sid rest best
            else latest_of sid rest (Some r)
        | None => latest_of sid rest (Some r)
        end
      else latest_of sid rest best
  end.

Definition latest_snapshot (w : World) (sid : string) : option Snapshot.t :=
  latest_of sid (snapshots w) None.

Definition active_sources (w : World) : list Source.t :=
  map fst (filter snd (sources w)).

Definition stored_snapshot (w : World) (row : NewSnapshot.t) : Snapshot.t :=
  Snapshot.mk (next_id w)
    (NewSnapshot.source_id row) (NewSnapshot.raw_html row)
    (NewSnapshot.raw_hash row) (NewSnapshot.fetch_status row)
    (NewSnapshot.error_message row) (NewSnapshot.http_status row)
    (tick w).

Definition stored_change_event (w : World) (row : NewChangeEvent.t)
  : ChangeEvent.t :=
  ChangeEvent.mk (next_id w)
    (NewChangeEvent.source_id row) (NewChangeEvent.snapshot_before_id row)
    (NewChangeEvent.snapshot_after_id row) (NewChangeEvent.change_summary row)
    (NewChangeEvent.tags row) (NewChangeEvent.status row)
    (NewChangeEvent.effective_date row) (NewChangeEvent.needs_review row)
    (tick w).

Definition no_rows : Error :=
  mkError "JSON object requested, multiple (or no) rows returned".

Definition USER_AGENT : string :=
  "Cosmetics-Regulatory-Monitor/1.0 (Educational/Research Purpose)".

Definition SYSTEM_MESSAGE : string :=
  "You are an expert regulatory analyst specializing in cosmetics law. Extract key changes clearly and concisely.".

Definition null_id : Error :=
  mkError "Cannot read properties of null (reading 'id')".

Definition undefined_message : Error :=
  mkError "Cannot read properties of undefined (reading 'message')".

Definition null_property (k : string) : Error :=
  mkError ("Cannot read properties of null (reading '" ++ k ++ "')").

(** ** The analysis prompt *)

Definition nl : string := String "010"%char EmptyString.
Definition dq : string := String "034"%char EmptyString.
Definition quoted (s : string) : string := dq ++ s ++ dq.

#[warnings="-abstract-large-number"]
Definition NEW_CONTENT_LIMIT : nat := 15000.
#[warnings="-abstract-large-number"]
Definition PREVIOUS_CONTENT_LIMIT : nat := 10000.

Definition new_content_excerpt (newHtml : string) : string :=
  js_substring0 NEW_CONTENT_LIMIT newHtml.

Definition previous_content_excerpt (oldHtml : string) : string :=
  js_substring0 PREVIOUS_CONTENT_LIMIT oldHtml.

Definition previous_section (oldHtml : string) : string :=
  if js_truthy_string oldHtml
  then "PREVIOUS CONTENT (for comparison):" ++ nl
       ++ previous_content_excerpt oldHtml
  else "No previous content available (first fetch).".

Definition prompt_header (source : Source.t) (oldHtml newHtml : string)
  : list string :=
  [ "You are analyzing a change to a cosmetics regulatory source.";
    "";
    "Source: " ++ Source.name source;
    "URL: " ++ Source.url source;
    "";
    "Your task: Analyze what changed and extract key information.";
    "";
    "Previous content length: " ++ show_nat (length oldHtml) ++ " characters";
    "New content length: " ++ show_nat (length newHtml) ++ " characters";
    "";
    "NEW CONTENT:" ].

Definition prompt_footer : list string :=
  [ "";
    "Analyze the change and respond in JSON format with these fields:";
    "{";
    "  " ++ quoted "summary" ++ ": "
      ++ quoted "Plain English summary (2-3 sentences) of what changed and why it matters"
      ++ ",";
    "  " ++ quoted "tags" ++ ": [" ++ quoted "array" ++ ", " ++ quoted "of"
      ++ ", " ++ quoted "relevant" ++ ", " ++ quoted "tags"
      ++ "], // e.g., " ++ quoted "labeling" ++ ", " ++ quoted "ingredient-ban"
      ++ ", " ++ quoted "reporting-deadline";
    "  " ++ quoted "status" ++ ": "
      ++ quoted "draft|proposal|final|guidance|unknown"
      ++ ", // document status if determinable";
    "  " ++ quoted "effectiveDate" ++ ": " ++ quoted "YYYY-MM-DD or null"
      ++ ", // when this matters, if stated";
    "  " ++ quoted "needsReview"
      ++ ": true|false, // true if high-impact, uncertain, or requires expert review";
    "  " ++ quoted "whoAffected" ++ ": "
      ++ quoted "Brief note on who this impacts (manufacturers, indie brands, retailers, etc.)";
    "}";
    "";
    "Focus on regulatory substance: new requirements, deadline changes, banned ingredients, labeling rules, reporting criteria.";
    "Ignore minor formatting, typo fixes, or navigation changes unless they indicate something substantive." ].

(** The template literal of [analyzeDiff], line by line. *)
Definition analysis_prompt (source : Source.t) (oldHtml newHtml : string)
  : string :=
  concat nl
    (prompt_header source oldHtml newHtml
     ++ [ new_content_excerpt newHtml; ""; previous_section oldHtml ]
     ++ prompt_footer)%list.

(** The double nearest to 0.3, [5404319552844595 * 2 ^ -54]. *)
Definition TEMPERATURE : spec_float :=
  S754_finite false 5404319552844595 (-54).

Definition chat_request (prompt : string) : ChatRequest.t :=
  ChatRequest.mk "gpt-4o-mini" SYSTEM_MESSAGE prompt "json_object" TEMPERATURE.

Definition degraded_analysis : Analysis.t :=
  Analysis.mk
    (JSString "Change detected. LLM analysis failed - manual review required.")
    (JSArray [JSString "analysis-error"])
    (JSString "unknown")
    JSNull
    true.

(** ** Responses of the entry point *)

Inductive Body : Type :=
| TextBody (text : string)
| RunReport (success : bool) (timestamp : string) (results : list Entry.t)
| FailureReport (success : bool) (error : string).

(** A response as [handler] builds it: the body, the status and the
    [Content-Type] header given to the constructor, if any (given none, the
    runtime labels a text body itself). *)
Module Response.
Record t : Type := mk
  { body : Body; status : nat; content_type : option string }.
End Response.

(** The incoming request: the value of [headers.get('authorization')]. *)
Record CronRequest : Type := mkCronRequest { authorization : option string }.

(** [`Bearer ${process.env.CRON_SECRET}`]; an unset variable renders as
    [undefined]. *)
Definition expected_authorization (secret : option string) : string :=
  "Bearer " ++ match secret with Some s => s | None => "undefined" end.

(** [authHeader !== expected], a header that is absent being [null]. *)
Definition js_differs (authHeader : option string) (expected : string) : bool :=
  match authHeader with
  | Some h => negb (h =? expected)
  | None => true
  end.

(** ** The pipeline *)

Section Pipeline.

(** [JSON.parse], a [SyntaxError] on the left. *)
Variable JSON_parse : string -> Error + JSValue.

Variable env : Env.

Definition select_active_sources : M (Reply.t (list Source.t)) :=
  fun w =>
    let w' := log SelectActiveSources w in
    match store_error env (tick w) with
    | Some e => (Returns (Reply.refused e), w')
    | None => (Returns (Reply.accepted (active_sources w)), w')
    end.

(** [.eq('source_id', id).order('fetched_at', descending).limit(1).single()] *)
Definition select_latest_snapshot (sid : string) : M (Reply.t Snapshot.t) :=
  fun w =>
    let w' := log (SelectLatestSnapshot sid) w in
    match store_error env (tick w) with
    | Some e => (Returns (Reply.refused e), w')
    | None =>
        match latest_snapshot w sid with
        | Some row => (Returns (Reply.accepted row), w')
        | None => (Returns (Reply.refused no_rows), w')
        end
    end.

(** [.insert(row)], with [.select().single()] the reply carries the
    stored row, and without it the caller ignores the data. *)
Definition insert_snapshot (row : NewSnapshot.t) : M (Reply.t Snapshot.t) :=
  fun w =>
    match store_error env (tick w) with
    | Some e => (Returns (Reply.refused e), log (InsertSnapshot row) w)
    | None =>
        let stored := stored_snapshot w row in
        (Returns (Reply.accepted stored),
         mkWorld (sources w) (snapshots w ++ [stored])%list
                 (change_events w) (Pos.succ (next_id w))
                 (trace w ++ [InsertSnapshot row])%list)
    end.

Definition insert_change_event (row : NewChangeEvent.t)
  : M (Reply.t ChangeEvent.t) :=
  fun w =>
    match store_error env (tick w) with
    | Some e => (Returns (Reply.refused e), log (InsertChangeEvent row) w)
    | None =>
        let stored := stored_change_event w row in
        (Returns (Reply.accepted stored),
         mkWorld (sources w) (snapshots w)
                 (change_events w ++ [stored])%list (Pos.succ (next_id w))
                 (trace w ++ [InsertChangeEvent row])%list)
    end.

Definition fetch (url : string) (user_agent : string) : M HttpResponse.t :=
  fun w =>
    let w' := log (Fetch url user_agent) w in
    match network env (tick w) url with
    | FetchRejects e => (Throws e, w')
    | FetchResolves r => (Returns r, w')
    end.

Definition create_completion (req : ChatRequest.t)
  : M (list (option string)) :=
  fun w =>
    let w' := log (CreateCompletion req) w in
    match completions env (tick w) req with
    | CompletionRejects e => (Throws e, w')
    | CompletionResolves choices => (Returns choices, w')
    end.

Definition saveSnapshot (sourceId html hash status : string)
  (errorMsg : option string) (httpStatus : option nat) : M unit :=
  _ <- insert_snapshot
         (NewSnapshot.mk sourceId html hash status errorMsg httpStatus) ;;
  ret tt.

(** [completion.choices[0].message.content] *)
Definition first_choice_content (choices : list (option string))
  : M (option string) :=
  match choices with
  | [] => throw undefined_message
  | content :: _ => ret content
  end.

(** [content || '{}'] *)
Definition content_or_empty_object (content : option string) : string :=
  match content with
  | Some s => if js_truthy_string s then s else "{}"
  | None => "{}"
  end.

Definition get_property (v : JSValue) (k : string) : M (option JSValue) :=
  match js_get v k with
  | Some x => ret x
  | None => throw (null_property k)
  end.

Definition analyzeDiff (source : Source.t) (oldHtml newHtml : string)
  : M Analysis.t :=
  let prompt := analysis_prompt source oldHtml newHtml in
  try_catch
    (choices <- create_completion (chat_request prompt) ;;
     content <- first_choice_content choices ;;
     analysis <- await (JSON_parse (content_or_empty_object content)) ;;
     summary <- get_property analysis "summary" ;;
     tags <- get_property analysis "tags" ;;
     status <- get_property analysis "status" ;;
     effectiveDate <- get_property analysis "effectiveDate" ;;
     needsReview <- get_property analysis "needsReview" ;;
     ret (Analysis.mk
            (js_or summary (JSString "Change detected, analysis incomplete"))
            (js_or tags (JSArray []))
            (js_or status (JSString "unknown"))
            (js_or effectiveDate JSNull)
            (js_not_false needsReview)))
    (fun error => ret degraded_analysis).

(** [lastSnapshot && lastSnapshot.raw_hash === rawHash] *)
Definition same_hash (lastSnapshot : option Snapshot.t) (rawHash : string)
  : bool :=
  match lastSnapshot with
  | Some l => Snapshot.raw_hash l =? rawHash
  | None => false
  end.

(** [lastSnapshot?.raw_html || ''] *)
Definition previous_html (lastSnapshot : option Snapshot.t) : string :=
  match lastSnapshot with
  | Some l => Snapshot.raw_html l
  | None => ""
  end.

(** [newSnapshot.id], a [TypeError] when the insert returned no row. *)
Definition id_of (newSnapshot : option Snapshot.t) : M positive :=
  match newSnapshot with
  | Some n => ret (Snapshot.id n)
  | None => throw null_id
  end.

(** The [try] block of [checkSource]. *)
Definition checkSource_try (source : Source.t) : M Entry.t :=
  response <- fetch (Source.url source) USER_AGENT ;;
  if negb (HttpResponse.ok response) then
    saveSnapshot (Source.id source) "" "" "error"
      (Some ("HTTP " ++ show_nat (HttpResponse.status response)))
      (Some (HttpResponse.status response)) ;;;
    ret (Entry.mk (Source.name source) "error" None None
                  (Some (HttpResponse.status response)))
  else
    rawHtml <- await (HttpResponse.text response) ;;
    let rawHash := sha256_hex rawHtml in
    last <- select_latest_snapshot (Source.id source) ;;
    let lastSnapshot := Reply.data last in
    new <- insert_snapshot
             (NewSnapshot.mk (Source.id source) rawHtml rawHash "success"
                             None (Some (HttpResponse.status response))) ;;
    let newSnapshot := Reply.data new in
    if same_hash lastSnapshot rawHash then
      ret (Entry.mk (Source.name source) "unchanged" None None None)
    else
      analysis <- analyzeDiff source (previous_html lastSnapshot) rawHtml ;;
      after_id <- id_of newSnapshot ;;
      insert_change_event
        (NewChangeEvent.mk (Source.id source)
           (option_map Snapshot.id lastSnapshot) after_id
           (Analysis.summary analysis) (Analysis.tags analysis)
           (Analysis.status analysis) (Analysis.effectiveDate analysis)
           (Analysis.needsReview analysis)) ;;;
      ret (Entry.mk (Source.name source) "changed"
                    (Some (Analysis.summary analysis)) None None).

(** The [catch] block of [checkSource]. *)
Definition checkSource_catch (source : Source.t) (error : Error) : M Entry.t :=
  saveSnapshot (Source.id source) "" "" "error" (Some (message error)) None ;;;
  ret (Entry.mk (Source.name source) "error" None (Some (message error)) None).

Definition checkSource (source : Source.t) : M Entry.t :=
  try_catch (checkSource_try source) (checkSource_catch source).

(** The [for ... of] loop of [handler], pushing each result. *)
Fixpoint check_each (sources : list Source.t) (results : list Entry.t)
  : M (list Entry.t) :=
  match sources with
  | [] => ret results
  | source :: rest =>
      result <- checkSource source ;;
      check_each rest (results ++ [result])%list
  end.

Definition unauthorized : Response.t :=
  Response.mk (TextBody "Unauthorized") 401 None.

Definition handler (req : CronRequest) : M Response.t :=
  let authHeader := authorization req in
  if js_differs authHeader (expected_authorization (CRON_SECRET env)) then
    ret unauthorized
  else
    try_catch
      (listed <- select_active_sources ;;
       match Reply.error listed, Reply.data listed with
       | Some error, _ => throw error
       | None, None => throw (mkError "sources is not iterable")
       | None, Some sources =>
           results <- check_each sources [] ;;
           (fun w =>
              (Returns (Response.mk (RunReport true (clock env (tick w)) results)
                                    200 (Some "application/json")), w))
       end)
      (fun error =>
         ret (Response.mk (FailureReport false (message error)) 500
                          (Some "application/json"))).

End Pipeline.

(** The sources are processed one after the other, each from the world the
    previous one left, and the entries are collected in that order. *)
Inductive each_checked (JSON_parse : string -> Error + JSValue) (env : Env)
  : list Source.t -> World -> list Entry.t -> World -> Prop :=
| each_checked_nil (w : World) :
    each_checked JSON_parse env [] w [] w
| each_checked_cons (source : Source.t) (rest : list Source.t)
    (w w1 w' : World) (entry : Entry.t) (results : list Entry.t) :
    checkSource JSON_parse env source w = (Returns entry, w1) ->
    each_checked JSON_parse env rest w1 results w' ->
    each_checked JSON_parse env (source :: rest) w (entry :: results) w'.

(** ** Vocabulary of the properties *)

(** The store accepts every request of the run. *)
Definition store_up (env : Env) : Prop :=
  forall t, store_error env t = None.

(** The analysis service call throws, or the body of its answer does not
    parse. *)
Definition analysis_fails (JSON_parse : string -> Error + JSValue)
  (c : Completion) : bool :=
  match c with
  | CompletionRejects _ => true
  | CompletionResolves [] => false
  | CompletionResolves (content :: _) =>
      match JSON_parse (content_or_empty_object content) with
      | inl _ => true
      | inr _ => false
      end
  end.

(** The request that [analyzeDiff] sends. *)
Definition analysis_request (source : Source.t) (oldHtml newHtml : string)
  : Request :=
  CreateCompletion (chat_request (analysis_prompt source oldHtml newHtml)).

(** The rows that [checkSource] writes. *)
Definition error_row (source : Source.t) (errorMsg : option string)
  (httpStatus : option nat) : NewSnapshot.t :=
  NewSnapshot.mk (Source.id source) "" "" "error" errorMsg httpStatus.

Definition success_row (source : Source.t) (rawHtml : string) (status : nat)
  : NewSnapshot.t :=
  NewSnapshot.mk (Source.id source) rawHtml (sha256_hex rawHtml) "success"
                 None (Some status).

Definition change_row (source : Source.t) (lastSnapshot : option Snapshot.t)
  (after_id : positive) (analysis : Analysis.t) : NewChangeEvent.t :=
  NewChangeEvent.mk (Source.id source)
    (option_map Snapshot.id lastSnapshot) after_id
    (Analysis.summary analysis) (Analysis.tags analysis)
    (Analysis.status analysis) (Analysis.effectiveDate analysis)
    (Analysis.needsReview analysis).

(** The world once the store has accepted an insert. *)
Definition with_snapshot (w : World) (row : NewSnapshot.t) : World :=
  mkWorld (sources w) (snapshots w ++ [stored_snapshot w row])%list
          (change_events w) (Pos.succ (next_id w))
          (trace w ++ [InsertSnapshot row])%list.

Definition with_change_event (w : World) (row : NewChangeEvent.t) : World :=
  mkWorld (sources w) (snapshots w)
          (change_events w ++ [stored_change_event w row])%list
          (Pos.succ (next_id w))
          (trace w ++ [InsertChangeEvent row])%list.

(** A fetch that succeeds: a response in the success range whose body
    reads as [html]. *)
Definition fetch_succeeds (env : Env) (source : Source.t) (w : World)
  (status : nat) (html : string) : Prop :=
  network env (tick w) (Source.url source) =
    FetchResolves (HttpResponse.mk status (inr html))
  /\ HttpResponse.ok (HttpResponse.mk status (inr html)) = true.

(** The URLs fetched, the analysis requests made and the rows written, as
    read off a trace. *)
Definition fetched_urls (t : list Request) : list string :=
  flat_map (fun r => match r with Fetch url _ => [url] | _ => [] end) t.

Definition analysis_calls (t : list Request) : list ChatRequest.t :=
  flat_map (fun r => match r with CreateCompletion q => [q] | _ => [] end) t.

(** A computation that fetches nothing: whatever it adds to the trace holds
    no [Fetch]. *)
Definition fetches_nothing {A : Type} (m : M A) : Prop :=
  forall w, exists added,
    trace (snd (m w)) = (trace w ++ added)%list /\ fetched_urls added = [].

(** A computation that always returns, and never throws. *)
Definition always_returns {A : Type} (m : M A) : Prop :=
  forall w, exists a, fst (m w) = Returns a.

(** A computation whose returned values all satisfy [P]. *)
Definition returns_only {A : Type} (P : A -> Prop) (m : M A) : Prop :=
  forall w a, fst (m w) = Returns a -> P a.

(** ** Scenarios

    Concrete sources, stores and oracles on which the pipeline is run. *)

Definition sample_answer : string :=
  "{" ++ quoted "summary" ++ ": " ++ quoted "Labeling rule updated" ++ "}".

(** [JSON.parse] on the texts that occur in the scenarios. *)
Definition scenario_JSON_parse (text : string) : Error + JSValue :=
  if text =? "{}" then inr (JSObject [])
  else if text =? "null" then inr JSNull
  else if text =? sample_answer
       then inr (JSObject [("summary", JSString "Labeling rule updated")])
  else inl (mkError "Unexpected token in JSON").

Definition source_A : Source.t :=
  Source.mk "src-a" "A" "https://regulator.example/a" "federal".

Definition source_B : Source.t :=
  Source.mk "src-b" "B" "https://regulator.example/b" "state".

Definition page (status : nat) (html : string) : FetchResult :=
  FetchResolves (HttpResponse.mk status (inr html)).

Definition store_accepts : nat -> option Error := fun _ => None.

(** The store refuses the request made at tick [t] and accepts the others. *)
Definition store_refuses_at (t : nat) : nat -> option Error :=
  fun t' => if (t' =? t)%nat then Some (mkError "connection refused") else None.

Definition service_down : Completion :=
  CompletionRejects (mkError "Request timed out.").

Definition service_answers (text : string) : Completion :=
  CompletionResolves [Some text].

(** An oracle answering every fetch with [r] and every analysis request
    with [c]. *)
Definition scenario (store : nat -> option Error) (r : FetchResult)
  (c : Completion) : Env :=
  mkEnv (Some "s3cret") (fun _ => "2024-05-01T16:00:00.000Z") store
        (fun _ _ => r) (fun _ _ => c).

Definition snapshot_v1 : Snapshot.t :=
  Snapshot.mk 1 "src-a" "v1" (sha256_hex "v1") "success" None (Some 200) 0.

Definition snapshot_failed : Snapshot.t :=
  Snapshot.mk 2 "src-a" "" "" "error" (Some "HTTP 500") (Some 500) 1.

Definition world_with (rows : list Snapshot.t) : World :=
  mkWorld [(source_A, true); (source_B, true)] rows [] 10 [].

(** A network on which the page of [source_A] cannot be reached and every
    other page reads [v1]. *)
Definition mixed_network : nat -> string -> FetchResult :=
  fun _ url =>
    if url =? Source.url source_A
    then FetchRejects (mkError "fetch failed")
    else page 200 "v1".

Definition mixed_run : Env :=
  mkEnv (Some "s3cret") (fun _ => "2024-05-01T16:00:00.000Z") store_accepts
        mixed_network (fun _ _ => service_answers sample_answer).

(** ** The paths of [checkSource]

    Every run of [checkSource] follows one of six paths, whatever the store,
    the network and the analysis service answer. *)

(** The world once the page has been requested, and once the most recent
    snapshot has been asked for. *)
Definition fetched (source : Source.t) (w : World) : World :=
  log (Fetch (Source.url source) USER_AGENT) w.

Definition selected (source : Source.t) (w : World) : World :=
  log (SelectLatestSnapshot (Source.id source)) (fetched source w).

(** The world an insert leaves, accepted or refused. *)
Definition after_insert_snapshot (env : Env) (row : NewSnapshot.t)
  (w : World) : World :=
  snd (insert_snapshot env row w).

Definition after_insert_change_event (env : Env) (row : NewChangeEvent.t)
  (w : World) : World :=
  snd (insert_change_event env row w).

Definition error_entry (source : Source.t) (e : Error) : Entry.t :=
  Entry.mk (Source.name source) "error" None (Some (message e)) None.

Inductive checkSource_path (JSON_parse : string -> Error + JSValue)
  (env : Env) (source : Source.t) (w : World) : Entry.t -> World -> Prop :=
| path_unreachable (e : Error) :
    network env (tick w) (Source.url source) = FetchRejects e ->
    checkSource_path JSON_parse env source w
      (error_entry source e)
      (after_insert_snapshot env (error_row source (Some (message e)) None)
         (fetched source w))
| path_http_error (r : HttpResponse.t) :
    network env (tick w) (Source.url source) = FetchResolves r ->
    HttpResponse.ok r = false ->
    checkSource_path JSON_parse env source w
      (Entry.mk (Source.name source) "error" None None
                (Some (HttpResponse.status r)))
      (after_insert_snapshot env
         (error_row source
            (Some ("HTTP " ++ show_nat (HttpResponse.status r)))
            (Some (HttpResponse.status r)))
         (fetched source w))
| path_unreadable (r : HttpResponse.t) (e : Error) :
    network env (tick w) (Source.url source) = FetchResolves r ->
    HttpResponse.ok r = true ->
    HttpResponse.text r = inl e ->
    checkSource_path JSON_parse env source w
      (error_entry source e)
      (after_insert_snapshot env (error_row source (Some (message e)) None)
         (fetched source w))
| path_unchanged (status : nat) (html : string)
    (last new : Reply.t Snapshot.t) (w2 : World) :
    fetch_succeeds env source w status html ->
    select_latest_snapshot env (Source.id source) (fetched source w)
      = (Returns last, selected source w) ->
    insert_snapshot env (success_row source html status) (selected source w)
      = (Returns new, w2) ->
    same_hash (Reply.data last) (sha256_hex html) = true ->
    checkSource_path JSON_parse env source w
      (Entry.mk (Source.name source) "unchanged" None None None) w2
| path_changed (status : nat) (html : string)
    (last new : Reply.t Snapshot.t) (w2 : World) (analysis : Analysis.t)
    (stored : Snapshot.t) :
    fetch_succeeds env source w status html ->
    select_latest_snapshot env (Source.id source) (fetched source w)
      = (Returns last, selected source w) ->
    insert_snapshot env (success_row source html status) (selected source w)
      = (Returns new, w2) ->
    same_hash (Reply.data last) (sha256_hex html) = false ->
    analyzeDiff JSON_parse env source (previous_html (Reply.data last)) html w2
      = (Returns analysis,
         log (analysis_request source (previous_html (Reply.data last)) html)
             w2) ->
    Reply.data new = Some stored ->
    checkSource_path JSON_parse env source w
      (Entry.mk (Source.name source) "changed"
                (Some (Analysis.summary analysis)) None None)
      (after_insert_change_event env
         (change_row source (Reply.data last) (Snapshot.id stored) analysis)
         (log (analysis_request source (previous_html (Reply.data last)) html)
              w2))
| path_unpersisted (status : nat) (html : string)
    (last new : Reply.t Snapshot.t) (w2 : World) (analysis : Analysis.t) :
    fetch_succeeds env source w status html ->
    select_latest_snapshot env (Source.id source) (fetched source w)
      = (Returns last, selected source w) ->
    insert_snapshot env (success_row source html status) (selected source w)
      = (Returns new, w2) ->
    same_hash (Reply.data last) (sha256_hex html) = false ->
    analyzeDiff JSON_parse env source (previous_html (Reply.data last)) html w2
      = (Returns analysis,
         log (analysis_request source (previous_html (Reply.data last)) html)
             w2) ->
    Reply.data new = None ->
    checkSource_path JSON_parse env source w
      (error_entry source null_id)
      (after_insert_snapshot env
         (error_row source (Some (message null_id)) None)
         (log (analysis_request source (previous_html (Reply.data last)) html)
              w2)).

(** What a computation appends to the tables: the sources are untouched,
    the rows present stay as they are, [ss] and [es] come after them. *)
Definition grows (w w' : World) (ss : list Snapshot.t)
  (es : list ChangeEvent.t) : Prop :=
  sources w' = sources w
  /\ snapshots w' = (snapshots w ++ ss)%list
  /\ change_events w' = (change_events w ++ es)%list.

(** What [checkSource] holds in [lastSnapshot] and in [newSnapshot] once the
    page is fetched: the second and third requests of the run are the
    lookup and the insert, and a refused request leaves [null]. *)
Definition looked_up (env : Env) (source : Source.t) (w : World)
  : option Snapshot.t :=
  match store_error env (S (tick w)) with
  | Some _ => None
  | None => latest_snapshot w (Source.id source)
  end.

Definition persisted (env : Env) (source : Source.t) (w : World)
  (status : nat) (html : string) : option Snapshot.t :=
  match store_error env (S (S (tick w))) with
  | Some _ => None
  | None =>
      Some (stored_snapshot (selected source w) (success_row source html status))
  end.

(** The store refuses the request made at tick [t] and accepts every other
    request. *)
Definition store_refuses_only (env : Env) (t : nat) : Prop :=
  store_error env t <> None
  /\ forall t', t' <> t -> store_error env t' = None.

(** The page cannot be had: [fetch] rejects, or the body of a response in
    the success range cannot be read. *)
Definition transport_fails (env : Env) (source : Source.t) (w : World)
  (e : Error) : Prop :=
  network env (tick w) (Source.url source) = FetchRejects e
  \/ exists r,
       network env (tick w) (Source.url source) = FetchResolves r
       /\ HttpResponse.ok r = true
       /\ HttpResponse.text r = inl e.

(** No snapshot is stamped later than the present tick. *)
Definition timestamps_in_past (w : World) : Prop :=
  forall r, In r (snapshots w) -> Snapshot.fetched_at r <= tick w.

(** The requests a run of [checkSource] makes to the store once the page is
    fetched: the lookup of the most recent snapshot, the insert of the new
    snapshot and, after the analysis, the insert of the change event.  Each
    may be accepted or refused. *)
Definition lookup_accepted (env : Env) (w : World) : Prop :=
  store_error env (S (tick w)) = None.

Definition snapshot_insert_accepted (env : Env) (w : World) : Prop :=
  store_error env (S (S (tick w))) = None.

Definition change_event_insert_accepted (env : Env) (w : World) : Prop :=
  store_error env (4 + tick w) = None.

(** The request a run makes to the store when the page cannot be had, or
    comes with a status outside the success range: the insert of the error
    snapshot, right after the fetch. *)
Definition error_snapshot_insert_accepted (env : Env) (w : World) : Prop :=
  store_error env (S (tick w)) = None.

(** The tick at which a run asks the store to insert the snapshot of its
    fetch attempt: after the lookup when the page is fetched, right after
    the fetch otherwise. *)
Definition snapshot_write_tick (env : Env) (source : Source.t) (w : World)
  : nat :=
  match network env (tick w) (Source.url source) with
  | FetchRejects _ => S (tick w)
  | FetchResolves r =>
      if HttpResponse.ok r then
        match HttpResponse.text r with
        | inl _ => S (tick w)
        | inr _ => S (S (tick w))
        end
      else S (tick w)
  end.

(** ** Vocabulary for the fingerprint and the analysis *)

(** A digit or a letter from [a] to [f]. *)
Definition is_lower_hex (c : ascii) : bool :=
  let n := nat_of_ascii c in
  ((48 <=? n)%nat && (n <=? 57)%nat) || ((97 <=? n)%nat && (n <=? 102)%nat).

Fixpoint string_forall (p : ascii -> bool) (s : string) : bool :=
  match s with
  | EmptyString => true
  | String c rest => p c && string_forall p rest
  end.

(** The result of an answer that carries none of the expected fields. *)
Definition incomplete_analysis : Analysis.t :=
  Analysis.mk (JSString "Change detected, analysis incomplete") (JSArray [])
              (JSString "unknown") JSNull true.

(** The keys [analyzeDiff] reads in the answer. *)
Definition analysis_keys : list string :=
  ["summary"; "tags"; "status"; "effectiveDate"; "needsReview"].

(** ** The review dashboard ([pages/index.tsx])

    The functions of the [Dashboard] component that talk to the store:
    [fetchSources], [fetchChanges] and [markReviewed].  The state of the
    component is passed explicitly; the answer of the store to each request,
    an error or none, is an argument. *)

Module Dashboard.

(** A row of [change_events] as the dashboard reads it: the columns the
    pipeline writes, and [reviewed_at], which only the dashboard writes. *)
Record Row : Type := mkRow
{ event : ChangeEvent.t; reviewed_at : option string }.

(** A selected row with the embedded [sources (name, url)]. *)
Record View : Type := mkView
{ row : Row; source : option (string * string) }.

Record Store : Type := mkStore
{ source_rows : list (Source.t * bool); change_rows : list Row }.

(** The state of the component, with the initial values of [useState]. *)
Record State : Type := mkState
{ changes : list View;
  loading : bool;
  filterSource : string;
  filterReview : string;
  sources : list (string * string) }.

Definition initial : State := mkState [] true "all" "all" [].

(** The filters that [fetchChanges] adds to the query. *)
Definition matches_source (filterSource : string) (r : Row) : bool :=
  if filterSource =? "all" then true
  else ChangeEvent.source_id (event r) =? filterSource.

Definition matches_review (filterReview : string) (r : Row) : bool :=
  if filterReview =? "pending" then
    ChangeEvent.needs_review (event r)
    && match reviewed_at r with None => true | Some _ => false end
  else if filterReview =? "reviewed" then
    match reviewed_at r with None => false | Some _ => true end
  else true.

Definition matches (filterSource filterReview : string) (r : Row) : bool :=
  matches_source filterSource r && matches_review filterReview r.

(** [.order('detected_at', { ascending: false })]: an insertion sort that
    keeps rows detected at the same time in the order of the table. *)
Fixpoint insert_by_date (r : Row) (sorted : list Row) : list Row :=
  match sorted with
  | [] => [r]
  | x :: rest =>
      if (ChangeEvent.detected_at (event x) <=? ChangeEvent.detected_at (event r))%nat
      then r :: x :: rest
      else x :: insert_by_date r rest
  end.

Definition newest_first (rows : list Row) : list Row :=
  fold_right insert_by_date [] rows.

Definition LIMIT : nat := 50.

Definition embed_source (db : Store) (r : Row) : View :=
  mkView r
    (match find (fun s => Source.id (fst s) =? ChangeEvent.source_id (event r))
                (source_rows db) with
     | Some s => Some (Source.name (fst s), Source.url (fst s))
     | None => None
     end).

(** The rows the query of [fetchChanges] returns: the rows that pass the
    filters, the most recent first, fifty at most. *)
Definition select_changes (db : Store) (filterSource filterReview : string)
  : list View :=
  map (embed_source db)
      (firstn LIMIT
         (newest_first (filter (matches filterSource filterReview)
                               (change_rows db)))).

Definition fetchSources (error : option Error) (db : Store) (st : State)
  : State :=
  let data :=
    match error with
    | Some _ => []
    | None =>
        map (fun s => (Source.id (fst s), Source.name (fst s)))
            (filter snd (source_rows db))
    end in
  mkState (changes st) (loading st) (filterSource st) (filterReview st) data.

Definition fetchChanges (error : option Error) (db : Store) (st : State)
  : State :=
  match error with
  | Some _ =>
      mkState (changes st) false (filterSource st) (filterReview st)
              (sources st)
  | None =>
      mkState (select_changes db (filterSource st) (filterReview st)) false
              (filterSource st) (filterReview st) (sources st)
  end.

(** [.update({ needs_review: false, reviewed_at: now }).eq('id', changeId)] *)
Definition reviewed (now : string) (r : Row) : Row :=
  let e := event r in
  mkRow (ChangeEvent.mk (ChangeEvent.id e) (ChangeEvent.source_id e)
           (ChangeEvent.snapshot_before_id e) (ChangeEvent.snapshot_after_id e)
           (ChangeEvent.change_summary e) (ChangeEvent.tags e)
           (ChangeEvent.status e) (ChangeEvent.effective_date e)
           false (ChangeEvent.detected_at e))
        (Some now).

Definition update_reviewed (now : string) (changeId : positive) (db : Store)
  : Store :=
  mkStore (source_rows db)
    (map (fun r => if Pos.eqb (ChangeEvent.id (event r)) changeId
                   then reviewed now r else r)
         (change_rows db)).

(** [markReviewed]: the update, then, unless it failed, [fetchChanges]. *)
Definition markReviewed (update_error fetch_error : option Error)
  (now : string) (changeId : positive) (db : Store) (st : State)
  : Store * State :=
  match update_error with
  | Some _ => (db, st)
  | None =>
      let db' := update_reviewed now changeId db in
      (db', fetchChanges fetch_error db' st)
  end.

(** The condition under which a change shows the 'Needs Review' badge and
    the 'Mark Reviewed' button. *)
Definition awaits_review (r : Row) : bool :=
  ChangeEvent.needs_review (event r)
  && match reviewed_at r with
     | None => true
     | Some at_ => negb (js_truthy_string at_)
     end.

(** A change event as the pipeline leaves it: never reviewed. *)
Definition recorded (e : ChangeEvent.t) : Row := mkRow e None.

(** [a] was detected no earlier than [b]. *)
Definition not_older (a b : Row) : Prop :=
  ChangeEvent.detected_at (event b) <= ChangeEvent.detected_at (event a).

End Dashboard.

(** The store of the dashboard over a world of the pipeline. *)
Definition dashboard_store (w : World) : Dashboard.Store :=
  Dashboard.mkStore (sources w) (map Dashboard.recorded (change_events w)).

(** * Properties *)

(** ** Strings *)

Lemma length_append (s1 s2 : string) :
  length (s1 ++ s2) = length s1 + length s2.
Proof.
  induction s1 as [|c s1 IH]; simpl; [reflexivity | now rewrite IH].
Qed.

Lemma substring0_length (n : nat) (s : string) :
  length (substring 0 n s) = Nat.min n (length s).
Proof.
  revert s; induction n as [|n IH]; intros [|c s]; simpl; try reflexivity.
  now rewrite IH.
Qed.

Lemma substring0_split (n : nat) (s : string) :
  exists rest, s = substring 0 n s ++ rest.
Proof.
  revert s; induction n as [|n IH]; intros [|c s]; simpl.
  - now exists "".
  - now exists (String c s).
  - now exists "".
  - destruct (IH s) as [rest Hrest]. exists rest. now rewrite <- Hrest.
Qed.

Lemma prefix_append (s1 s2 : string) : prefix s1 (s1 ++ s2) = true.
Proof.
  induction s1 as [|c s1 IH]; simpl.
  - now destruct s2.
  - destruct (ascii_dec c c) as [_|Hc]; [exact IH | now elim Hc].
Qed.

Lemma substring0_prefix (n : nat) (s : string) :
  prefix (substring 0 n s) s = true.
Proof.
  destruct (substring0_split n s) as [rest Hrest].
  rewrite Hrest at 2. apply prefix_append.
Qed.

(** ** The fingerprint *)

Example sha256_hex_empty :
  sha256_hex "" =
  "e3b0c44298fc1c149afbf4c8996fb92427ae41e4649b934ca495991b7852b855".
Proof. vm_compute. reflexivity. Qed.

Example sha256_hex_abc :
  sha256_hex "abc" =
  "ba7816bf8f01cfea414140de5dae2223b00361a396177a9cb410ff61f20015ad".
Proof. vm_compute. reflexivity. Qed.

Example sha256_hex_two_blocks :
  sha256_hex "abcdbcdecdefdefgefghfghighijhijkijkljklmklmnlmnomnopnopq" =
  "248d6a61d20638b8e5c026930c3e6039a33ce45964ff2167f6ecedd419db06c1".
Proof. vm_compute. reflexivity. Qed.

Lemma hex32_length (x : Z) : length (SHA256.hex32 x) = 8.
Proof. reflexivity. Qed.

Lemma sha256_hex_length (s : string) : length (sha256_hex s) = 64.
Proof.
  unfold sha256_hex, SHA256.hex_of_state.
  now rewrite !length_append, !hex32_length.
Qed.

Lemma sha256_hex_not_empty (s : string) : sha256_hex s <> "".
Proof.
  intro H. pose proof (sha256_hex_length s) as L.
  rewrite H in L. discriminate L.
Qed.

Lemma sha256_hex_neqb_empty (s : string) : ("" =? sha256_hex s) = false.
Proof.
  apply String.eqb_neq. intro H. now apply (sha256_hex_not_empty s).
Qed.

(** ** The pipeline *)

Section PipelineFacts.

Variable JSON_parse : string -> Error + JSValue.
Variable env : Env.

Lemma tick_log (r : Request) (w : World) : tick (log r w) = S (tick w).
Proof.
  unfold tick, log; simpl. rewrite length_app; simpl. lia.
Qed.

(** [analyzeDiff] never throws and makes exactly one request. *)
Lemma analyzeDiff_returns (source : Source.t) (oldHtml newHtml : string)
  (w : World) :
  exists analysis,
    analyzeDiff JSON_parse env source oldHtml newHtml w =
    (Returns analysis, log (analysis_request source oldHtml newHtml) w).
Proof.
  unfold analyzeDiff, try_catch, bind, create_completion,
    analysis_request.
  destruct (completions env (tick w) _) as [e|[|content rest]]; simpl;
    try (eexists; reflexivity).
  unfold await.
  destruct (JSON_parse (content_or_empty_object content)) as [e|v]; simpl;
    try (eexists; reflexivity).
  destruct v; simpl; eexists; reflexivity.
Qed.

Lemma analyzeDiff_degraded (source : Source.t) (oldHtml newHtml : string)
  (w : World) :
  analysis_fails JSON_parse
    (completions env (tick w)
       (chat_request (analysis_prompt source oldHtml newHtml))) = true ->
  analyzeDiff JSON_parse env source oldHtml newHtml w =
  (Returns degraded_analysis,
   log (analysis_request source oldHtml newHtml) w).
Proof.
  unfold analyzeDiff, try_catch, bind, create_completion,
    analysis_request, analysis_fails.
  destruct (completions env (tick w) _) as [e|[|content rest]]; simpl;
    try reflexivity; try discriminate.
  unfold await.
  destruct (JSON_parse (content_or_empty_object content)) as [e|v]; simpl;
    [reflexivity | discriminate].
Qed.

Lemma bind_returns {A B : Type} (m : M A) (k : A -> M B) (w w' : World)
  (a : A) :
  m w = (Returns a, w') -> bind m k w = k a w'.
Proof. intros H. unfold bind. now rewrite H. Qed.

Lemma bind_throws {A B : Type} (m : M A) (k : A -> M B) (w w' : World)
  (e : Error) :
  m w = (Throws e, w') -> bind m k w = (Throws e, w').
Proof. intros H. unfold bind. now rewrite H. Qed.

Lemma bind_ret {A B : Type} (a : A) (k : A -> M B) (w : World) :
  bind (ret a) k w = k a w.
Proof. reflexivity. Qed.

Lemma fetch_resolves (url : string) (w : World) (r : HttpResponse.t) :
  network env (tick w) url = FetchResolves r ->
  fetch env url USER_AGENT w = (Returns r, log (Fetch url USER_AGENT) w).
Proof. intros H. unfold fetch. now rewrite H. Qed.

Lemma fetch_rejects (url : string) (w : World) (e : Error) :
  network env (tick w) url = FetchRejects e ->
  fetch env url USER_AGENT w = (Throws e, log (Fetch url USER_AGENT) w).
Proof. intros H. unfold fetch. now rewrite H. Qed.

Lemma select_latest_accepted (sid : string) (w : World) :
  store_error env (tick w) = None ->
  exists reply,
    select_latest_snapshot env sid w =
      (Returns reply, log (SelectLatestSnapshot sid) w)
    /\ Reply.data reply = latest_snapshot w sid.
Proof.
  intros H. unfold select_latest_snapshot. rewrite H.
  destruct (latest_snapshot w sid) as [row|]; eexists; split; reflexivity.
Qed.

Lemma insert_snapshot_accepted (row : NewSnapshot.t) (w : World) :
  store_error env (tick w) = None ->
  insert_snapshot env row w =
  (Returns (Reply.accepted (stored_snapshot w row)), with_snapshot w row).
Proof. intros H. unfold insert_snapshot. now rewrite H. Qed.

Lemma insert_snapshot_refused (row : NewSnapshot.t) (w : World) (e : Error) :
  store_error env (tick w) = Some e ->
  insert_snapshot env row w =
  (Returns (Reply.refused e), log (InsertSnapshot row) w).
Proof. intros H. unfold insert_snapshot. now rewrite H. Qed.

Lemma insert_change_event_accepted (row : NewChangeEvent.t) (w : World) :
  store_error env (tick w) = None ->
  insert_change_event env row w =
  (Returns (Reply.accepted (stored_change_event w row)),
   with_change_event w row).
Proof. intros H. unfold insert_change_event. now rewrite H. Qed.

Lemma saveSnapshot_accepted (source : Source.t) (msg : option string)
  (code : option nat) (w : World) :
  store_error env (tick w) = None ->
  saveSnapshot env (Source.id source) "" "" "error" msg code w =
  (Returns tt, with_snapshot w (error_row source msg code)).
Proof.
  intros H. unfold saveSnapshot.
  erewrite bind_returns by (apply insert_snapshot_accepted; exact H).
  reflexivity.
Qed.

(** The run of [checkSource] on a successful fetch, the store accepting
    its requests. *)
Lemma checkSource_success (source : Source.t) (w : World) (status : nat)
  (html : string) :
  store_up env ->
  fetch_succeeds env source w status html ->
  let last := latest_snapshot w (Source.id source) in
  let w1 := log (SelectLatestSnapshot (Source.id source))
                (log (Fetch (Source.url source) USER_AGENT) w) in
  let row := success_row source html status in
  let w2 := with_snapshot w1 row in
  if same_hash last (sha256_hex html) then
    checkSource JSON_parse env source w =
    (Returns (Entry.mk (Source.name source) "unchanged" None None None), w2)
  else
    exists analysis,
      let w3 := log (analysis_request source (previous_html last) html) w2 in
      analyzeDiff JSON_parse env source (previous_html last) html w2 =
        (Returns analysis, w3)
      /\ checkSource JSON_parse env source w =
         (Returns (Entry.mk (Source.name source) "changed"
                            (Some (Analysis.summary analysis)) None None),
          with_change_event w3
            (change_row source last (Snapshot.id (stored_snapshot w1 row))
                        analysis)).
Proof.
  intros Hup [Hnet Hok]; cbv zeta.
  set (w0 := log (Fetch (Source.url source) USER_AGENT) w).
  destruct (select_latest_accepted (Source.id source) w0 (Hup _))
    as [reply [Hsel Hdata]].
  change (latest_snapshot w0 (Source.id source))
    with (latest_snapshot w (Source.id source)) in Hdata.
  set (w1 := log (SelectLatestSnapshot (Source.id source)) w0) in *.
  pose proof (insert_snapshot_accepted (success_row source html status) w1
                (Hup _)) as Hins.
  set (w2 := with_snapshot w1 (success_row source html status)) in *.
  unfold checkSource, try_catch, checkSource_try.
  erewrite bind_returns by (apply fetch_resolves; exact Hnet).
  rewrite Hok; cbn [negb HttpResponse.text HttpResponse.status await].
  rewrite bind_ret.
  erewrite bind_returns by exact Hsel.
  erewrite bind_returns by exact Hins.
  rewrite Hdata.
  destruct (same_hash (latest_snapshot w (Source.id source)) (sha256_hex html)).
  - reflexivity.
  - destruct (analyzeDiff_returns source
                (previous_html (latest_snapshot w (Source.id source)))
                html w2) as [analysis Han].
    exists analysis. split; [exact Han|].
    erewrite bind_returns by exact Han.
    cbn [Reply.data Reply.accepted id_of].
    rewrite bind_ret.
    erewrite bind_returns by (apply insert_change_event_accepted; apply Hup).
    reflexivity.
Qed.

(** *** What a computation adds to the trace *)

Lemma fetches_nothing_ret {A : Type} (a : A) : fetches_nothing (ret a).
Proof. intros w. exists []. now rewrite app_nil_r. Qed.

Lemma fetches_nothing_throw {A : Type} (e : Error) :
  fetches_nothing (@throw A e).
Proof. intros w. exists []. now rewrite app_nil_r. Qed.

Lemma fetched_urls_app (t1 t2 : list Request) :
  fetched_urls (t1 ++ t2) = (fetched_urls t1 ++ fetched_urls t2)%list.
Proof. apply flat_map_app. Qed.

Lemma fetches_nothing_bind {A B : Type} (m : M A) (k : A -> M B) :
  fetches_nothing m -> (forall a, fetches_nothing (k a)) ->
  fetches_nothing (bind m k).
Proof.
  intros Hm Hk w. unfold bind.
  destruct (Hm w) as [t1 [E1 Q1]].
  destruct (m w) as [[a|e] w1]; simpl in *.
  - destruct (Hk a w1) as [t2 [E2 Q2]].
    exists (t1 ++ t2)%list. rewrite E2, E1, app_assoc. split; [reflexivity|].
    now rewrite fetched_urls_app, Q1, Q2.
  - exists t1. now split.
Qed.

Lemma fetches_nothing_try_catch {A : Type} (m : M A) (h : Error -> M A) :
  fetches_nothing m -> (forall e, fetches_nothing (h e)) ->
  fetches_nothing (try_catch m h).
Proof.
  intros Hm Hh w. unfold try_catch.
  destruct (Hm w) as [t1 [E1 Q1]].
  destruct (m w) as [[a|e] w1]; simpl in *.
  - exists t1. now split.
  - destruct (Hh e w1) as [t2 [E2 Q2]].
    exists (t1 ++ t2)%list. rewrite E2, E1, app_assoc. split; [reflexivity|].
    now rewrite fetched_urls_app, Q1, Q2.
Qed.

Lemma fetches_nothing_select_latest (sid : string) :
  fetches_nothing (select_latest_snapshot env sid).
Proof.
  intros w. exists [SelectLatestSnapshot sid]. unfold select_latest_snapshot.
  destruct (store_error env (tick w)); [now split|].
  destruct (latest_snapshot w sid); now split.
Qed.

Lemma fetches_nothing_insert_snapshot (row : NewSnapshot.t) :
  fetches_nothing (insert_snapshot env row).
Proof.
  intros w. exists [InsertSnapshot row]. unfold insert_snapshot.
  destruct (store_error env (tick w)); now split.
Qed.

Lemma fetches_nothing_insert_change_event (row : NewChangeEvent.t) :
  fetches_nothing (insert_change_event env row).
Proof.
  intros w. exists [InsertChangeEvent row]. unfold insert_change_event.
  destruct (store_error env (tick w)); now split.
Qed.

Lemma fetches_nothing_saveSnapshot (sid html hash status : string)
  (msg : option string) (code : option nat) :
  fetches_nothing (saveSnapshot env sid html hash status msg code).
Proof.
  apply fetches_nothing_bind.
  - apply fetches_nothing_insert_snapshot.
  - intros _. apply fetches_nothing_ret.
Qed.

Lemma fetches_nothing_analyzeDiff (source : Source.t)
  (oldHtml newHtml : string) :
  fetches_nothing (analyzeDiff JSON_parse env source oldHtml newHtml).
Proof.
  intros w. destruct (analyzeDiff_returns source oldHtml newHtml w) as [a Ha].
  rewrite Ha. exists [analysis_request source oldHtml newHtml]. now split.
Qed.

Lemma fetches_nothing_checkSource_catch (source : Source.t) (e : Error) :
  fetches_nothing (checkSource_catch env source e).
Proof.
  apply fetches_nothing_bind.
  - apply fetches_nothing_saveSnapshot.
  - intros _. apply fetches_nothing_ret.
Qed.

(** *** [checkSource] never throws *)

Lemma always_returns_checkSource_catch (source : Source.t) (e : Error) :
  always_returns (checkSource_catch env source e).
Proof.
  intros w. unfold checkSource_catch, saveSnapshot, bind, insert_snapshot.
  destruct (store_error env (tick w)); simpl; eexists; reflexivity.
Qed.

Lemma always_returns_try_catch {A : Type} (m : M A) (h : Error -> M A) :
  (forall e, always_returns (h e)) -> always_returns (try_catch m h).
Proof.
  intros Hh w. unfold try_catch.
  destruct (m w) as [[a|e] w1]; simpl.
  - now exists a.
  - apply Hh.
Qed.

Lemma always_returns_checkSource (source : Source.t) :
  always_returns (checkSource JSON_parse env source).
Proof.
  apply always_returns_try_catch. apply always_returns_checkSource_catch.
Qed.

(** *** What [checkSource] returns *)

Lemma returns_only_ret {A : Type} (P : A -> Prop) (a : A) :
  P a -> returns_only P (ret a).
Proof. intros H w b E. simpl in E. now inversion E; subst. Qed.

Lemma returns_only_bind {A B : Type} (P : B -> Prop) (m : M A)
  (k : A -> M B) :
  (forall a, returns_only P (k a)) -> returns_only P (bind m k).
Proof.
  intros Hk w b. unfold bind.
  destruct (m w) as [[a|e] w1]; simpl.
  - apply Hk.
  - discriminate.
Qed.

Lemma returns_only_try_catch {A : Type} (P : A -> Prop) (m : M A)
  (h : Error -> M A) :
  returns_only P m -> (forall e, returns_only P (h e)) ->
  returns_only P (try_catch m h).
Proof.
  intros Hm Hh w b. unfold try_catch.
  pose proof (Hm w) as Hmw.
  destruct (m w) as [[a|e] w1]; simpl in *.
  - exact (Hmw b).
  - apply Hh.
Qed.

Lemma checkSource_names_its_source (source : Source.t) :
  returns_only (fun entry => Entry.source entry = Source.name source)
               (checkSource JSON_parse env source).
Proof.
  apply returns_only_try_catch.
  - unfold checkSource_try.
    apply returns_only_bind; intros response.
    destruct (negb (HttpResponse.ok response)).
    + apply returns_only_bind; intros _. now apply returns_only_ret.
    + apply returns_only_bind; intros rawHtml.
      apply returns_only_bind; intros last.
      apply returns_only_bind; intros new.
      destruct (same_hash _ _).
      * now apply returns_only_ret.
      * apply returns_only_bind; intros analysis.
        apply returns_only_bind; intros after_id.
        apply returns_only_bind; intros _.
        now apply returns_only_ret.
  - intros e. unfold checkSource_catch.
    apply returns_only_bind; intros _. now apply returns_only_ret.
Qed.

(** [checkSource] fetches the URL of its source, once, before anything
    else. *)
Lemma checkSource_fetches_once (source : Source.t) (w : World) :
  exists added,
    trace (snd (checkSource JSON_parse env source w)) =
      (trace w ++ Fetch (Source.url source) USER_AGENT :: added)%list
    /\ fetched_urls added = [].
Proof.
  unfold checkSource, checkSource_try.
  match goal with
  | |- context [bind (fetch _ _ _) ?k] => set (rest := k)
  end.
  assert (Hrest : forall r,
             fetches_nothing (try_catch (rest r) (checkSource_catch env source))).
  { intros r. apply fetches_nothing_try_catch;
      [|apply fetches_nothing_checkSource_catch].
    unfold rest. destruct (negb (HttpResponse.ok r)).
    - apply fetches_nothing_bind;
        [apply fetches_nothing_saveSnapshot | intros; apply fetches_nothing_ret].
    - apply fetches_nothing_bind.
      { destruct (HttpResponse.text r);
          [apply fetches_nothing_throw | apply fetches_nothing_ret]. }
      intros rawHtml.
      apply fetches_nothing_bind; [apply fetches_nothing_select_latest|].
      intros last.
      apply fetches_nothing_bind; [apply fetches_nothing_insert_snapshot|].
      intros new. destruct (same_hash _ _); [apply fetches_nothing_ret|].
      apply fetches_nothing_bind; [apply fetches_nothing_analyzeDiff|].
      intros analysis.
      apply fetches_nothing_bind.
      { destruct (Reply.data new);
          [apply fetches_nothing_ret | apply fetches_nothing_throw]. }
      intros after_id.
      apply fetches_nothing_bind;
        [apply fetches_nothing_insert_change_event
        | intros; apply fetches_nothing_ret]. }
  unfold try_catch at 1, bind at 1, fetch.
  destruct (network env (tick w) (Source.url source)) as [e|r].
  - destruct (fetches_nothing_checkSource_catch source e
                (log (Fetch (Source.url source) USER_AGENT) w))
      as [added [E Q]].
    exists added. split; [|exact Q].
    rewrite E. simpl. now rewrite <- app_assoc.
  - destruct (Hrest r (log (Fetch (Source.url source) USER_AGENT) w))
      as [added [E Q]].
    exists added. split; [|exact Q].
    unfold try_catch in E. rewrite E. simpl. now rewrite <- app_assoc.
Qed.

(** The loop over the sources: one entry per source, in order, and one
    fetch per source, in order. *)
Lemma check_each_run (srcs : list Source.t) :
  forall (acc : list Entry.t) (w : World),
  exists results w',
    check_each JSON_parse env srcs acc w = (Returns (acc ++ results)%list, w')
    /\ each_checked JSON_parse env srcs w results w'
    /\ map Entry.source results = map Source.name srcs
    /\ fetched_urls (trace w') =
       (fetched_urls (trace w) ++ map Source.url srcs)%list.
Proof.
  induction srcs as [|source rest IH]; intros acc w.
  - exists [], w. simpl. unfold ret. rewrite !app_nil_r.
    repeat split. constructor.
  - simpl check_each. unfold bind.
    destruct (always_returns_checkSource source w) as [entry Hentry].
    pose proof (checkSource_names_its_source source w entry Hentry) as Hname.
    destruct (checkSource_fetches_once source w) as [added [Htrace Hquiet]].
    destruct (checkSource JSON_parse env source w) as [out w1] eqn:Hsource.
    simpl in Hentry, Htrace. subst out.
    destruct (IH (acc ++ [entry])%list w1)
      as [results [w' [Hrun [Heach [Hnames Hurls]]]]].
    exists (entry :: results), w'. split; [|split; [|split]].
    + rewrite Hrun. now rewrite <- app_assoc.
    + econstructor; [exact Hsource | exact Heach].
    + simpl. now rewrite Hname, Hnames.
    + rewrite Hurls, Htrace, fetched_urls_app. simpl.
      rewrite Hquiet. now rewrite <- app_assoc.
Qed.

(** *** The failing runs of [checkSource] *)

Lemma tick_with_snapshot (w : World) (row : NewSnapshot.t) :
  tick (with_snapshot w row) = S (tick w).
Proof.
  unfold tick, with_snapshot; simpl. rewrite length_app; simpl. lia.
Qed.

Lemma checkSource_catch_accepted (source : Source.t) (e : Error) (w : World) :
  store_error env (tick w) = None ->
  checkSource_catch env source e w =
  (Returns (Entry.mk (Source.name source) "error" None (Some (message e)) None),
   with_snapshot w (error_row source (Some (message e)) None)).
Proof.
  intros H. unfold checkSource_catch.
  erewrite bind_returns by (apply saveSnapshot_accepted; exact H).
  reflexivity.
Qed.

Lemma checkSource_catches (source : Source.t) (w w1 : World) (e : Error) :
  checkSource_try JSON_parse env source w = (Throws e, w1) ->
  exists w',
    checkSource JSON_parse env source w =
    (Returns (Entry.mk (Source.name source) "error" None
                       (Some (message e)) None), w').
Proof.
  intros H. unfold checkSource, try_catch. rewrite H.
  unfold checkSource_catch, saveSnapshot, bind, insert_snapshot.
  destruct (store_error env (tick w1)); simpl; eexists; reflexivity.
Qed.

Lemma checkSource_fetch_rejected (source : Source.t) (w : World) (e : Error) :
  network env (tick w) (Source.url source) = FetchRejects e ->
  store_error env (S (tick w)) = None ->
  checkSource JSON_parse env source w =
  (Returns (Entry.mk (Source.name source) "error" None (Some (message e)) None),
   with_snapshot (log (Fetch (Source.url source) USER_AGENT) w)
                 (error_row source (Some (message e)) None)).
Proof.
  intros Hnet Hstore. unfold checkSource, try_catch, checkSource_try.
  erewrite bind_throws by (apply fetch_rejects; exact Hnet).
  apply checkSource_catch_accepted. now rewrite tick_log.
Qed.

Lemma checkSource_body_rejected (source : Source.t) (w : World)
  (r : HttpResponse.t) (e : Error) :
  network env (tick w) (Source.url source) = FetchResolves r ->
  HttpResponse.ok r = true ->
  HttpResponse.text r = inl e ->
  store_error env (S (tick w)) = None ->
  checkSource JSON_parse env source w =
  (Returns (Entry.mk (Source.name source) "error" None (Some (message e)) None),
   with_snapshot (log (Fetch (Source.url source) USER_AGENT) w)
                 (error_row source (Some (message e)) None)).
Proof.
  intros Hnet Hok Htext Hstore. unfold checkSource, try_catch, checkSource_try.
  erewrite bind_returns by (apply fetch_resolves; exact Hnet).
  rewrite Hok, Htext; cbn [negb await].
  erewrite bind_throws by reflexivity.
  apply checkSource_catch_accepted. now rewrite tick_log.
Qed.

Lemma checkSource_http_error (source : Source.t) (w : World)
  (r : HttpResponse.t) :
  network env (tick w) (Source.url source) = FetchResolves r ->
  HttpResponse.ok r = false ->
  store_error env (S (tick w)) = None ->
  checkSource JSON_parse env source w =
  (Returns (Entry.mk (Source.name source) "error" None None
                     (Some (HttpResponse.status r))),
   with_snapshot (log (Fetch (Source.url source) USER_AGENT) w)
                 (error_row source
                    (Some ("HTTP " ++ show_nat (HttpResponse.status r)))
                    (Some (HttpResponse.status r)))).
Proof.
  intros Hnet Hok Hstore. unfold checkSource, try_catch, checkSource_try.
  erewrite bind_returns by (apply fetch_resolves; exact Hnet).
  rewrite Hok; cbn [negb].
  erewrite bind_returns
    by (apply saveSnapshot_accepted; now rewrite tick_log).
  reflexivity.
Qed.

(** A refused insert of the new snapshot is not noticed when the page is
    unchanged. *)
Lemma checkSource_insert_refused_same_hash (source : Source.t) (w : World)
  (status : nat) (html : string) (prior : Snapshot.t) (e : Error) :
  fetch_succeeds env source w status html ->
  store_error env (S (tick w)) = None ->
  store_error env (S (S (tick w))) = Some e ->
  latest_snapshot w (Source.id source) = Some prior ->
  Snapshot.raw_hash prior = sha256_hex html ->
  exists w',
    checkSource JSON_parse env source w =
      (Returns (Entry.mk (Source.name source) "unchanged" None None None), w')
    /\ snapshots w' = snapshots w
    /\ change_events w' = change_events w.
Proof.
  intros [Hnet Hok] Hsel Hins Hlast Hhash.
  set (w0 := log (Fetch (Source.url source) USER_AGENT) w).
  assert (Htick0 : tick w0 = S (tick w)) by apply tick_log.
  destruct (select_latest_accepted (Source.id source) w0)
    as [reply [Hselect Hdata]]; [now rewrite Htick0|].
  change (latest_snapshot w0 (Source.id source))
    with (latest_snapshot w (Source.id source)) in Hdata.
  set (w1 := log (SelectLatestSnapshot (Source.id source)) w0) in *.
  assert (Hrefused : store_error env (tick w1) = Some e).
  { unfold w1. now rewrite tick_log, Htick0. }
  unfold checkSource, try_catch, checkSource_try.
  erewrite bind_returns by (apply fetch_resolves; exact Hnet).
  rewrite Hok; cbn [negb HttpResponse.text HttpResponse.status await].
  rewrite bind_ret.
  erewrite bind_returns by exact Hselect.
  erewrite bind_returns by (apply insert_snapshot_refused; exact Hrefused).
  rewrite Hdata, Hlast. cbn [same_hash].
  rewrite Hhash, String.eqb_refl.
  eexists. repeat split.
Qed.

Lemma js_differs_false (authHeader : option string) (expected : string) :
  js_differs authHeader expected = false <-> authHeader = Some expected.
Proof.
  destruct authHeader as [h|]; simpl.
  - rewrite negb_false_iff, String.eqb_eq.
    split; [now intros -> | now intros [= ->]].
  - split; discriminate.
Qed.

End PipelineFacts.

(** ** Runs on the scenarios *)

Example show_nat_500 : show_nat 500 = "500".
Proof. reflexivity. Qed.

(** The prompt of a first fetch, up to the instructions. *)
Example prompt_of_first_fetch :
  concat nl (prompt_header source_A "" "v1"
             ++ [new_content_excerpt "v1"; ""; previous_section ""])%list
  = "You are analyzing a change to a cosmetics regulatory source.

Source: A
URL: https://regulator.example/a

Your task: Analyze what changed and extract key information.

Previous content length: 0 characters
New content length: 2 characters

NEW CONTENT:
v1

No previous content available (first fetch).".
Proof. vm_compute. reflexivity. Qed.

(** Source A is fetched for the first time and the service answers: one
    success snapshot, one change event filled with the defaults of the
    fields the answer lacks, and a 'changed' entry carrying the summary. *)
Example first_fetch_of_source_A :
  exists w',
    checkSource scenario_JSON_parse
      (scenario store_accepts (page 200 "v1") (service_answers sample_answer))
      source_A (world_with [])
    = (Returns (Entry.mk "A" "changed"
                  (Some (JSString "Labeling rule updated")) None None), w')
    /\ snapshots w' =
       [Snapshot.mk 10 "src-a" "v1"
          "3bfc269594ef649228e9a74bab00f042efc91d5acc6fbee31a382e80d42388fe"
          "success" None (Some 200) 2]
    /\ change_events w' =
       [ChangeEvent.mk 11 "src-a" None 10 (JSString "Labeling rule updated")
          (JSArray []) (JSString "unknown") JSNull true 4].
Proof. eexists. split; [vm_compute; reflexivity|]. split; reflexivity. Qed.

(** The page of source A cannot be reached: one error snapshot, no change
    event, an 'error' entry, and source B is processed all the same. *)
Example unreachable_source_does_not_stop_the_run :
  exists w',
    handler scenario_JSON_parse mixed_run
      (mkCronRequest (Some "Bearer s3cret")) (world_with [])
    = (Returns
         (Response.mk
            (RunReport true "2024-05-01T16:00:00.000Z"
               [ Entry.mk "A" "error" None (Some "fetch failed") None;
                 Entry.mk "B" "changed"
                   (Some (JSString "Labeling rule updated")) None None ])
            200 (Some "application/json")), w')
    /\ map Snapshot.fetch_status (snapshots w') = ["error"; "success"]
    /\ map ChangeEvent.source_id (change_events w') = ["src-b"].
Proof. eexists. split; [vm_compute; reflexivity|]. split; reflexivity. Qed.

(** * The pipeline against its specification *)

(** C8. A request whose authorization header is not 'Bearer ' followed by
    the configured secret is answered 401 'Unauthorized', and nothing is
    done: the store is unchanged and no request is made to the store, the
    network or the analysis service. *)
Theorem unauthorized_request_does_nothing
  (JSON_parse : string -> Error + JSValue) (env : Env) (req : CronRequest)
  (w : World) :
  authorization req <> Some (expected_authorization (CRON_SECRET env)) ->
  handler JSON_parse env req w =
  (Returns (Response.mk (TextBody "Unauthorized") 401 None), w).
Proof.
  intros Hauth. unfold handler.
  destruct (js_differs (authorization req)
              (expected_authorization (CRON_SECRET env))) eqn:Hd.
  - reflexivity.
  - apply js_differs_false in Hd. contradiction.
Qed.

Lemma unauthorized_request_does_nothing_witness :
  handler scenario_JSON_parse
    (scenario store_accepts (page 200 "v2") service_down)
    (mkCronRequest (Some "Bearer guess")) (world_with [snapshot_v1])
  = (Returns (Response.mk (TextBody "Unauthorized") 401 None),
     world_with [snapshot_v1])
  /\ handler scenario_JSON_parse
       (scenario store_accepts (page 200 "v2") service_down)
       (mkCronRequest None) (world_with [snapshot_v1])
     = (Returns (Response.mk (TextBody "Unauthorized") 401 None),
        world_with [snapshot_v1]).
Proof.
  split; apply unauthorized_request_does_nothing; simpl; discriminate.
Defined.

(** C9. The request that [analyzeDiff] sends carries, as new content, the
    first 15000 characters of the new content (all of it when it is
    shorter) and, as previous content, the first 10000 characters of the
    previous content: both excerpts are prefixes.  In the per-source
    pipeline the new content is the fetched page and the previous content
    is the content of the most recent prior snapshot. *)
Theorem analysis_request_content_is_bounded
  (JSON_parse : string -> Error + JSValue) (env : Env) (source : Source.t) :
  Z.of_nat NEW_CONTENT_LIMIT = 15000%Z
  /\ Z.of_nat PREVIOUS_CONTENT_LIMIT = 10000%Z
  /\ (forall (oldHtml newHtml : string) (w : World),
      trace (snd (analyzeDiff JSON_parse env source oldHtml newHtml w)) =
        (trace w ++ [CreateCompletion
                       (chat_request (analysis_prompt source oldHtml newHtml))])%list
      /\ analysis_prompt source oldHtml newHtml =
         concat nl
           (prompt_header source oldHtml newHtml
            ++ [new_content_excerpt newHtml; ""; previous_section oldHtml]
            ++ prompt_footer)%list
      /\ previous_section oldHtml =
         (if js_truthy_string oldHtml
          then "PREVIOUS CONTENT (for comparison):" ++ nl
               ++ previous_content_excerpt oldHtml
          else "No previous content available (first fetch).")
      /\ prefix (new_content_excerpt newHtml) newHtml = true
      /\ length (new_content_excerpt newHtml)
         = Nat.min NEW_CONTENT_LIMIT (length newHtml)
      /\ length (new_content_excerpt newHtml) <= NEW_CONTENT_LIMIT
      /\ prefix (previous_content_excerpt oldHtml) oldHtml = true
      /\ length (previous_content_excerpt oldHtml)
         = Nat.min PREVIOUS_CONTENT_LIMIT (length oldHtml)
      /\ length (previous_content_excerpt oldHtml) <= PREVIOUS_CONTENT_LIMIT)
  /\ (forall (w : World) (status : nat) (html : string),
        store_up env ->
        fetch_succeeds env source w status html ->
        same_hash (latest_snapshot w (Source.id source)) (sha256_hex html)
          = false ->
        analysis_calls (trace (snd (checkSource JSON_parse env source w))) =
        (analysis_calls (trace w)
         ++ [chat_request
               (analysis_prompt source
                  (previous_html (latest_snapshot w (Source.id source)))
                  html)])%list).
Proof.
  split; [vm_compute; reflexivity|]. split; [vm_compute; reflexivity|].
  split.
  - intros oldHtml newHtml w.
    split.
    { destruct (analyzeDiff_returns JSON_parse env source oldHtml newHtml w)
        as [a Ha].
      now rewrite Ha. }
    split; [reflexivity|]. split; [reflexivity|].
    unfold new_content_excerpt, previous_content_excerpt, js_substring0.
    split; [apply substring0_prefix|].
    split; [apply substring0_length|].
    split; [rewrite substring0_length; apply Nat.le_min_l|].
    split; [apply substring0_prefix|].
    split; [apply substring0_length|].
    rewrite substring0_length; apply Nat.le_min_l.
  - intros w status html Hup Hfetch Hchanged.
    pose proof (checkSource_success JSON_parse env source w status html
                  Hup Hfetch) as H.
    cbv zeta in H. rewrite Hchanged in H.
    destruct H as [analysis [_ H]]. rewrite H.
    cbn [snd with_change_event with_snapshot trace log analysis_request].
    unfold analysis_calls. rewrite !flat_map_app. simpl.
    now rewrite !app_nil_r.
Qed.

Lemma analysis_request_content_is_bounded_witness :
  analysis_calls
    (trace (snd (checkSource scenario_JSON_parse
                   (scenario store_accepts (page 200 "v2") service_down)
                   source_A (world_with [snapshot_v1]))))
  = [chat_request (analysis_prompt source_A "v1" "v2")].
Proof.
  apply (proj2 (proj2 (proj2 (analysis_request_content_is_bounded
                                scenario_JSON_parse
                                (scenario store_accepts (page 200 "v2")
                                          service_down)
                                source_A)))
           (world_with [snapshot_v1]) 200 "v2").
  - intros t. reflexivity.
  - split; reflexivity.
  - vm_compute. reflexivity.
Defined.

(** C6. [checkSource] never throws: a failure thrown inside its [try] block
    becomes an entry of status 'error' carrying the message.  A run whose
    caller is authorized and whose listing of the active sources is accepted
    therefore completes with the success report, which holds one entry per
    active source, in the order of the sources; every source is fetched,
    once, in that order. *)
Theorem run_isolates_source_failures
  (JSON_parse : string -> Error + JSValue) (env : Env) :
  (forall (source : Source.t) (w : World),
      exists entry w', checkSource JSON_parse env source w = (Returns entry, w'))
  /\ (forall (source : Source.t) (w w1 : World) (e : Error),
        checkSource_try JSON_parse env source w = (Throws e, w1) ->
        exists w',
          checkSource JSON_parse env source w =
          (Returns (Entry.mk (Source.name source) "error" None
                             (Some (message e)) None), w'))
  /\ (forall (req : CronRequest) (w : World),
        authorization req = Some (expected_authorization (CRON_SECRET env)) ->
        store_error env (tick w) = None ->
        exists results w',
          handler JSON_parse env req w =
            (Returns (Response.mk (RunReport true (clock env (tick w')) results)
                                  200 (Some "application/json")), w')
          /\ each_checked JSON_parse env (active_sources w)
               (log SelectActiveSources w) results w'
          /\ map Entry.source results = map Source.name (active_sources w)
          /\ List.length results = List.length (active_sources w)
          /\ fetched_urls (trace w') =
             (fetched_urls (trace w) ++ map Source.url (active_sources w))%list).
Proof.
  split; [|split].
  - intros source w.
    destruct (always_returns_checkSource JSON_parse env source w) as [entry H].
    destruct (checkSource JSON_parse env source w) as [out w'].
    simpl in H. subst out. now exists entry, w'.
  - intros source w w1 e. apply checkSource_catches.
  - intros req w Hauth Hlist.
    apply js_differs_false in Hauth.
    unfold handler. rewrite Hauth.
    unfold try_catch, bind at 1, select_active_sources. rewrite Hlist.
    cbn [Reply.error Reply.data Reply.accepted].
    destruct (check_each_run JSON_parse env (active_sources w) []
                (log SelectActiveSources w))
      as [results [w' [Hrun [Heach [Hnames Hurls]]]]].
    exists results, w'.
    unfold bind. rewrite Hrun. cbn [app].
    split; [reflexivity|]. split; [exact Heach|]. split; [exact Hnames|]. split.
    + rewrite <- (length_map Entry.source), Hnames. apply length_map.
    + rewrite Hurls. cbn [log trace]. rewrite fetched_urls_app. simpl.
      now rewrite app_nil_r.
Qed.

Lemma run_isolates_source_failures_witness :
  exists results w',
    handler scenario_JSON_parse mixed_run
      (mkCronRequest (Some "Bearer s3cret")) (world_with [])
    = (Returns (Response.mk (RunReport true "2024-05-01T16:00:00.000Z" results)
                            200 (Some "application/json")), w')
    /\ map Entry.source results = ["A"; "B"]
    /\ fetched_urls (trace w') =
       ["https://regulator.example/a"; "https://regulator.example/b"].
Proof.
  destruct (proj2 (proj2 (run_isolates_source_failures scenario_JSON_parse
                            mixed_run))
              (mkCronRequest (Some "Bearer s3cret")) (world_with []))
    as [results [w' [Hrun [_ [Hnames [_ Hurls]]]]]].
  - reflexivity.
  - reflexivity.
  - exists results, w'. repeat split; assumption.
Defined.

(** C5 (the code departs from it).  The store refuses the insert of the new
    snapshot of a source whose page is unchanged: nothing is persisted, yet
    the run reports 'unchanged' and no error.  When the page differs, the
    analysis service is called on the unpersisted snapshot before the run
    ends in an error. *)
Theorem refused_snapshot_insert_goes_unreported :
  (exists w',
     checkSource scenario_JSON_parse
       (scenario (store_refuses_at 2) (page 200 "v1") service_down)
       source_A (world_with [snapshot_v1])
     = (Returns (Entry.mk "A" "unchanged" None None None), w')
     /\ snapshots w' = [snapshot_v1]
     /\ trace w' = [ Fetch "https://regulator.example/a" USER_AGENT;
                     SelectLatestSnapshot "src-a";
                     InsertSnapshot (success_row source_A "v1" 200) ])
  /\ (exists w',
        checkSource scenario_JSON_parse
          (scenario (store_refuses_at 2) (page 200 "v2") service_down)
          source_A (world_with [snapshot_v1])
        = (Returns (Entry.mk "A" "error" None
                      (Some "Cannot read properties of null (reading 'id')")
                      None), w')
        /\ analysis_calls (trace w') =
           [chat_request (analysis_prompt source_A "v1" "v2")]
        /\ change_events w' = []).
Proof.
  split; eexists; (split; [vm_compute; reflexivity|]); split; reflexivity.
Qed.

(** * Further properties of the pipeline *)

Section Paths.

Variable JSON_parse : string -> Error + JSValue.
Variable env : Env.

Lemma saveSnapshot_run (source : Source.t) (msg : option string)
  (code : option nat) (w : World) :
  saveSnapshot env (Source.id source) "" "" "error" msg code w =
  (Returns tt, after_insert_snapshot env (error_row source msg code) w).
Proof.
  unfold saveSnapshot, bind, after_insert_snapshot, error_row.
  destruct (insert_snapshot env _ w) as [[reply|e] w'] eqn:H; [reflexivity|].
  unfold insert_snapshot in H. destruct (store_error env (tick w)); discriminate.
Qed.

Lemma checkSource_catch_run (source : Source.t) (e : Error) (w : World) :
  checkSource_catch env source e w =
  (Returns (error_entry source e),
   after_insert_snapshot env (error_row source (Some (message e)) None) w).
Proof.
  unfold checkSource_catch.
  erewrite bind_returns by apply saveSnapshot_run. reflexivity.
Qed.

Lemma select_latest_returns (sid : string) (w : World) :
  exists reply,
    select_latest_snapshot env sid w =
    (Returns reply, log (SelectLatestSnapshot sid) w).
Proof.
  unfold select_latest_snapshot.
  destruct (store_error env (tick w)); [eexists; reflexivity|].
  destruct (latest_snapshot w sid); eexists; reflexivity.
Qed.

Lemma insert_snapshot_returns (row : NewSnapshot.t) (w : World) :
  exists reply,
    insert_snapshot env row w = (Returns reply, after_insert_snapshot env row w).
Proof.
  unfold after_insert_snapshot, insert_snapshot.
  destruct (store_error env (tick w)); eexists; reflexivity.
Qed.

Lemma insert_change_event_returns (row : NewChangeEvent.t) (w : World) :
  exists reply,
    insert_change_event env row w =
    (Returns reply, after_insert_change_event env row w).
Proof.
  unfold after_insert_change_event, insert_change_event.
  destruct (store_error env (tick w)); eexists; reflexivity.
Qed.

(** Every run of [checkSource] returns an entry along one of the paths. *)
Lemma checkSource_follows_a_path (source : Source.t) (w : World) :
  exists entry w',
    checkSource JSON_parse env source w = (Returns entry, w')
    /\ checkSource_path JSON_parse env source w entry w'.
Proof.
  unfold checkSource, try_catch, checkSource_try.
  destruct (network env (tick w) (Source.url source)) as [e|r] eqn:Hnet.
  - erewrite bind_throws by (apply fetch_rejects; exact Hnet).
    rewrite checkSource_catch_run. eexists _, _. split; [reflexivity|].
    now apply path_unreachable.
  - erewrite bind_returns by (apply fetch_resolves; exact Hnet).
    destruct (HttpResponse.ok r) eqn:Hok; cbn [negb].
    + destruct r as [status [e|html]];
        cbn [HttpResponse.text HttpResponse.status await].
      * erewrite bind_throws by reflexivity.
        rewrite checkSource_catch_run. eexists _, _. split; [reflexivity|].
        now eapply path_unreadable; eauto.
      * rewrite bind_ret.
        destruct (select_latest_returns (Source.id source)
                    (log (Fetch (Source.url source) USER_AGENT) w))
          as [last Hsel].
        erewrite bind_returns by exact Hsel.
        destruct (insert_snapshot_returns (success_row source html status)
                    (selected source w)) as [new Hins].
        erewrite bind_returns by exact Hins.
        destruct (same_hash (Reply.data last) (sha256_hex html)) eqn:Hsame.
        -- eexists _, _. split; [reflexivity|].
           eapply path_unchanged; eauto. now split.
        -- destruct (analyzeDiff_returns JSON_parse env source
                       (previous_html (Reply.data last)) html
                       (after_insert_snapshot env
                          (success_row source html status)
                          (selected source w))) as [analysis Han].
           erewrite bind_returns by exact Han.
           destruct (Reply.data new) as [stored|] eqn:Hnew; cbn [id_of].
           ++ rewrite bind_ret.
              destruct (insert_change_event_returns
                          (change_row source (Reply.data last)
                             (Snapshot.id stored) analysis)
                          (log (analysis_request source
                                  (previous_html (Reply.data last)) html)
                               (after_insert_snapshot env
                                  (success_row source html status)
                                  (selected source w)))) as [reply Hev].
              erewrite bind_returns by exact Hev.
              eexists _, _. split; [reflexivity|].
              eapply path_changed; eauto. now split.
           ++ erewrite bind_throws by reflexivity.
              rewrite checkSource_catch_run.
              eexists _, _. split; [reflexivity|].
              eapply path_unpersisted; eauto. now split.
    + erewrite bind_returns by apply saveSnapshot_run.
      eexists _, _. split; [reflexivity|].
      now apply path_http_error.
Qed.

(** *** What the store requests leave *)

Lemma insert_snapshot_inv (row : NewSnapshot.t) (w w2 : World)
  (reply : Reply.t Snapshot.t) :
  insert_snapshot env row w = (Returns reply, w2) ->
  (store_error env (tick w) = None
   /\ reply = Reply.accepted (stored_snapshot w row)
   /\ w2 = with_snapshot w row)
  \/ (exists e, store_error env (tick w) = Some e
               /\ reply = Reply.refused e
               /\ w2 = log (InsertSnapshot row) w).
Proof.
  unfold insert_snapshot. destruct (store_error env (tick w)) as [e|];
    intros [= <- <-]; [right; exists e | left]; repeat split.
Qed.

Lemma after_insert_snapshot_inv (row : NewSnapshot.t) (w : World) :
  (store_error env (tick w) = None
   /\ after_insert_snapshot env row w = with_snapshot w row)
  \/ (exists e, store_error env (tick w) = Some e
               /\ after_insert_snapshot env row w = log (InsertSnapshot row) w).
Proof.
  unfold after_insert_snapshot, insert_snapshot.
  destruct (store_error env (tick w)) as [e|];
    [right; exists e | left]; split; reflexivity.
Qed.

Lemma after_insert_change_event_inv (row : NewChangeEvent.t) (w : World) :
  (store_error env (tick w) = None
   /\ after_insert_change_event env row w = with_change_event w row)
  \/ (exists e, store_error env (tick w) = Some e
               /\ after_insert_change_event env row w
                  = log (InsertChangeEvent row) w).
Proof.
  unfold after_insert_change_event, insert_change_event.
  destruct (store_error env (tick w)) as [e|];
    [right; exists e | left]; split; reflexivity.
Qed.

Lemma select_latest_inv (sid : string) (w w1 : World)
  (last : Reply.t Snapshot.t) :
  select_latest_snapshot env sid w = (Returns last, w1) ->
  (store_error env (tick w) = None
   /\ Reply.data last = latest_snapshot w sid)
  \/ (exists e, store_error env (tick w) = Some e /\ Reply.data last = None).
Proof.
  unfold select_latest_snapshot.
  destruct (store_error env (tick w)) as [e|].
  - intros [= <- _]. right. now exists e.
  - destruct (latest_snapshot w sid); intros [= <- _]; left; now split.
Qed.

(** *** Growth of the tables *)

Lemma grows_refl (w : World) : grows w w [] [].
Proof. unfold grows. now rewrite !app_nil_r. Qed.

Lemma grows_log (r : Request) (w : World) : grows w (log r w) [] [].
Proof. unfold grows, log; simpl. now rewrite !app_nil_r. Qed.

Lemma grows_trans (w w1 w2 : World) (ss ss' : list Snapshot.t)
  (es es' : list ChangeEvent.t) :
  grows w w1 ss es -> grows w1 w2 ss' es' ->
  grows w w2 (ss ++ ss') (es ++ es').
Proof.
  intros [S1 [N1 E1]] [S2 [N2 E2]]. unfold grows.
  rewrite S2, S1, N2, N1, E2, E1, !app_assoc. repeat split.
Qed.

Lemma grows_with_snapshot (w : World) (row : NewSnapshot.t) :
  grows w (with_snapshot w row) [stored_snapshot w row] [].
Proof. unfold grows, with_snapshot; simpl. now rewrite app_nil_r. Qed.

Lemma grows_with_change_event (w : World) (row : NewChangeEvent.t) :
  grows w (with_change_event w row) [] [stored_change_event w row].
Proof. unfold grows, with_change_event; simpl. now rewrite app_nil_r. Qed.

Lemma grows_after_insert_snapshot (row : NewSnapshot.t) (w : World) :
  exists ss,
    grows w (after_insert_snapshot env row w) ss []
    /\ (ss = [] \/ ss = [stored_snapshot w row]).
Proof.
  destruct (after_insert_snapshot_inv row w) as [[_ ->]|[e [_ ->]]].
  - eexists. split; [apply grows_with_snapshot | now right].
  - eexists. split; [apply grows_log | now left].
Qed.

(** *** The most recent snapshot *)

Lemma latest_of_in (sid : string) (rows : list Snapshot.t) :
  forall (best : option Snapshot.t) (r : Snapshot.t),
    latest_of sid rows best = Some r ->
    (In r rows /\ Snapshot.source_id r = sid) \/ best = Some r.
Proof.
  induction rows as [|x rows IH]; intros best r H; simpl in H.
  - now right.
  - destruct (String.eqb_spec (Snapshot.source_id x) sid) as [Hx|Hx].
    + destruct best as [b|].
      * destruct (Snapshot.fetched_at x <? Snapshot.fetched_at b)%nat.
        -- destruct (IH _ _ H) as [[Hin Hs]|Hb]; [left|now right].
           split; [now right | exact Hs].
        -- destruct (IH _ _ H) as [[Hin Hs]|Hb]; left.
           ++ split; [now right | exact Hs].
           ++ injection Hb as <-. split; [now left | exact Hx].
      * destruct (IH _ _ H) as [[Hin Hs]|Hb]; left.
        -- split; [now right | exact Hs].
        -- injection Hb as <-. split; [now left | exact Hx].
    + destruct (IH _ _ H) as [[Hin Hs]|Hb]; [left|now right].
      split; [now right | exact Hs].
Qed.

Lemma latest_of_max (sid : string) (rows : list Snapshot.t) :
  forall (best : option Snapshot.t) (r : Snapshot.t),
    latest_of sid rows best = Some r ->
    (forall b, best = Some b -> Snapshot.fetched_at b <= Snapshot.fetched_at r)
    /\ (forall x, In x rows -> Snapshot.source_id x = sid ->
                  Snapshot.fetched_at x <= Snapshot.fetched_at r).
Proof.
  induction rows as [|x rows IH]; intros best r H; simpl in H.
  - subst best. split.
    + now intros b [= ->].
    + intros x [].
  - destruct (String.eqb_spec (Snapshot.source_id x) sid) as [Hx|Hx].
    + destruct best as [b|].
      * destruct (Nat.ltb_spec (Snapshot.fetched_at x) (Snapshot.fetched_at b))
          as [Hlt|Hge].
        -- destruct (IH _ _ H) as [Hb Hrows]. split; [exact Hb|].
           intros y [<-|Hy] Hs; [|now apply Hrows].
           specialize (Hb b eq_refl). lia.
        -- destruct (IH _ _ H) as [Hb Hrows]. specialize (Hb x eq_refl). split.
           ++ intros b' [= <-]. lia.
           ++ intros y [<-|Hy] Hs; [exact Hb | now apply Hrows].
      * destruct (IH _ _ H) as [Hb Hrows]. specialize (Hb x eq_refl). split.
        -- discriminate.
        -- intros y [<-|Hy] Hs; [exact Hb | now apply Hrows].
    + destruct (IH _ _ H) as [Hb Hrows]. split; [exact Hb|].
      intros y [<-|Hy] Hs; [contradiction | now apply Hrows].
Qed.

Lemma latest_of_none (sid : string) (rows : list Snapshot.t) :
  forall best : option Snapshot.t,
    latest_of sid rows best = None <->
    best = None /\ forall x, In x rows -> Snapshot.source_id x <> sid.
Proof.
  induction rows as [|x rows IH]; intros best; simpl.
  - split; [intros ->; split; [reflexivity | intros x []] | now intros [-> _]].
  - destruct (String.eqb_spec (Snapshot.source_id x) sid) as [Hx|Hx].
    + split.
      * intros H. exfalso.
        destruct best as [b|];
          [destruct (Snapshot.fetched_at x <? Snapshot.fetched_at b)%nat|];
          apply IH in H; destruct H as [H _]; discriminate.
      * intros [_ H]. exfalso. apply (H x); [now left | exact Hx].
    + rewrite IH. split; intros [Hb H]; (split; [exact Hb|]).
      * intros y [<-|Hy]; [exact Hx | now apply H].
      * intros y Hy. apply H. now right.
Qed.

Lemma latest_snapshot_in (w : World) (sid : string) (r : Snapshot.t) :
  latest_snapshot w sid = Some r ->
  In r (snapshots w) /\ Snapshot.source_id r = sid.
Proof.
  intros H. destruct (latest_of_in _ _ _ _ H) as [Hin|Hb];
    [exact Hin | discriminate].
Qed.

(** *** What a run appends *)

Lemma grows_fetched (source : Source.t) (w : World) :
  grows w (fetched source w) [] [].
Proof. apply grows_log. Qed.

Lemma grows_selected (source : Source.t) (w : World) :
  grows w (selected source w) [] [].
Proof.
  exact (grows_trans _ _ _ _ _ _ _ (grows_fetched source w)
           (grows_log _ (fetched source w))).
Qed.

Lemma grows_failed_fetch (source : Source.t) (w : World)
  (row : NewSnapshot.t) :
  exists ss,
    grows w (after_insert_snapshot env row (fetched source w)) ss []
    /\ List.length ss <= 1.
Proof.
  destruct (grows_after_insert_snapshot row (fetched source w))
    as [ss [G Hss]].
  exists ss. split.
  - exact (grows_trans _ _ _ _ _ _ _ (grows_fetched source w) G).
  - destruct Hss as [->| ->]; simpl; lia.
Qed.

(** Along every path the tables only grow: by at most one snapshot, and by
    a change event only when the new snapshot was stored, in which case the
    event points to it. *)
Lemma checkSource_path_growth (source : Source.t) (w w' : World)
  (entry : Entry.t) :
  checkSource_path JSON_parse env source w entry w' ->
  exists ss es,
    grows w w' ss es
    /\ ((es = [] /\ List.length ss <= 1)
        \/ exists new event status html,
             ss = [new] /\ es = [event]
             /\ Entry.status entry = "changed"
             /\ fetch_succeeds env source w status html
             /\ new = stored_snapshot (selected source w)
                                      (success_row source html status)
             /\ ChangeEvent.snapshot_after_id event = Snapshot.id new
             /\ ChangeEvent.source_id event = Source.id source
             /\ (ChangeEvent.snapshot_before_id event = None
                 \/ exists prior,
                      latest_snapshot w (Source.id source) = Some prior
                      /\ ChangeEvent.snapshot_before_id event
                         = Some (Snapshot.id prior))).
Proof.
  intros Hpath. inversion Hpath; subst; clear Hpath.
  - destruct (grows_failed_fetch source w
                (error_row source (Some (message e)) None)) as [ss [G L]].
    exists ss, []. split; [exact G | left; now split].
  - destruct (grows_failed_fetch source w
                (error_row source
                   (Some ("HTTP " ++ show_nat (HttpResponse.status r)))
                   (Some (HttpResponse.status r)))) as [ss [G L]].
    exists ss, []. split; [exact G | left; now split].
  - destruct (grows_failed_fetch source w
                (error_row source (Some (message e)) None)) as [ss [G L]].
    exists ss, []. split; [exact G | left; now split].
  - match goal with
    | H : insert_snapshot _ _ _ = _ |- _ =>
        destruct (insert_snapshot_inv _ _ _ _ H)
          as [[_ [_ ->]]|[e [_ [_ ->]]]]
    end.
    + eexists _, []. split.
      * exact (grows_trans _ _ _ _ _ _ _ (grows_selected source w)
                 (grows_with_snapshot _ _)).
      * left. split; [reflexivity | simpl; lia].
    + eexists [], []. split.
      * exact (grows_trans _ _ _ _ _ _ _ (grows_selected source w)
                 (grows_log _ _)).
      * left. split; [reflexivity | simpl; lia].
  - match goal with
    | H : insert_snapshot _ _ _ = _ |- _ =>
        destruct (insert_snapshot_inv _ _ _ _ H)
          as [[_ [-> ->]]|[e [_ [-> _]]]]
    end; [|discriminate].
    match goal with
    | H : Reply.data (Reply.accepted _) = Some _ |- _ =>
        injection H as <-
    end.
    set (w3 := log _ (with_snapshot _ _)).
    assert (G3 : grows w w3 [stored_snapshot (selected source w)
                               (success_row source html status)] []).
    { exact (grows_trans _ _ _ _ _ _ _
               (grows_trans _ _ _ _ _ _ _ (grows_selected source w)
                  (grows_with_snapshot _ _))
               (grows_log _ _)). }
    destruct (after_insert_change_event_inv
                (change_row source (Reply.data last)
                   (Snapshot.id (stored_snapshot (selected source w)
                                   (success_row source html status)))
                   analysis) w3) as [[_ ->]|[e [_ ->]]].
    + eexists _, _. split.
      * exact (grows_trans _ _ _ _ _ _ _ G3 (grows_with_change_event _ _)).
      * right. eexists _, _, status, html.
        repeat (split; [reflexivity|]).
        split; [assumption|]. repeat (split; [reflexivity|]).
        match goal with
        | H : select_latest_snapshot _ _ _ = _ |- _ =>
            destruct (select_latest_inv _ _ _ _ H)
              as [[_ Hdata]|[e [_ Hdata]]]
        end; cbn [stored_change_event change_row
                  ChangeEvent.snapshot_before_id
                  NewChangeEvent.snapshot_before_id]; rewrite Hdata.
        -- change (latest_snapshot (fetched source w) (Source.id source))
             with (latest_snapshot w (Source.id source)).
           destruct (latest_snapshot w (Source.id source)) as [prior|];
             [right; now exists prior | now left].
        -- now left.
    + eexists _, _. split.
      * exact (grows_trans _ _ _ _ _ _ _ G3 (grows_log _ _)).
      * left. split; [reflexivity | simpl; lia].
  - match goal with
    | H : insert_snapshot _ _ _ = _ |- _ =>
        destruct (insert_snapshot_inv _ _ _ _ H)
          as [[_ [-> _]]|[e [_ [_ ->]]]]
    end; [discriminate|].
    set (w3 := log _ (log _ (selected source w))).
    assert (G3 : grows w w3 [] []).
    { exact (grows_trans _ _ _ _ _ _ _
               (grows_trans _ _ _ _ _ _ _ (grows_selected source w)
                  (grows_log _ _))
               (grows_log _ _)). }
    destruct (grows_after_insert_snapshot
                (error_row source (Some (message null_id)) None) w3)
      as [ss [G Hss]].
    exists ss, []. split.
    + exact (grows_trans _ _ _ _ _ _ _ G3 G).
    + left. split; [reflexivity|]. destruct Hss as [->| ->]; simpl; lia.
Qed.

(** *** The requests of a run *)

Lemma trace_after_insert_snapshot (row : NewSnapshot.t) (w : World) :
  trace (after_insert_snapshot env row w) = (trace w ++ [InsertSnapshot row])%list.
Proof.
  destruct (after_insert_snapshot_inv row w) as [[_ ->]|[e [_ ->]]]; reflexivity.
Qed.

Lemma trace_after_insert_change_event (row : NewChangeEvent.t) (w : World) :
  trace (after_insert_change_event env row w)
  = (trace w ++ [InsertChangeEvent row])%list.
Proof.
  destruct (after_insert_change_event_inv row w) as [[_ ->]|[e [_ ->]]];
    reflexivity.
Qed.

Lemma trace_insert_snapshot (row : NewSnapshot.t) (w w2 : World)
  (reply : Reply.t Snapshot.t) :
  insert_snapshot env row w = (Returns reply, w2) ->
  trace w2 = (trace w ++ [InsertSnapshot row])%list.
Proof.
  intros H.
  destruct (insert_snapshot_inv _ _ _ _ H) as [[_ [_ ->]]|[e [_ [_ ->]]]];
    reflexivity.
Qed.

(** The requests a run makes, in order, along each path. *)
Lemma checkSource_path_trace (source : Source.t) (w w' : World)
  (entry : Entry.t) :
  checkSource_path JSON_parse env source w entry w' ->
  (exists row,
      Entry.status entry = "error"
      /\ (forall status html, ~ fetch_succeeds env source w status html)
      /\ trace w' = (trace w ++ [Fetch (Source.url source) USER_AGENT;
                                 InsertSnapshot row])%list)
  \/ (exists status html,
        Entry.status entry = "unchanged"
        /\ fetch_succeeds env source w status html
        /\ trace w' =
           (trace w ++ [Fetch (Source.url source) USER_AGENT;
                        SelectLatestSnapshot (Source.id source);
                        InsertSnapshot (success_row source html status)])%list)
  \/ (exists status html oldHtml row,
        Entry.status entry = "changed"
        /\ fetch_succeeds env source w status html
        /\ trace w' =
           (trace w ++ [Fetch (Source.url source) USER_AGENT;
                        SelectLatestSnapshot (Source.id source);
                        InsertSnapshot (success_row source html status);
                        analysis_request source oldHtml html;
                        InsertChangeEvent row])%list)
  \/ (exists status html oldHtml row,
        Entry.status entry = "error"
        /\ fetch_succeeds env source w status html
        /\ trace w' =
           (trace w ++ [Fetch (Source.url source) USER_AGENT;
                        SelectLatestSnapshot (Source.id source);
                        InsertSnapshot (success_row source html status);
                        analysis_request source oldHtml html;
                        InsertSnapshot row])%list).
Proof.
  intros Hpath. inversion Hpath; subst; clear Hpath.
  - left. eexists. split; [reflexivity|]. split.
    + intros status html [Hnet _]. congruence.
    + rewrite trace_after_insert_snapshot. cbn [fetched log trace].
      now rewrite <- app_assoc.
  - left. eexists. split; [reflexivity|]. split.
    + intros status html [Hnet Hok]. congruence.
    + rewrite trace_after_insert_snapshot. cbn [fetched log trace].
      now rewrite <- app_assoc.
  - left. eexists. split; [reflexivity|]. split.
    + intros status html [Hnet _].
      match goal with
      | H1 : network _ _ _ = FetchResolves r, H2 : HttpResponse.text r = inl _
        |- _ => rewrite H1 in Hnet; injection Hnet as ->; discriminate H2
      end.
    + rewrite trace_after_insert_snapshot. cbn [fetched log trace].
      now rewrite <- app_assoc.
  - right; left. exists status, html. split; [reflexivity|].
    split; [assumption|].
    match goal with
    | H : insert_snapshot _ _ _ = _ |- _ =>
        rewrite (trace_insert_snapshot _ _ _ _ H)
    end.
    cbn [selected fetched log trace]. now rewrite <- !app_assoc.
  - right; right; left. exists status, html. eexists _, _.
    split; [reflexivity|]. split; [assumption|].
    rewrite trace_after_insert_change_event. cbn [log trace].
    match goal with
    | H : insert_snapshot _ _ _ = _ |- _ =>
        rewrite (trace_insert_snapshot _ _ _ _ H)
    end.
    cbn [selected fetched log trace]. now rewrite <- !app_assoc.
  - right; right; right. exists status, html. eexists _, _.
    split; [reflexivity|]. split; [assumption|].
    rewrite trace_after_insert_snapshot. cbn [log trace].
    match goal with
    | H : insert_snapshot _ _ _ = _ |- _ =>
        rewrite (trace_insert_snapshot _ _ _ _ H)
    end.
    cbn [selected fetched log trace]. now rewrite <- !app_assoc.
Qed.

Lemma analysis_calls_app (t1 t2 : list Request) :
  analysis_calls (t1 ++ t2) = (analysis_calls t1 ++ analysis_calls t2)%list.
Proof. apply flat_map_app. Qed.

End Paths.

(** X1. Whatever the store, the network and the analysis service answer, a
    run of the per-source pipeline only appends to the tables: at most one
    snapshot and at most one change event; the rows present and the sources
    are left as they are. *)
Theorem checkSource_only_appends
  (JSON_parse : string -> Error + JSValue) (env : Env) (source : Source.t)
  (w : World) :
  exists entry w' ss es,
    checkSource JSON_parse env source w = (Returns entry, w')
    /\ sources w' = sources w
    /\ snapshots w' = (snapshots w ++ ss)%list
    /\ change_events w' = (change_events w ++ es)%list
    /\ List.length ss <= 1
    /\ List.length es <= 1.
Proof.
  destruct (checkSource_follows_a_path JSON_parse env source w)
    as [entry [w' [Hrun Hpath]]].
  destruct (checkSource_path_growth JSON_parse env source w w' entry Hpath)
    as [ss [es [[Hs [Hn He]] Hcases]]].
  exists entry, w', ss, es. repeat (split; [assumption|]).
  destruct Hcases as [[-> L]|[new [event [status [html [-> [-> _]]]]]]];
    simpl; split; lia.
Qed.

(** X2. A change event is never recorded for a snapshot that was not
    stored: whenever a run appends a change event, it has also appended the
    success snapshot of the fetched page, of the same source, and the event
    has this snapshot as its "after" snapshot; its "before" snapshot, when
    it has one, is the most recent snapshot the source had. *)
Theorem change_event_points_to_stored_snapshot
  (JSON_parse : string -> Error + JSValue) (env : Env) (source : Source.t)
  (w : World) :
  exists entry w',
    checkSource JSON_parse env source w = (Returns entry, w')
    /\ (change_events w' = change_events w
        \/ exists new event status html,
             fetch_succeeds env source w status html
             /\ Entry.status entry = "changed"
             /\ snapshots w' = (snapshots w ++ [new])%list
             /\ change_events w' = (change_events w ++ [event])%list
             /\ ChangeEvent.snapshot_after_id event = Snapshot.id new
             /\ ChangeEvent.source_id event = Source.id source
             /\ Snapshot.source_id new = Source.id source
             /\ Snapshot.fetch_status new = "success"
             /\ Snapshot.raw_html new = html
             /\ Snapshot.raw_hash new = sha256_hex html
             /\ (ChangeEvent.snapshot_before_id event = None
                 \/ exists prior,
                      In prior (snapshots w)
                      /\ Snapshot.source_id prior = Source.id source
                      /\ ChangeEvent.snapshot_before_id event
                         = Some (Snapshot.id prior))).
Proof.
  destruct (checkSource_follows_a_path JSON_parse env source w)
    as [entry [w' [Hrun Hpath]]].
  destruct (checkSource_path_growth JSON_parse env source w w' entry Hpath)
    as [ss [es [[Hs [Hn He]] Hcases]]].
  exists entry, w'. split; [exact Hrun|].
  destruct Hcases
    as [[-> L]
       |[new [event [status [html
           [-> [-> [Hst [Hfetch [Hnew [Hafter [Hsid Hbefore]]]]]]]]]]]].
  - left. now rewrite He, app_nil_r.
  - right. exists new, event, status, html.
    repeat (split; [assumption|]).
    subst new. repeat (split; [reflexivity|]).
    destruct Hbefore as [Hb|[prior [Hlast Hb]]]; [now left|right].
    exists prior. destruct (latest_snapshot_in _ _ _ Hlast) as [Hin Hp].
    now repeat split.
Qed.

(** X3. The analysis service is called at most once in a run, and only
    after the page was fetched successfully.  It is not called on a run that
    ends 'unchanged', and every 'changed' entry comes with exactly one
    call. *)
Theorem analysis_is_requested_at_most_once
  (JSON_parse : string -> Error + JSValue) (env : Env) (source : Source.t)
  (w : World) :
  exists entry w' calls,
    checkSource JSON_parse env source w = (Returns entry, w')
    /\ analysis_calls (trace w') = (analysis_calls (trace w) ++ calls)%list
    /\ List.length calls <= 1
    /\ (Entry.status entry = "unchanged" -> calls = [])
    /\ (Entry.status entry = "changed" -> List.length calls = 1)
    /\ ((forall status html, ~ fetch_succeeds env source w status html) ->
        calls = []).
Proof.
  destruct (checkSource_follows_a_path JSON_parse env source w)
    as [entry [w' [Hrun Hpath]]].
  exists entry, w'.
  destruct (checkSource_path_trace JSON_parse env source w w' entry Hpath)
    as [[row [Hst [Hno Ht]]]
       |[[status [html [Hst [Hfetch Ht]]]]
        |[[status [html [oldHtml [row [Hst [Hfetch Ht]]]]]]
         |[status [html [oldHtml [row [Hst [Hfetch Ht]]]]]]]]].
  - exists []. split; [exact Hrun|]. rewrite Ht, analysis_calls_app, Hst.
    repeat split; try reflexivity; try discriminate. simpl; lia.
  - exists []. split; [exact Hrun|]. rewrite Ht, analysis_calls_app, Hst.
    repeat split; try reflexivity; try discriminate. simpl; lia.
  - eexists [_]. split; [exact Hrun|]. rewrite Ht, analysis_calls_app, Hst.
    split; [reflexivity|]. split; [simpl; lia|].
    split; [discriminate|]. split; [reflexivity|].
    intros Hno. elim (Hno _ _ Hfetch).
  - eexists [_]. split; [exact Hrun|]. rewrite Ht, analysis_calls_app, Hst.
    split; [reflexivity|]. split; [simpl; lia|].
    split; [discriminate|]. split; [discriminate|].
    intros Hno. elim (Hno _ _ Hfetch).
Qed.

(** ** Runs against a store that refuses a request *)

Section Refusals.

Variable JSON_parse : string -> Error + JSValue.
Variable env : Env.

Lemma tick_fetched (source : Source.t) (w : World) :
  tick (fetched source w) = S (tick w).
Proof. apply tick_log. Qed.

Lemma tick_selected (source : Source.t) (w : World) :
  tick (selected source w) = S (S (tick w)).
Proof. unfold selected. now rewrite tick_log, tick_fetched. Qed.

Lemma tick_after_insert_snapshot (row : NewSnapshot.t) (w : World) :
  tick (after_insert_snapshot env row w) = S (tick w).
Proof.
  unfold tick. rewrite trace_after_insert_snapshot, length_app. simpl. lia.
Qed.

(** The run of [checkSource] once the page is fetched, whatever the store
    answers. *)
Lemma checkSource_on_page (source : Source.t) (w : World) (status : nat)
  (html : string) :
  fetch_succeeds env source w status html ->
  let last := looked_up env source w in
  let w2 := after_insert_snapshot env (success_row source html status)
              (selected source w) in
  let w3 := log (analysis_request source (previous_html last) html) w2 in
  exists analysis,
    analyzeDiff JSON_parse env source (previous_html last) html w2
      = (Returns analysis, w3)
    /\ checkSource JSON_parse env source w =
       if same_hash last (sha256_hex html) then
         (Returns (Entry.mk (Source.name source) "unchanged" None None None),
          w2)
       else
         match persisted env source w status html with
         | Some stored =>
             (Returns (Entry.mk (Source.name source) "changed"
                         (Some (Analysis.summary analysis)) None None),
              after_insert_change_event env
                (change_row source last (Snapshot.id stored) analysis) w3)
         | None =>
             (Returns (error_entry source null_id),
              after_insert_snapshot env
                (error_row source (Some (message null_id)) None) w3)
         end.
Proof.
  intros [Hnet Hok]; cbv zeta.
  destruct (analyzeDiff_returns JSON_parse env source
              (previous_html (looked_up env source w)) html
              (after_insert_snapshot env (success_row source html status)
                 (selected source w))) as [analysis Han].
  exists analysis. split; [exact Han|].
  unfold checkSource, try_catch, checkSource_try.
  erewrite bind_returns by (apply fetch_resolves; exact Hnet).
  rewrite Hok; cbn [negb HttpResponse.text HttpResponse.status await].
  rewrite bind_ret.
  destruct (select_latest_returns env (Source.id source)
              (log (Fetch (Source.url source) USER_AGENT) w)) as [last Hsel].
  assert (Hlast : Reply.data last = looked_up env source w).
  { unfold looked_up.
    destruct (select_latest_inv env _ _ _ _ Hsel) as [[He ->]|[e [He ->]]];
      rewrite tick_log in He; now rewrite He. }
  erewrite bind_returns by exact Hsel.
  destruct (insert_snapshot_returns env (success_row source html status)
              (selected source w)) as [new Hins].
  assert (Hnew : Reply.data new = persisted env source w status html).
  { unfold persisted.
    destruct (insert_snapshot_inv env _ _ _ _ Hins)
      as [[He [-> _]]|[e [He [-> _]]]];
      rewrite tick_selected in He; now rewrite He. }
  erewrite bind_returns by exact Hins.
  rewrite Hlast.
  destruct (same_hash (looked_up env source w) (sha256_hex html));
    [reflexivity|].
  erewrite bind_returns by exact Han.
  rewrite Hnew.
  destruct (persisted env source w status html) as [stored|]; cbn [id_of].
  - rewrite bind_ret.
    destruct (insert_change_event_returns env
                (change_row source (looked_up env source w)
                   (Snapshot.id stored) analysis)
                (log (analysis_request source
                        (previous_html (looked_up env source w)) html)
                     (after_insert_snapshot env
                        (success_row source html status)
                        (selected source w)))) as [reply Hev].
    erewrite bind_returns by exact Hev. reflexivity.
  - erewrite bind_throws by reflexivity.
    apply checkSource_catch_run.
Qed.

End Refusals.

(** X4. When the store refuses the lookup of the most recent snapshot and
    accepts the other requests, the run goes on as for a source never seen:
    whatever snapshots the source has, a fetched page is reported 'changed',
    analysed with no previous content, and recorded in a change event that has
    no "before" snapshot. *)
Theorem refused_lookup_is_a_first_observation
  (JSON_parse : string -> Error + JSValue) (env : Env) (source : Source.t)
  (w : World) (status : nat) (html : string) :
  fetch_succeeds env source w status html ->
  store_refuses_only env (S (tick w)) ->
  exists entry w' new event,
    checkSource JSON_parse env source w = (Returns entry, w')
    /\ Entry.status entry = "changed"
    /\ snapshots w' = (snapshots w ++ [new])%list
    /\ change_events w' = (change_events w ++ [event])%list
    /\ ChangeEvent.snapshot_before_id event = None
    /\ ChangeEvent.snapshot_after_id event = Snapshot.id new
    /\ analysis_calls (trace w') =
       (analysis_calls (trace w)
        ++ [chat_request (analysis_prompt source "" html)])%list.
Proof.
  intros Hfetch [Hrefused Hothers].
  destruct (checkSource_on_page JSON_parse env source w status html Hfetch)
    as [analysis [_ Hrun]].
  cbv zeta in Hrun. unfold looked_up, persisted in Hrun.
  destruct (store_error env (S (tick w))) as [e|]; [|now elim Hrefused].
  rewrite (Hothers (S (S (tick w)))) in Hrun by lia.
  cbn [same_hash previous_html] in Hrun.
  set (w2 := after_insert_snapshot env (success_row source html status)
               (selected source w)) in *.
  assert (Hw2 : w2 = with_snapshot (selected source w)
                       (success_row source html status)).
  { unfold w2.
    destruct (after_insert_snapshot_inv env (success_row source html status)
                (selected source w)) as [[_ H]|[e' [H _]]]; [exact H|].
    rewrite tick_selected, Hothers in H by lia. discriminate. }
  set (w3 := log (analysis_request source "" html) w2) in *.
  set (row := change_row source None _ analysis) in *.
  assert (Hw' : after_insert_change_event env row w3 = with_change_event w3 row).
  { destruct (after_insert_change_event_inv env row w3)
      as [[_ H]|[e' [H _]]]; [exact H|].
    unfold w3 in H. rewrite tick_log in H. unfold w2 in H.
    rewrite tick_after_insert_snapshot, tick_selected, Hothers in H by lia.
    discriminate. }
  rewrite Hw' in Hrun.
  eexists _, _, _, _. split; [exact Hrun|].
  split; [reflexivity|].
  unfold w3. rewrite Hw2.
  split; [reflexivity|]. split; [reflexivity|].
  split; [reflexivity|]. split; [reflexivity|].
  cbn [with_change_event with_snapshot selected fetched log trace
       analysis_request].
  unfold analysis_calls. rewrite !flat_map_app. simpl.
  now rewrite !app_nil_r.
Qed.

Lemma refused_lookup_is_a_first_observation_witness :
  exists entry w' event,
    checkSource scenario_JSON_parse
      (scenario (store_refuses_at 1) (page 200 "v1")
                (service_answers sample_answer))
      source_A (world_with [snapshot_v1]) = (Returns entry, w')
    /\ Entry.status entry = "changed"
    /\ change_events w' = [event]
    /\ ChangeEvent.snapshot_before_id event = None.
Proof.
  destruct (refused_lookup_is_a_first_observation scenario_JSON_parse
              (scenario (store_refuses_at 1) (page 200 "v1")
                        (service_answers sample_answer))
              source_A (world_with [snapshot_v1]) 200 "v1")
    as [entry [w' [new [event [Hrun [Hst [_ [Hev [Hbefore _]]]]]]]]].
  - split; reflexivity.
  - split; [discriminate|].
    intros t' Ht. simpl. unfold store_refuses_at.
    destruct (Nat.eqb_spec t' 1) as [->|_]; [now elim Ht | reflexivity].
  - exists entry, w', event. repeat split; assumption.
Defined.

(** X5. When the store refuses the insert of the change event and accepts
    the other requests, the refusal goes unnoticed: the entry of a changed
    page is 'changed' and carries the summary of the analysis, the new
    snapshot is stored, and no change event is recorded. *)
Theorem refused_change_event_is_still_reported_changed
  (JSON_parse : string -> Error + JSValue) (env : Env) (source : Source.t)
  (w : World) (status : nat) (html : string) :
  fetch_succeeds env source w status html ->
  same_hash (latest_snapshot w (Source.id source)) (sha256_hex html) = false ->
  store_refuses_only env (4 + tick w) ->
  exists w' analysis new,
    checkSource JSON_parse env source w =
      (Returns (Entry.mk (Source.name source) "changed"
                  (Some (Analysis.summary analysis)) None None), w')
    /\ snapshots w' = (snapshots w ++ [new])%list
    /\ Snapshot.fetch_status new = "success"
    /\ change_events w' = change_events w.
Proof.
  intros Hfetch Hchanged [Hrefused Hothers].
  destruct (checkSource_on_page JSON_parse env source w status html Hfetch)
    as [analysis [_ Hrun]].
  cbv zeta in Hrun. unfold looked_up, persisted in Hrun.
  rewrite (Hothers (S (tick w))), (Hothers (S (S (tick w)))) in Hrun by lia.
  rewrite Hchanged in Hrun.
  set (w2 := after_insert_snapshot env (success_row source html status)
               (selected source w)) in *.
  assert (Hw2 : w2 = with_snapshot (selected source w)
                       (success_row source html status)).
  { unfold w2.
    destruct (after_insert_snapshot_inv env (success_row source html status)
                (selected source w)) as [[_ H]|[e' [H _]]]; [exact H|].
    rewrite tick_selected, Hothers in H by lia. discriminate. }
  set (w3 := log _ w2) in *.
  set (row := change_row source _ _ analysis) in *.
  assert (Hw' : after_insert_change_event env row w3
                = log (InsertChangeEvent row) w3).
  { destruct (after_insert_change_event_inv env row w3)
      as [[H _]|[e' [_ H]]]; [|exact H].
    unfold w3 in H. rewrite tick_log in H. unfold w2 in H.
    rewrite tick_after_insert_snapshot, tick_selected in H.
    now elim Hrefused. }
  rewrite Hw' in Hrun.
  eexists _, analysis, _. split; [exact Hrun|].
  unfold w3. rewrite Hw2. repeat split.
Qed.

Lemma refused_change_event_is_still_reported_changed_witness :
  exists w' analysis,
    checkSource scenario_JSON_parse
      (scenario (store_refuses_at 4) (page 200 "v2")
                (service_answers sample_answer))
      source_A (world_with [snapshot_v1])
    = (Returns (Entry.mk "A" "changed" (Some (Analysis.summary analysis))
                         None None), w')
    /\ change_events w' = [].
Proof.
  destruct (refused_change_event_is_still_reported_changed scenario_JSON_parse
              (scenario (store_refuses_at 4) (page 200 "v2")
                        (service_answers sample_answer))
              source_A (world_with [snapshot_v1]) 200 "v2")
    as [w' [analysis [new [Hrun [_ [_ Hev]]]]]].
  - split; reflexivity.
  - vm_compute. reflexivity.
  - split; [discriminate|].
    intros t' Ht. simpl. unfold store_refuses_at.
    destruct (Nat.eqb_spec t' 4) as [->|_]; [now elim Ht | reflexivity].
  - exists w', analysis. split; assumption.
Defined.

(** X6. When the store refuses the insert of the new snapshot and accepts
    the other requests: a page whose fingerprint equals the one of the most
    recent snapshot is reported 'unchanged' and nothing is written; any
    other page is analysed, after which reading the identifier of the
    missing row throws, so that the entry is 'error' with the message of
    that failure, an error snapshot carrying the same message is stored, and
    no change event is recorded. *)
Theorem refused_snapshot_insert
  (JSON_parse : string -> Error + JSValue) (env : Env) (source : Source.t)
  (w : World) (status : nat) (html : string) :
  fetch_succeeds env source w status html ->
  store_refuses_only env (2 + tick w) ->
  let last := latest_snapshot w (Source.id source) in
  exists w',
    if same_hash last (sha256_hex html) then
      checkSource JSON_parse env source w =
        (Returns (Entry.mk (Source.name source) "unchanged" None None None), w')
      /\ snapshots w' = snapshots w
      /\ change_events w' = change_events w
    else
      exists failed,
        checkSource JSON_parse env source w =
          (Returns (Entry.mk (Source.name source) "error" None
                      (Some "Cannot read properties of null (reading 'id')")
                      None), w')
        /\ snapshots w' = (snapshots w ++ [failed])%list
        /\ Snapshot.fetch_status failed = "error"
        /\ Snapshot.error_message failed
           = Some "Cannot read properties of null (reading 'id')"
        /\ Snapshot.raw_html failed = ""
        /\ change_events w' = change_events w
        /\ analysis_calls (trace w') =
           (analysis_calls (trace w)
            ++ [chat_request
                  (analysis_prompt source (previous_html last) html)])%list.
Proof.
  intros Hfetch [Hrefused Hothers]; cbv zeta.
  destruct (checkSource_on_page JSON_parse env source w status html Hfetch)
    as [analysis [_ Hrun]].
  cbv zeta in Hrun. unfold looked_up, persisted in Hrun.
  rewrite (Hothers (S (tick w))) in Hrun by lia.
  destruct (store_error env (S (S (tick w)))) as [e|] eqn:He;
    [|now elim Hrefused].
  set (w2 := after_insert_snapshot env (success_row source html status)
               (selected source w)) in *.
  assert (Hw2 : w2 = log (InsertSnapshot (success_row source html status))
                         (selected source w)).
  { unfold w2.
    destruct (after_insert_snapshot_inv env (success_row source html status)
                (selected source w)) as [[H _]|[e' [_ H]]]; [|exact H].
    rewrite tick_selected, He in H. discriminate. }
  destruct (same_hash (latest_snapshot w (Source.id source)) (sha256_hex html)).
  - eexists. split; [exact Hrun|]. rewrite Hw2. split; reflexivity.
  - set (w3 := log _ w2) in *.
    set (row := error_row source (Some (message null_id)) None) in *.
    assert (Hw' : after_insert_snapshot env row w3 = with_snapshot w3 row).
    { destruct (after_insert_snapshot_inv env row w3)
        as [[_ H]|[e' [H _]]]; [exact H|].
      unfold w3 in H. rewrite tick_log in H. unfold w2 in H.
      rewrite tick_after_insert_snapshot, tick_selected, Hothers in H by lia.
      discriminate. }
    rewrite Hw' in Hrun.
    eexists _, _. split; [exact Hrun|].
    unfold w3. rewrite Hw2.
    repeat (split; [reflexivity|]).
    cbn [with_snapshot selected fetched log trace analysis_request].
    unfold analysis_calls. rewrite !flat_map_app. simpl.
    now rewrite !app_nil_r.
Qed.

Lemma refused_snapshot_insert_witness :
  exists w',
    checkSource scenario_JSON_parse
      (scenario (store_refuses_at 2) (page 200 "v1") service_down)
      source_A (world_with [snapshot_v1])
    = (Returns (Entry.mk "A" "unchanged" None None None), w')
    /\ snapshots w' = [snapshot_v1].
Proof.
  destruct (refused_snapshot_insert scenario_JSON_parse
              (scenario (store_refuses_at 2) (page 200 "v1") service_down)
              source_A (world_with [snapshot_v1]) 200 "v1")
    as [w' H].
  - split; reflexivity.
  - split; [discriminate|].
    intros t' Ht. simpl. unfold store_refuses_at.
    destruct (Nat.eqb_spec t' 2) as [->|_]; [now elim Ht | reflexivity].
  - exists w'.
    change (same_hash (latest_snapshot (world_with [snapshot_v1])
                         (Source.id source_A)) (sha256_hex "v1"))
      with true in H.
    destruct H as [Hrun [Hrows _]]. split; assumption.
Defined.

(** X7. When the page cannot be had, because the fetch rejects or because
    the body of the response cannot be read, and the store accepts the write:
    the run makes two requests only, the fetch and the insert of an error
    snapshot; the snapshot carries the message of the failure, an empty
    content, an empty fingerprint and no HTTP status; the entry is 'error'
    with the message; nothing is looked up, analysed or recorded as a
    change. *)
Theorem transport_failure_is_recorded
  (JSON_parse : string -> Error + JSValue) (env : Env) (source : Source.t)
  (w : World) (e : Error) :
  transport_fails env source w e ->
  store_error env (S (tick w)) = None ->
  exists w' new,
    checkSource JSON_parse env source w =
      (Returns (Entry.mk (Source.name source) "error" None
                  (Some (message e)) None), w')
    /\ snapshots w' = (snapshots w ++ [new])%list
    /\ Snapshot.source_id new = Source.id source
    /\ Snapshot.fetch_status new = "error"
    /\ Snapshot.error_message new = Some (message e)
    /\ Snapshot.http_status new = None
    /\ Snapshot.raw_html new = ""
    /\ Snapshot.raw_hash new = ""
    /\ change_events w' = change_events w
    /\ trace w' =
       (trace w ++ [Fetch (Source.url source) USER_AGENT;
                    InsertSnapshot
                      (error_row source (Some (message e)) None)])%list.
Proof.
  intros [Hnet|[r [Hnet [Hok Htext]]]] Hstore.
  - eexists _, _. split.
    + apply checkSource_fetch_rejected; [exact Hnet | exact Hstore].
    + repeat (split; [reflexivity|]).
      cbn [with_snapshot log trace]. now rewrite <- app_assoc.
  - eexists _, _. split.
    + eapply checkSource_body_rejected; eassumption.
    + repeat (split; [reflexivity|]).
      cbn [with_snapshot log trace]. now rewrite <- app_assoc.
Qed.

Lemma transport_failure_is_recorded_witness :
  exists w' new,
    checkSource scenario_JSON_parse
      (scenario store_accepts
         (FetchResolves (HttpResponse.mk 200 (inl (mkError "terminated"))))
         (service_answers sample_answer))
      source_B (world_with [snapshot_v1])
    = (Returns (Entry.mk "B" "error" None (Some "terminated") None), w')
    /\ snapshots w' = [snapshot_v1; new]
    /\ Snapshot.http_status new = None
    /\ change_events w' = [].
Proof.
  destruct (transport_failure_is_recorded scenario_JSON_parse
              (scenario store_accepts
                 (FetchResolves
                    (HttpResponse.mk 200 (inl (mkError "terminated"))))
                 (service_answers sample_answer))
              source_B (world_with [snapshot_v1]) (mkError "terminated"))
    as [w' [new [Hrun [Hrows [_ [_ [_ [Hcode [_ [_ [Hev _]]]]]]]]]]].
  - right. eexists. repeat split.
  - reflexivity.
  - exists w', new. repeat split; assumption.
Defined.

(** ** The most recent snapshot and consecutive runs *)

(** X8. The lookup that [checkSource] makes before it compares
    fingerprints always returns, and touches no table.  When it gives a
    snapshot, the store has accepted the request, the snapshot is a row of
    the source, and no snapshot of the source was fetched later.  It gives
    none exactly when the store refuses the request or the source has no
    snapshot at all: a refused lookup and a source never seen look the
    same to the caller, which reads only the data of the reply. *)
Theorem lookup_gives_most_recent_snapshot_of_source
  (env : Env) (source : Source.t) (w : World) :
  exists reply,
    select_latest_snapshot env (Source.id source) (fetched source w)
      = (Returns reply, selected source w)
    /\ Reply.data reply = looked_up env source w
    /\ snapshots (selected source w) = snapshots w
    /\ change_events (selected source w) = change_events w
    /\ match Reply.data reply with
       | Some r =>
           store_error env (S (tick w)) = None
           /\ In r (snapshots w)
           /\ Snapshot.source_id r = Source.id source
           /\ forall x, In x (snapshots w) ->
                        Snapshot.source_id x = Source.id source ->
                        Snapshot.fetched_at x <= Snapshot.fetched_at r
       | None =>
           store_error env (S (tick w)) <> None
           \/ forall x, In x (snapshots w) ->
                        Snapshot.source_id x <> Source.id source
       end
    /\ (store_error env (S (tick w)) <> None -> Reply.data reply = None)
    /\ ((forall x, In x (snapshots w) ->
                   Snapshot.source_id x <> Source.id source) ->
        Reply.data reply = None).
Proof.
  assert (Hlatest : latest_snapshot (fetched source w) (Source.id source)
                    = latest_snapshot w (Source.id source)) by reflexivity.
  unfold select_latest_snapshot, looked_up, selected.
  rewrite tick_fetched, Hlatest.
  destruct (store_error env (S (tick w))) as [e|] eqn:Hstore.
  - eexists. split; [reflexivity|]. cbn [Reply.data Reply.refused].
    split; [reflexivity|]. split; [reflexivity|]. split; [reflexivity|].
    split; [left; discriminate|]. split; reflexivity.
  - destruct (latest_snapshot w (Source.id source)) as [r|] eqn:H.
    + eexists. split; [reflexivity|]. cbn [Reply.data Reply.accepted].
      split; [reflexivity|]. split; [reflexivity|]. split; [reflexivity|].
      destruct (latest_snapshot_in _ _ _ H) as [Hin Hs].
      split.
      { split; [reflexivity|]. split; [exact Hin|]. split; [exact Hs|].
        exact (proj2 (latest_of_max _ _ _ _ H)). }
      split.
      * intros Hc. now elim Hc.
      * intros Hnone. elim (Hnone r Hin Hs).
    + eexists. split; [reflexivity|]. cbn [Reply.data Reply.refused].
      split; [reflexivity|]. split; [reflexivity|]. split; [reflexivity|].
      split; [right; exact (proj2 (proj1 (latest_of_none _ _ _) H))|].
      split; reflexivity.
Qed.

Lemma latest_of_newest (sid : string) (x : Snapshot.t)
  (rows : list Snapshot.t) :
  Snapshot.source_id x = sid ->
  (forall r, In r rows -> Snapshot.fetched_at r <= Snapshot.fetched_at x) ->
  forall best : option Snapshot.t,
    (forall b, best = Some b -> Snapshot.fetched_at b <= Snapshot.fetched_at x) ->
    latest_of sid (rows ++ [x]) best = Some x.
Proof.
  intros Hx. induction rows as [|r rows IH]; intros Hrows best Hbest; simpl.
  - rewrite Hx, String.eqb_refl.
    destruct best as [b|]; [|reflexivity].
    specialize (Hbest b eq_refl).
    destruct (Nat.ltb_spec (Snapshot.fetched_at x) (Snapshot.fetched_at b));
      [lia | reflexivity].
  - assert (Hrest : forall r', In r' rows ->
                      Snapshot.fetched_at r' <= Snapshot.fetched_at x)
      by (intros r' Hr'; apply Hrows; now right).
    destruct (Snapshot.source_id r =? sid); [|now apply IH].
    destruct best as [b|].
    + destruct (Snapshot.fetched_at r <? Snapshot.fetched_at b)%nat;
        apply IH; try assumption.
      intros b' [= <-]. apply Hrows. now left.
    + apply IH; [assumption|]. intros b' [= <-]. apply Hrows. now left.
Qed.

Lemma tick_with_change_event (w : World) (row : NewChangeEvent.t) :
  tick (with_change_event w row) = S (tick w).
Proof.
  unfold tick, with_change_event; simpl. rewrite length_app; simpl. lia.
Qed.

(** X9. Two consecutive runs on the same page are idempotent.  With a store
    that accepts the requests and holds no snapshot stamped in the future,
    the snapshot of a fetched page becomes the most recent snapshot of its
    source; if the next run fetches the same content, it ends 'unchanged',
    calls the analysis service no more and records no change event. *)
Theorem second_run_on_same_page_is_unchanged
  (JSON_parse : string -> Error + JSValue) (env : Env) (source : Source.t)
  (w : World) (status : nat) (html : string) :
  store_up env ->
  timestamps_in_past w ->
  fetch_succeeds env source w status html ->
  exists entry w1 new,
    checkSource JSON_parse env source w = (Returns entry, w1)
    /\ latest_snapshot w1 (Source.id source) = Some new
    /\ Snapshot.raw_html new = html
    /\ Snapshot.raw_hash new = sha256_hex html
    /\ timestamps_in_past w1
    /\ forall status',
         fetch_succeeds env source w1 status' html ->
         exists w2,
           checkSource JSON_parse env source w1 =
             (Returns (Entry.mk (Source.name source) "unchanged"
                                None None None), w2)
           /\ change_events w2 = change_events w1
           /\ analysis_calls (trace w2) = analysis_calls (trace w1).
Proof.
  intros Hup Hpast Hfetch.
  set (new := stored_snapshot (selected source w)
                (success_row source html status)).
  assert (Hnewest : forall r, In r (snapshots w) ->
                      Snapshot.fetched_at r <= Snapshot.fetched_at new).
  { intros r Hr. specialize (Hpast r Hr).
    unfold new; cbn [stored_snapshot Snapshot.fetched_at].
    rewrite tick_selected. lia. }
  assert (Hlatest : forall w1,
             snapshots w1 = (snapshots w ++ [new])%list ->
             latest_snapshot w1 (Source.id source) = Some new).
  { intros w1 Hs. unfold latest_snapshot. rewrite Hs.
    apply latest_of_newest; [reflexivity | exact Hnewest | discriminate]. }
  assert (Hstamp : forall w1,
             snapshots w1 = (snapshots w ++ [new])%list ->
             S (S (tick w)) <= tick w1 -> timestamps_in_past w1).
  { intros w1 Hs Ht r Hr. rewrite Hs in Hr.
    apply in_app_or in Hr. destruct Hr as [Hr|[<-|[]]].
    - specialize (Hpast r Hr). lia.
    - unfold new; cbn [stored_snapshot Snapshot.fetched_at].
      rewrite tick_selected. exact Ht. }
  assert (Hnext : forall w1,
             latest_snapshot w1 (Source.id source) = Some new ->
             forall status',
               fetch_succeeds env source w1 status' html ->
               exists w2,
                 checkSource JSON_parse env source w1 =
                   (Returns (Entry.mk (Source.name source) "unchanged"
                                      None None None), w2)
                 /\ change_events w2 = change_events w1
                 /\ analysis_calls (trace w2) = analysis_calls (trace w1)).
  { intros w1 Hl status' Hfetch'.
    pose proof (checkSource_success JSON_parse env source w1 status' html
                  Hup Hfetch') as H.
    cbv zeta in H. rewrite Hl in H. cbn [same_hash] in H.
    unfold new in H. cbn [stored_snapshot Snapshot.raw_hash success_row
                          NewSnapshot.raw_hash] in H.
    rewrite String.eqb_refl in H.
    eexists. split; [exact H|]. split; [reflexivity|].
    cbn [with_snapshot log trace]. rewrite !analysis_calls_app. simpl.
    now rewrite !app_nil_r. }
  pose proof (checkSource_success JSON_parse env source w status html
                Hup Hfetch) as H.
  cbv zeta in H.
  destruct (same_hash (latest_snapshot w (Source.id source)) (sha256_hex html)).
  - eexists _, _, new. split; [exact H|].
    split; [now apply Hlatest|]. split; [reflexivity|]. split; [reflexivity|].
    split; [|now apply Hnext, Hlatest].
    apply Hstamp; [reflexivity|].
    rewrite tick_with_snapshot, !tick_log. lia.
  - destruct H as [analysis [_ H]].
    eexists _, _, new. split; [exact H|].
    split; [now apply Hlatest|]. split; [reflexivity|]. split; [reflexivity|].
    split; [|now apply Hnext, Hlatest].
    apply Hstamp; [reflexivity|].
    rewrite tick_with_change_event, tick_log, tick_with_snapshot, !tick_log.
    lia.
Qed.

Lemma second_run_on_same_page_is_unchanged_witness :
  exists entry w1 w2,
    checkSource scenario_JSON_parse
      (scenario store_accepts (page 200 "v1") (service_answers sample_answer))
      source_A (world_with []) = (Returns entry, w1)
    /\ checkSource scenario_JSON_parse
         (scenario store_accepts (page 200 "v1")
                   (service_answers sample_answer))
         source_A w1
       = (Returns (Entry.mk "A" "unchanged" None None None), w2)
    /\ change_events w2 = change_events w1.
Proof.
  destruct (second_run_on_same_page_is_unchanged scenario_JSON_parse
              (scenario store_accepts (page 200 "v1")
                        (service_answers sample_answer))
              source_A (world_with []) 200 "v1")
    as [entry [w1 [new [Hrun [_ [_ [_ [_ Hnext]]]]]]]].
  - intros t. reflexivity.
  - intros r [].
  - split; reflexivity.
  - destruct (Hnext 200) as [w2 [Hrun2 [Hev _]]].
    + split; reflexivity.
    + exists entry, w1, w2. repeat split; assumption.
Defined.

(** ** The entry point *)

Section Runs.

Variable JSON_parse : string -> Error + JSValue.
Variable env : Env.

Lemma checkSource_path_of_run (source : Source.t) (w w' : World)
  (entry : Entry.t) :
  checkSource JSON_parse env source w = (Returns entry, w') ->
  checkSource_path JSON_parse env source w entry w'.
Proof.
  intros H.
  destruct (checkSource_follows_a_path JSON_parse env source w)
    as [entry0 [w0 [Hrun Hpath]]].
  rewrite H in Hrun. now injection Hrun as -> ->.
Qed.

Lemma each_checked_growth (srcs : list Source.t) (w w' : World)
  (results : list Entry.t) :
  each_checked JSON_parse env srcs w results w' ->
  exists ss es,
    grows w w' ss es
    /\ List.length ss <= List.length srcs
    /\ List.length es <= List.length ss.
Proof.
  induction 1 as [w|source rest w w1 w' entry results Hrun _ IH].
  - exists [], []. split; [apply grows_refl | simpl; lia].
  - destruct IH as [ss' [es' [G' [Ls' Le']]]].
    destruct (checkSource_path_growth JSON_parse env source w w1 entry
                (checkSource_path_of_run _ _ _ _ Hrun))
      as [ss [es [G Hcases]]].
    exists (ss ++ ss')%list, (es ++ es')%list.
    split; [exact (grows_trans _ _ _ _ _ _ _ G G')|].
    rewrite !length_app.
    destruct Hcases as [[-> L]|[new [event [_ [_ [-> [-> _]]]]]]];
      simpl in *; lia.
Qed.

Lemma checkSource_stores_one (source : Source.t) (w : World) :
  store_up env ->
  exists entry w' new,
    checkSource JSON_parse env source w = (Returns entry, w')
    /\ snapshots w' = (snapshots w ++ [new])%list
    /\ Snapshot.source_id new = Source.id source.
Proof.
  intros Hup.
  destruct (network env (tick w) (Source.url source)) as [e|r] eqn:Hnet.
  - eexists _, _, _. split.
    + apply checkSource_fetch_rejected; [exact Hnet | apply Hup].
    + split; reflexivity.
  - destruct (HttpResponse.ok r) eqn:Hok.
    + destruct r as [status [e|html]].
      * eexists _, _, _. split.
        -- eapply checkSource_body_rejected;
             [exact Hnet | exact Hok | reflexivity | apply Hup].
        -- split; reflexivity.
      * pose proof (checkSource_success JSON_parse env source w status html
                      Hup (conj Hnet Hok)) as H.
        cbv zeta in H. destruct (same_hash _ _).
        -- eexists _, _, _. split; [exact H|]. split; reflexivity.
        -- destruct H as [analysis [_ H]].
           eexists _, _, _. split; [exact H|]. split; reflexivity.
    + eexists _, _, _. split.
      * apply checkSource_http_error; [exact Hnet | exact Hok | apply Hup].
      * split; reflexivity.
Qed.

Lemma each_checked_stores_one_each (srcs : list Source.t) (w w' : World)
  (results : list Entry.t) :
  store_up env ->
  each_checked JSON_parse env srcs w results w' ->
  exists added,
    snapshots w' = (snapshots w ++ added)%list
    /\ map Snapshot.source_id added = map Source.id srcs.
Proof.
  intros Hup.
  induction 1 as [w|source rest w w1 w' entry results Hrun _ IH].
  - exists []. now rewrite app_nil_r.
  - destruct IH as [added [Hs Hids]].
    destruct (checkSource_stores_one source w Hup)
      as [entry0 [w0 [new [Hrun0 [Hnew Hsid]]]]].
    rewrite Hrun in Hrun0. injection Hrun0 as <- <-.
    exists (new :: added). split.
    + rewrite Hs, Hnew. now rewrite <- app_assoc.
    + simpl. now rewrite Hsid, Hids.
Qed.

Lemma handler_lists_then_checks (req : CronRequest) (w : World) :
  authorization req = Some (expected_authorization (CRON_SECRET env)) ->
  store_error env (tick w) = None ->
  exists results w',
    handler JSON_parse env req w =
      (Returns (Response.mk (RunReport true (clock env (tick w')) results)
                            200 (Some "application/json")), w')
    /\ each_checked JSON_parse env (active_sources w)
         (log SelectActiveSources w) results w'.
Proof.
  intros Hauth Hlist.
  apply js_differs_false in Hauth.
  unfold handler. rewrite Hauth.
  unfold try_catch, bind at 1, select_active_sources. rewrite Hlist.
  cbn [Reply.error Reply.data Reply.accepted].
  destruct (check_each_run JSON_parse env (active_sources w) []
              (log SelectActiveSources w))
    as [results [w' [Hrun [Heach _]]]].
  exists results, w'. unfold bind. rewrite Hrun. cbn [app].
  split; [reflexivity | exact Heach].
Qed.

Lemma handler_listing_refused (req : CronRequest) (w : World) (e : Error) :
  authorization req = Some (expected_authorization (CRON_SECRET env)) ->
  store_error env (tick w) = Some e ->
  handler JSON_parse env req w =
  (Returns (Response.mk (FailureReport false (message e)) 500
                        (Some "application/json")),
   log SelectActiveSources w).
Proof.
  intros Hauth Hlist.
  apply js_differs_false in Hauth.
  unfold handler. rewrite Hauth.
  unfold try_catch, bind at 1, select_active_sources. rewrite Hlist.
  reflexivity.
Qed.

End Runs.

(** X10. When the caller is authorized and the store refuses the listing of
    the active sources, the run stops there: the answer is the failure report
    with the message of the store, under status 500, and the listing is the
    only request made; no page is fetched and nothing is written. *)
Theorem refused_listing_fails_the_run
  (JSON_parse : string -> Error + JSValue) (env : Env) (req : CronRequest)
  (w : World) (e : Error) :
  authorization req = Some (expected_authorization (CRON_SECRET env)) ->
  store_error env (tick w) = Some e ->
  exists w',
    handler JSON_parse env req w =
      (Returns (Response.mk (FailureReport false (message e)) 500
                            (Some "application/json")), w')
    /\ trace w' = (trace w ++ [SelectActiveSources])%list
    /\ snapshots w' = snapshots w
    /\ change_events w' = change_events w.
Proof.
  intros Hauth Hlist. eexists. split.
  - apply handler_listing_refused; eassumption.
  - repeat split.
Qed.

Lemma refused_listing_fails_the_run_witness :
  exists w',
    handler scenario_JSON_parse
      (scenario (store_refuses_at 0) (page 200 "v1") service_down)
      (mkCronRequest (Some "Bearer s3cret")) (world_with [snapshot_v1])
    = (Returns (Response.mk (FailureReport false "connection refused") 500
                            (Some "application/json")), w')
    /\ trace w' = [SelectActiveSources]
    /\ snapshots w' = [snapshot_v1].
Proof.
  destruct (refused_listing_fails_the_run scenario_JSON_parse
              (scenario (store_refuses_at 0) (page 200 "v1") service_down)
              (mkCronRequest (Some "Bearer s3cret")) (world_with [snapshot_v1])
              (mkError "connection refused"))
    as [w' [Hrun [Htrace [Hrows _]]]].
  - reflexivity.
  - reflexivity.
  - exists w'. repeat split; assumption.
Defined.

(** X11. The entry point never throws, and the status of its answer is
    decided by two tests: 401 with a plain body when the authorization header
    is not the expected one; otherwise a JSON body, under 500 when the store
    refuses the listing of the sources and under 200 when it accepts it,
    whatever happens to the sources afterwards. *)
Theorem handler_always_answers
  (JSON_parse : string -> Error + JSValue) (env : Env) (req : CronRequest)
  (w : World) :
  exists response w',
    handler JSON_parse env req w = (Returns response, w')
    /\ Response.status response =
       (if js_differs (authorization req)
             (expected_authorization (CRON_SECRET env))
        then 401
        else match store_error env (tick w) with
             | Some _ => 500
             | None => 200
             end)
    /\ Response.content_type response =
       (if js_differs (authorization req)
             (expected_authorization (CRON_SECRET env))
        then None
        else Some "application/json").
Proof.
  destruct (js_differs (authorization req)
              (expected_authorization (CRON_SECRET env))) eqn:Hd.
  - exists unauthorized, w. unfold handler. rewrite Hd. repeat split.
  - apply js_differs_false in Hd.
    destruct (store_error env (tick w)) as [e|] eqn:Hlist.
    + eexists _, _. split.
      * apply handler_listing_refused; eassumption.
      * split; reflexivity.
    + destruct (handler_lists_then_checks JSON_parse env req w Hd Hlist)
        as [results [w' [Hrun _]]].
      eexists _, _. split; [exact Hrun|]. split; reflexivity.
Qed.

(** X12. When no source is active, an authorized run whose listing is
    accepted makes that single request, writes nothing, and answers the
    success report with no entry. *)
Theorem run_without_active_source
  (JSON_parse : string -> Error + JSValue) (env : Env) (req : CronRequest)
  (w : World) :
  authorization req = Some (expected_authorization (CRON_SECRET env)) ->
  store_error env (tick w) = None ->
  active_sources w = [] ->
  handler JSON_parse env req w =
  (Returns (Response.mk (RunReport true (clock env (S (tick w))) [])
                        200 (Some "application/json")),
   log SelectActiveSources w).
Proof.
  intros Hauth Hlist Hnone.
  destruct (handler_lists_then_checks JSON_parse env req w Hauth Hlist)
    as [results [w' [Hrun Heach]]].
  rewrite Hnone in Heach. inversion Heach; subst.
  rewrite Hrun, tick_log. reflexivity.
Qed.

Lemma run_without_active_source_witness :
  handler scenario_JSON_parse
    (scenario store_accepts (page 200 "v1") service_down)
    (mkCronRequest (Some "Bearer s3cret"))
    (mkWorld [(source_A, false)] [] [] 1 [])
  = (Returns (Response.mk (RunReport true "2024-05-01T16:00:00.000Z" [])
                          200 (Some "application/json")),
     mkWorld [(source_A, false)] [] [] 1 [SelectActiveSources]).
Proof.
  apply (run_without_active_source scenario_JSON_parse
           (scenario store_accepts (page 200 "v1") service_down)
           (mkCronRequest (Some "Bearer s3cret"))
           (mkWorld [(source_A, false)] [] [] 1 [])); reflexivity.
Defined.

(** X13. When the secret is not configured, the expected header is the
    rendering of an undefined value: a request carrying 'Bearer undefined'
    is let in, and the run starts by listing the sources. *)
Theorem unset_secret_admits_bearer_undefined
  (JSON_parse : string -> Error + JSValue) (env : Env) (req : CronRequest)
  (w : World) :
  CRON_SECRET env = None ->
  authorization req = Some "Bearer undefined" ->
  exists response w' rest,
    handler JSON_parse env req w = (Returns response, w')
    /\ Response.status response <> 401
    /\ trace w' = (trace w ++ SelectActiveSources :: rest)%list.
Proof.
  intros Hsecret Hauth.
  assert (Hexp : authorization req
                 = Some (expected_authorization (CRON_SECRET env)))
    by now rewrite Hsecret, Hauth.
  destruct (store_error env (tick w)) as [e|] eqn:Hlist.
  - eexists _, _, []. split.
    + apply handler_listing_refused; eassumption.
    + split; [discriminate | reflexivity].
  - destruct (handler_lists_then_checks JSON_parse env req w Hexp Hlist)
      as [results [w' [Hrun Heach]]].
    assert (Htrace : exists rest,
               trace w' = (trace (log SelectActiveSources w) ++ rest)%list).
    { clear Hrun. induction Heach as [w0|source rest0 w0 w1 w2 entry rs Hr _ IH].
      - exists []. now rewrite app_nil_r.
      - destruct IH as [rest1 H1].
        destruct (checkSource_fetches_once JSON_parse env source w0)
          as [added [Ht _]].
        rewrite Hr in Ht. simpl in Ht.
        eexists. rewrite H1, Ht, <- app_assoc. reflexivity. }
    destruct Htrace as [rest Htrace].
    eexists _, _, rest. split; [exact Hrun|].
    split; [discriminate|].
    rewrite Htrace. cbn [log trace]. now rewrite <- app_assoc.
Qed.

Lemma unset_secret_admits_bearer_undefined_witness :
  exists response w' rest,
    handler scenario_JSON_parse
      (mkEnv None (fun _ => "2024-05-01T16:00:00.000Z") store_accepts
             (fun _ _ => page 200 "v1") (fun _ _ => service_down))
      (mkCronRequest (Some "Bearer undefined")) (world_with [])
    = (Returns response, w')
    /\ Response.status response <> 401
    /\ trace w' = SelectActiveSources :: rest.
Proof.
  apply (unset_secret_admits_bearer_undefined scenario_JSON_parse
           (mkEnv None (fun _ => "2024-05-01T16:00:00.000Z") store_accepts
                  (fun _ _ => page 200 "v1") (fun _ _ => service_down))
           (mkCronRequest (Some "Bearer undefined")) (world_with []));
    reflexivity.
Defined.

(** X14. An authorized run against a store that accepts the requests
    records exactly one snapshot per active source, in the order of the
    sources, whatever the fetches give. *)
Theorem run_records_one_snapshot_per_source
  (JSON_parse : string -> Error + JSValue) (env : Env) (req : CronRequest)
  (w : World) :
  store_up env ->
  authorization req = Some (expected_authorization (CRON_SECRET env)) ->
  exists results w' added,
    handler JSON_parse env req w =
      (Returns (Response.mk (RunReport true (clock env (tick w')) results)
                            200 (Some "application/json")), w')
    /\ snapshots w' = (snapshots w ++ added)%list
    /\ map Snapshot.source_id added = map Source.id (active_sources w)
    /\ List.length added = List.length results.
Proof.
  intros Hup Hauth.
  destruct (handler_lists_then_checks JSON_parse env req w Hauth (Hup _))
    as [results [w' [Hrun Heach]]].
  destruct (each_checked_stores_one_each JSON_parse env _ _ _ _ Hup Heach)
    as [added [Hs Hids]].
  exists results, w', added. split; [exact Hrun|].
  split; [exact Hs|]. split; [exact Hids|].
  rewrite <- (length_map Snapshot.source_id), Hids, length_map.
  clear Hrun Hs Hids. induction Heach; simpl; [reflexivity | now f_equal].
Qed.

Lemma run_records_one_snapshot_per_source_witness :
  exists results w' added,
    handler scenario_JSON_parse mixed_run
      (mkCronRequest (Some "Bearer s3cret")) (world_with [snapshot_v1])
    = (Returns (Response.mk (RunReport true "2024-05-01T16:00:00.000Z" results)
                            200 (Some "application/json")), w')
    /\ snapshots w' = snapshot_v1 :: added
    /\ map Snapshot.source_id added = ["src-a"; "src-b"].
Proof.
  destruct (run_records_one_snapshot_per_source scenario_JSON_parse mixed_run
              (mkCronRequest (Some "Bearer s3cret")) (world_with [snapshot_v1]))
    as [results [w' [added [Hrun [Hs [Hids _]]]]]].
  - intros t. reflexivity.
  - reflexivity.
  - exists results, w', added. repeat split; assumption.
Defined.

(** X15. Whatever the request and whatever the outside answers, the entry
    point only appends to the tables: the sources and the rows present are
    left as they are, at most one snapshot per active source is added, and
    no more change events than snapshots. *)
Theorem handler_only_appends
  (JSON_parse : string -> Error + JSValue) (env : Env) (req : CronRequest)
  (w : World) :
  exists response w' ss es,
    handler JSON_parse env req w = (Returns response, w')
    /\ sources w' = sources w
    /\ snapshots w' = (snapshots w ++ ss)%list
    /\ change_events w' = (change_events w ++ es)%list
    /\ List.length ss <= List.length (active_sources w)
    /\ List.length es <= List.length ss.
Proof.
  destruct (js_differs (authorization req)
              (expected_authorization (CRON_SECRET env))) eqn:Hd.
  - exists unauthorized, w, [], []. unfold handler. rewrite Hd.
    rewrite !app_nil_r. repeat split; simpl; lia.
  - apply js_differs_false in Hd.
    destruct (store_error env (tick w)) as [e|] eqn:Hlist.
    + eexists _, _, [], []. split.
      * apply handler_listing_refused; eassumption.
      * cbn [log sources snapshots change_events]. rewrite !app_nil_r.
        repeat split; simpl; lia.
    + destruct (handler_lists_then_checks JSON_parse env req w Hd Hlist)
        as [results [w' [Hrun Heach]]].
      destruct (each_checked_growth JSON_parse env _ _ _ _ Heach)
        as [ss [es [[Hs [Hn He]] [Ls Le]]]].
      eexists _, w', ss, es. split; [exact Hrun|].
      repeat split; assumption.
Qed.

(** ** The analysis step *)

(** X16. [analyzeDiff] never throws, whatever the service answers: it
    returns a result after exactly one request to the service, a chat
    completion on the prompt built from its arguments, and it touches none
    of the tables. *)
Theorem analyzeDiff_never_throws
  (JSON_parse : string -> Error + JSValue) (env : Env) (source : Source.t)
  (oldHtml newHtml : string) (w : World) :
  exists analysis w',
    analyzeDiff JSON_parse env source oldHtml newHtml w = (Returns analysis, w')
    /\ trace w' =
       (trace w ++ [CreateCompletion
                      (ChatRequest.mk "gpt-4o-mini" SYSTEM_MESSAGE
                         (analysis_prompt source oldHtml newHtml)
                         "json_object" TEMPERATURE)])%list
    /\ sources w' = sources w
    /\ snapshots w' = snapshots w
    /\ change_events w' = change_events w.
Proof.
  destruct (analyzeDiff_returns JSON_parse env source oldHtml newHtml w)
    as [analysis H].
  eexists _, _. split; [exact H|]. repeat split.
Qed.

Lemma js_or_truthy (x : option JSValue) (d : JSValue) :
  js_truthy d = true -> js_truthy (js_or x d) = true.
Proof.
  intros Hd. unfold js_or. destruct x as [v|]; [|exact Hd].
  destruct (js_truthy v) eqn:Hv; [exact Hv | exact Hd].
Qed.

Lemma js_or_null (x : option JSValue) :
  js_or x JSNull = JSNull \/ js_truthy (js_or x JSNull) = true.
Proof.
  unfold js_or. destruct x as [v|]; [|now left].
  destruct (js_truthy v) eqn:Hv; [now right | now left].
Qed.

(** X17. Whatever the service answers, the result of [analyzeDiff] is
    filled in: its summary, its tags and its status are never falsy (never
    null, an empty string, false or zero), and its effective date is null or
    truthy.  The review flag is on unless the answer parses to an object
    whose [needsReview] is the boolean false. *)
Theorem analyzeDiff_fills_every_field
  (JSON_parse : string -> Error + JSValue) (env : Env) (source : Source.t)
  (oldHtml newHtml : string) (w : World) :
  exists analysis w',
    analyzeDiff JSON_parse env source oldHtml newHtml w = (Returns analysis, w')
    /\ js_truthy (Analysis.summary analysis) = true
    /\ js_truthy (Analysis.tags analysis) = true
    /\ js_truthy (Analysis.status analysis) = true
    /\ (Analysis.effectiveDate analysis = JSNull
        \/ js_truthy (Analysis.effectiveDate analysis) = true)
    /\ (Analysis.needsReview analysis = false ->
        exists content rest fields,
          completions env (tick w)
            (chat_request (analysis_prompt source oldHtml newHtml))
            = CompletionResolves (content :: rest)
          /\ JSON_parse (content_or_empty_object content)
             = inr (JSObject fields)
          /\ lookup_field "needsReview" fields = Some (JSBool false)).
Proof.
  unfold analyzeDiff, try_catch, bind, create_completion.
  destruct (completions env (tick w) _) as [e|[|content rest]]; simpl;
    try (eexists _, _; split; [reflexivity|];
         repeat split; try reflexivity; try (now left); discriminate).
  unfold await.
  destruct (JSON_parse (content_or_empty_object content)) as [e|v] eqn:Hparse;
    simpl;
    try (eexists _, _; split; [reflexivity|];
         repeat split; try reflexivity; try (now left); discriminate).
  destruct v as [|b|f|s|items|fields]; simpl;
    try (eexists _, _; split; [reflexivity|];
         repeat split; try reflexivity; try (now left); discriminate).
  eexists _, _. split; [reflexivity|]. cbn [Analysis.summary Analysis.tags
    Analysis.status Analysis.effectiveDate Analysis.needsReview].
  split; [now apply js_or_truthy|]. split; [now apply js_or_truthy|].
  split; [now apply js_or_truthy|]. split; [apply js_or_null|].
  intros Hreview. exists content, rest, fields.
  split; [reflexivity|]. split; [exact Hparse|].
  unfold js_not_false in Hreview.
  destruct (lookup_field "needsReview" fields) as [[|[|]| | | |]|];
    try discriminate. reflexivity.
Qed.

(** X18. An answer without any choice, and an answer whose content parses
    to [null], make [analyzeDiff] fail inside its [try] block like a rejected
    call: the result is the degraded one. *)
Theorem empty_or_null_answer_is_degraded
  (JSON_parse : string -> Error + JSValue) (env : Env) (source : Source.t)
  (oldHtml newHtml : string) (w : World) :
  (completions env (tick w)
     (chat_request (analysis_prompt source oldHtml newHtml))
   = CompletionResolves []
   \/ exists content rest,
        completions env (tick w)
          (chat_request (analysis_prompt source oldHtml newHtml))
        = CompletionResolves (content :: rest)
        /\ JSON_parse (content_or_empty_object content) = inr JSNull) ->
  analyzeDiff JSON_parse env source oldHtml newHtml w =
  (Returns degraded_analysis,
   log (analysis_request source oldHtml newHtml) w).
Proof.
  unfold analyzeDiff, try_catch, bind, create_completion, analysis_request.
  intros [H|[content [rest [H Hparse]]]]; rewrite H; simpl; [reflexivity|].
  unfold await. rewrite Hparse. reflexivity.
Qed.

Lemma empty_or_null_answer_is_degraded_witness :
  analyzeDiff scenario_JSON_parse
    (scenario store_accepts (page 200 "v2") (service_answers "null"))
    source_A "v1" "v2" (world_with [snapshot_v1])
  = (Returns degraded_analysis,
     log (analysis_request source_A "v1" "v2") (world_with [snapshot_v1]))
  /\ analyzeDiff scenario_JSON_parse
       (scenario store_accepts (page 200 "v2") (CompletionResolves []))
       source_A "v1" "v2" (world_with [snapshot_v1])
     = (Returns degraded_analysis,
        log (analysis_request source_A "v1" "v2") (world_with [snapshot_v1])).
Proof.
  split; apply empty_or_null_answer_is_degraded.
  - right. exists (Some "null"), []. split; reflexivity.
  - left. reflexivity.
Defined.

(** X19. A content that is null or empty is read as the empty object, and
    an answer that parses to a value other than [null] carrying none of the
    five expected keys gives the result made of the defaults only: the
    'analysis incomplete' summary, no tag, the status 'unknown', no
    effective date, and the review flag on.  This result differs from the
    degraded one by its summary and by its tags. *)
Theorem answer_without_fields_gets_the_defaults
  (JSON_parse : string -> Error + JSValue) (env : Env) (source : Source.t)
  (oldHtml newHtml : string) (w : World) (content : option string)
  (rest : list (option string)) (answer : JSValue) :
  completions env (tick w)
    (chat_request (analysis_prompt source oldHtml newHtml))
  = CompletionResolves (content :: rest) ->
  JSON_parse (content_or_empty_object content) = inr answer ->
  (forall k, In k analysis_keys -> js_get answer k = Some None) ->
  content_or_empty_object None = "{}"
  /\ content_or_empty_object (Some "") = "{}"
  /\ analyzeDiff JSON_parse env source oldHtml newHtml w =
     (Returns incomplete_analysis,
      log (analysis_request source oldHtml newHtml) w)
  /\ Analysis.summary incomplete_analysis <> Analysis.summary degraded_analysis
  /\ Analysis.tags incomplete_analysis <> Analysis.tags degraded_analysis.
Proof.
  intros Hanswer Hparse Hkeys.
  split; [reflexivity|]. split; [reflexivity|].
  split; [|split; discriminate].
  unfold analyzeDiff, try_catch, bind, create_completion, analysis_request.
  rewrite Hanswer; simpl. unfold await. rewrite Hparse; simpl.
  unfold get_property.
  rewrite !Hkeys by (unfold analysis_keys; simpl; tauto).
  reflexivity.
Qed.

Lemma answer_without_fields_gets_the_defaults_witness :
  analyzeDiff scenario_JSON_parse
    (scenario store_accepts (page 200 "v2") (CompletionResolves [None]))
    source_A "v1" "v2" (world_with [snapshot_v1])
  = (Returns incomplete_analysis,
     log (analysis_request source_A "v1" "v2") (world_with [snapshot_v1])).
Proof.
  apply (answer_without_fields_gets_the_defaults scenario_JSON_parse
           (scenario store_accepts (page 200 "v2") (CompletionResolves [None]))
           source_A "v1" "v2" (world_with [snapshot_v1]) None []
           (JSObject [])).
  - reflexivity.
  - reflexivity.
  - intros k _. reflexivity.
Defined.

(** X20. After a failed fetch the previous content is lost to the
    analysis: when the most recent snapshot is an error snapshot, with its
    empty content and fingerprint, the request sent for the next fetched
    page is the request of a first fetch, which announces that no previous
    content is available. *)
Theorem analysis_after_error_snapshot_has_no_previous_content
  (JSON_parse : string -> Error + JSValue) (env : Env) (source : Source.t)
  (w : World) (status : nat) (html : string) (prior : Snapshot.t) :
  fetch_succeeds env source w status html ->
  latest_snapshot w (Source.id source) = Some prior ->
  Snapshot.raw_html prior = "" ->
  Snapshot.raw_hash prior = "" ->
  analysis_calls (trace (snd (checkSource JSON_parse env source w))) =
    (analysis_calls (trace w)
     ++ [chat_request (analysis_prompt source "" html)])%list
  /\ previous_section "" = "No previous content available (first fetch).".
Proof.
  intros Hfetch Hlast Hhtml Hhash. split; [|reflexivity].
  destruct (checkSource_on_page JSON_parse env source w status html Hfetch)
    as [analysis [_ Hrun]].
  cbv zeta in Hrun.
  assert (Hprev : previous_html (looked_up env source w) = "").
  { unfold looked_up. destruct (store_error env (S (tick w)));
      [reflexivity|]. rewrite Hlast. exact Hhtml. }
  assert (Hsame : same_hash (looked_up env source w) (sha256_hex html) = false).
  { unfold looked_up. destruct (store_error env (S (tick w)));
      [reflexivity|]. rewrite Hlast. cbn [same_hash]. rewrite Hhash.
    apply sha256_hex_neqb_empty. }
  rewrite Hsame, Hprev in Hrun. rewrite Hrun.
  destruct (persisted env source w status html); cbn [snd];
    rewrite ?trace_after_insert_change_event, ?trace_after_insert_snapshot;
    cbn [log trace];
    rewrite trace_after_insert_snapshot;
    cbn [selected fetched log trace analysis_request];
    rewrite !analysis_calls_app; simpl; now rewrite !app_nil_r.
Qed.

Lemma analysis_after_error_snapshot_has_no_previous_content_witness :
  analysis_calls
    (trace (snd (checkSource scenario_JSON_parse
                   (scenario store_accepts (page 200 "v1") service_down)
                   source_A (world_with [snapshot_v1; snapshot_failed]))))
  = [chat_request (analysis_prompt source_A "" "v1")].
Proof.
  apply (analysis_after_error_snapshot_has_no_previous_content
           scenario_JSON_parse
           (scenario store_accepts (page 200 "v1") service_down)
           source_A (world_with [snapshot_v1; snapshot_failed]) 200 "v1"
           snapshot_failed).
  - split; reflexivity.
  - reflexivity.
  - reflexivity.
  - reflexivity.
Defined.

(** ** The entries of the report *)

Lemma analyzeDiff_summary_truthy
  (JSON_parse : string -> Error + JSValue) (env : Env) (source : Source.t)
  (oldHtml newHtml : string) (w w' : World) (analysis : Analysis.t) :
  analyzeDiff JSON_parse env source oldHtml newHtml w = (Returns analysis, w') ->
  js_truthy (Analysis.summary analysis) = true.
Proof.
  unfold analyzeDiff, try_catch, bind, create_completion.
  destruct (completions env (tick w) _) as [e|[|content rest]]; simpl;
    try (now intros [= <- _]).
  unfold await.
  destruct (JSON_parse (content_or_empty_object content)) as [e|v]; simpl;
    try (now intros [= <- _]).
  destruct v; simpl; intros [= <- _]; try reflexivity.
  now apply js_or_truthy.
Qed.

(** X27. An entry of the report has one of three shapes, and names its
    source: 'unchanged' with nothing else; 'changed' with a summary, which
    is never empty, and nothing else; 'error' with either the message of the
    failure or the HTTP status of the response, a status outside 200..299,
    and never both. *)
Theorem entry_has_one_of_three_shapes
  (JSON_parse : string -> Error + JSValue) (env : Env) (source : Source.t)
  (w : World) :
  exists entry w',
    checkSource JSON_parse env source w = (Returns entry, w')
    /\ Entry.source entry = Source.name source
    /\ ((Entry.status entry = "unchanged"
         /\ Entry.summary entry = None
         /\ Entry.error entry = None
         /\ Entry.httpStatus entry = None)
        \/ (Entry.status entry = "changed"
            /\ (exists summary,
                  Entry.summary entry = Some summary
                  /\ js_truthy summary = true)
            /\ Entry.error entry = None
            /\ Entry.httpStatus entry = None)
        \/ (Entry.status entry = "error"
            /\ Entry.summary entry = None
            /\ ((exists msg,
                   Entry.error entry = Some msg
                   /\ Entry.httpStatus entry = None)
                \/ (exists code,
                      Entry.error entry = None
                      /\ Entry.httpStatus entry = Some code
                      /\ (code < 200 \/ 299 < code))))).
Proof.
  destruct (checkSource_follows_a_path JSON_parse env source w)
    as [entry [w' [Hrun Hpath]]].
  exists entry, w'. split; [exact Hrun|].
  inversion Hpath; subst; clear Hpath; (split; [reflexivity|]).
  - right; right. repeat split. left. eexists. split; reflexivity.
  - right; right. repeat split. right. eexists.
    split; [reflexivity|]. split; [reflexivity|].
    match goal with
    | H : HttpResponse.ok _ = false |- _ =>
        unfold HttpResponse.ok in H; apply andb_false_iff in H;
        destruct H as [H|H];
        [apply Nat.leb_gt in H | apply Nat.leb_gt in H]; lia
    end.
  - right; right. repeat split. left. eexists. split; reflexivity.
  - left. repeat split.
  - right; left. split; [reflexivity|]. split; [|split; reflexivity].
    eexists. split; [reflexivity|].
    eapply analyzeDiff_summary_truthy. eassumption.
  - right; right. repeat split. left. eexists. split; reflexivity.
Qed.

(** ** The fingerprint *)

Lemma hex_digit_is_lower_hex (v : Z) :
  (0 <= v < 16)%Z -> is_lower_hex (SHA256.hex_digit v) = true.
Proof.
  intros Hv.
  assert (Hcases : (v = 0 \/ v = 1 \/ v = 2 \/ v = 3 \/ v = 4 \/ v = 5
                    \/ v = 6 \/ v = 7 \/ v = 8 \/ v = 9 \/ v = 10 \/ v = 11
                    \/ v = 12 \/ v = 13 \/ v = 14 \/ v = 15)%Z) by lia.
  repeat (destruct Hcases as [->|Hcases]; [reflexivity|]).
  subst v. reflexivity.
Qed.

Lemma nibble_is_lower_hex (x i : Z) :
  is_lower_hex (SHA256.nibble x i) = true.
Proof.
  unfold SHA256.nibble. apply hex_digit_is_lower_hex.
  change 15%Z with (Z.ones 4). rewrite Z.land_ones by lia.
  apply Z.mod_pos_bound. reflexivity.
Qed.

Lemma string_forall_append (p : ascii -> bool) (s1 s2 : string) :
  string_forall p (s1 ++ s2) = string_forall p s1 && string_forall p s2.
Proof.
  induction s1 as [|c s1 IH]; simpl; [reflexivity|].
  now rewrite IH, andb_assoc.
Qed.

Lemma hex32_is_lower_hex (x : Z) :
  string_forall is_lower_hex (SHA256.hex32 x) = true.
Proof.
  unfold SHA256.hex32. cbn [string_forall].
  now rewrite !nibble_is_lower_hex.
Qed.

(** X21. The fingerprint of any content is made of exactly 64 characters,
    each a digit or a letter from a to f: the lower-case hexadecimal
    rendering of eight 32-bit words. *)
Theorem fingerprint_is_64_lower_hex_characters (content : string) :
  length (sha256_hex content) = 64
  /\ string_forall is_lower_hex (sha256_hex content) = true.
Proof.
  split; [apply sha256_hex_length|].
  unfold sha256_hex, SHA256.hex_of_state.
  now rewrite !string_forall_append, !hex32_is_lower_hex.
Qed.

(** * The review dashboard *)

Lemma in_insert_by_date (r x : Dashboard.Row) (l : list Dashboard.Row) :
  In x (Dashboard.insert_by_date r l) <-> x = r \/ In x l.
Proof.
  induction l as [|y l IH]; simpl.
  - intuition.
  - destruct (_ <=? _)%nat; simpl; [intuition|].
    rewrite IH. intuition.
Qed.

Lemma in_newest_first (x : Dashboard.Row) (l : list Dashboard.Row) :
  In x (Dashboard.newest_first l) <-> In x l.
Proof.
  induction l as [|y l IH]; simpl; [reflexivity|].
  rewrite in_insert_by_date, IH. intuition.
Qed.

Lemma insert_by_date_sorted (r : Dashboard.Row) (l : list Dashboard.Row) :
  StronglySorted Dashboard.not_older l ->
  StronglySorted Dashboard.not_older (Dashboard.insert_by_date r l).
Proof.
  induction 1 as [|y l Hl IH Hy]; simpl.
  - constructor; constructor.
  - destruct (Nat.leb_spec
                (ChangeEvent.detected_at (Dashboard.event y))
                (ChangeEvent.detected_at (Dashboard.event r))) as [Hle|Hgt].
    + constructor; [now constructor|].
      constructor; [exact Hle|].
      rewrite Forall_forall in Hy |- *. intros z Hz.
      specialize (Hy z Hz). unfold Dashboard.not_older in *. lia.
    + constructor; [exact IH|].
      rewrite Forall_forall in Hy |- *. intros z Hz.
      apply in_insert_by_date in Hz. destruct Hz as [->|Hz].
      * unfold Dashboard.not_older. lia.
      * now apply Hy.
Qed.

Lemma newest_first_sorted (l : list Dashboard.Row) :
  StronglySorted Dashboard.not_older (Dashboard.newest_first l).
Proof.
  induction l as [|y l IH]; simpl; [constructor|].
  now apply insert_by_date_sorted.
Qed.

Lemma sorted_firstn (n : nat) (l : list Dashboard.Row) :
  StronglySorted Dashboard.not_older l ->
  StronglySorted Dashboard.not_older (firstn n l).
Proof.
  intros H. revert n. induction H as [|y l Hl IH Hy]; intros [|n]; simpl;
    try constructor.
  - apply IH.
  - rewrite Forall_forall in Hy |- *. intros z Hz. apply Hy.
    rewrite <- (firstn_skipn n l). apply in_or_app. now left.
Qed.

Lemma sorted_app_inv (l1 l2 : list Dashboard.Row) :
  StronglySorted Dashboard.not_older (l1 ++ l2) ->
  forall x y, In x l1 -> In y l2 -> Dashboard.not_older x y.
Proof.
  induction l1 as [|z l1 IH]; simpl; intros H x y Hx Hy; [contradiction|].
  inversion H as [|? ? Hrest Hz]; subst.
  destruct Hx as [->|Hx].
  - rewrite Forall_forall in Hz. apply Hz. apply in_or_app. now right.
  - now apply IH.
Qed.

Lemma map_row_embed (db : Dashboard.Store) (l : list Dashboard.Row) :
  map Dashboard.row (map (Dashboard.embed_source db) l) = l.
Proof.
  induction l as [|r l IH]; simpl; [reflexivity | now rewrite IH].
Qed.

(** X22. When the store answers, [fetchChanges] shows the fifty most recent
    changes that pass the filters: at most fifty rows, each a row of the
    table that passes the source and review filters, the most recent first;
    a row that passes the filters and is not shown is no more recent than
    any row shown, and the list is then full.  The loading flag is cleared
    and the filters are left as they are.  When the store fails instead, the
    list shown before is kept and the loading flag is cleared all the same. *)
Theorem fetchChanges_shows_the_most_recent_matches
  (db : Dashboard.Store) (st : Dashboard.State) :
  let st' := Dashboard.fetchChanges None db st in
  let shown := map Dashboard.row (Dashboard.changes st') in
  (forall e,
     Dashboard.fetchChanges (Some e) db st
     = Dashboard.mkState (Dashboard.changes st) false
         (Dashboard.filterSource st) (Dashboard.filterReview st)
         (Dashboard.sources st))
  /\ List.length shown <= 50
  /\ (forall r, In r shown ->
        In r (Dashboard.change_rows db)
        /\ Dashboard.matches (Dashboard.filterSource st)
                             (Dashboard.filterReview st) r = true)
  /\ StronglySorted Dashboard.not_older shown
  /\ (forall r, In r (Dashboard.change_rows db) ->
        Dashboard.matches (Dashboard.filterSource st)
                          (Dashboard.filterReview st) r = true ->
        In r shown
        \/ (List.length shown = 50
            /\ forall x, In x shown -> Dashboard.not_older x r))
  /\ Dashboard.loading st' = false
  /\ Dashboard.filterSource st' = Dashboard.filterSource st
  /\ Dashboard.filterReview st' = Dashboard.filterReview st
  /\ Dashboard.sources st' = Dashboard.sources st.
Proof.
  cbv zeta. cbn [Dashboard.fetchChanges Dashboard.changes Dashboard.loading
                 Dashboard.filterSource Dashboard.filterReview
                 Dashboard.sources].
  unfold Dashboard.select_changes. rewrite map_row_embed.
  set (fs := Dashboard.filterSource st). set (fr := Dashboard.filterReview st).
  set (matching := filter (Dashboard.matches fs fr) (Dashboard.change_rows db)).
  set (sorted := Dashboard.newest_first matching).
  assert (Hsorted : StronglySorted Dashboard.not_older sorted)
    by apply newest_first_sorted.
  split; [reflexivity|].
  split; [apply firstn_le_length|].
  split.
  { intros r Hr.
    assert (Hin : In r sorted).
    { rewrite <- (firstn_skipn Dashboard.LIMIT sorted).
      apply in_or_app. now left. }
    unfold sorted in Hin. apply (proj1 (in_newest_first _ _)) in Hin.
    unfold matching in Hin. now apply filter_In in Hin. }
  split; [now apply sorted_firstn|].
  split; [|repeat split].
  intros r Hr Hm.
  assert (Hin : In r sorted).
  { unfold sorted. apply (proj2 (in_newest_first _ _)).
    unfold matching. apply filter_In. now split. }
  rewrite <- (firstn_skipn Dashboard.LIMIT sorted) in Hin.
  apply in_app_or in Hin. destruct Hin as [Hin|Hin]; [now left|right].
  split.
  - apply firstn_length_le.
    destruct (Nat.le_gt_cases Dashboard.LIMIT (List.length sorted))
      as [Hle|Hgt]; [exact Hle|].
    rewrite skipn_all2 in Hin by lia. contradiction.
  - intros x Hx.
    apply (sorted_app_inv (firstn Dashboard.LIMIT sorted)
                          (skipn Dashboard.LIMIT sorted)); try assumption.
    now rewrite firstn_skipn.
Qed.

Lemma update_reviewed_rows (now : string) (changeId : positive)
  (db : Dashboard.Store) (r' : Dashboard.Row) :
  In r' (Dashboard.change_rows (Dashboard.update_reviewed now changeId db)) <->
  exists r,
    In r (Dashboard.change_rows db)
    /\ r' = (if Pos.eqb (ChangeEvent.id (Dashboard.event r)) changeId
             then Dashboard.reviewed now r else r).
Proof.
  unfold Dashboard.update_reviewed; cbn [Dashboard.change_rows].
  rewrite in_map_iff. split; intros [r [H1 H2]]; exists r; now split.
Qed.

(** X23. [markReviewed], when the store accepts the update, changes the
    rows of the given identifier and no other: such a row gets the review
    time and loses its review flag, so that it no longer awaits review, and
    keeps each of its nine other columns (identifier, source, "before" and
    "after" snapshots, summary, tags, status, effective date and detection
    time); every other row is left as it is, no row is added or removed,
    and the table of sources is untouched.  The list shown is then fetched
    again from the updated table.  When the store refuses the update,
    neither the table nor the list changes. *)
Theorem markReviewed_marks_that_change_only
  (fetch_error : option Error) (now : string) (changeId : positive)
  (db : Dashboard.Store) (st : Dashboard.State) :
  let db' := fst (Dashboard.markReviewed None fetch_error now changeId db st) in
  let st' := snd (Dashboard.markReviewed None fetch_error now changeId db st) in
  map (fun r => ChangeEvent.id (Dashboard.event r)) (Dashboard.change_rows db')
    = map (fun r => ChangeEvent.id (Dashboard.event r))
          (Dashboard.change_rows db)
  /\ (forall r', In r' (Dashboard.change_rows db') ->
        ChangeEvent.id (Dashboard.event r') = changeId ->
        Dashboard.reviewed_at r' = Some now
        /\ ChangeEvent.needs_review (Dashboard.event r') = false
        /\ Dashboard.awaits_review r' = false
        /\ exists r, In r (Dashboard.change_rows db)
                     /\ r' = Dashboard.reviewed now r)
  /\ (forall r', ChangeEvent.id (Dashboard.event r') <> changeId ->
        (In r' (Dashboard.change_rows db')
         <-> In r' (Dashboard.change_rows db)))
  /\ (forall r,
        let e := Dashboard.event r in
        let e' := Dashboard.event (Dashboard.reviewed now r) in
        ChangeEvent.id e' = ChangeEvent.id e
        /\ ChangeEvent.source_id e' = ChangeEvent.source_id e
        /\ ChangeEvent.snapshot_before_id e' = ChangeEvent.snapshot_before_id e
        /\ ChangeEvent.snapshot_after_id e' = ChangeEvent.snapshot_after_id e
        /\ ChangeEvent.change_summary e' = ChangeEvent.change_summary e
        /\ ChangeEvent.tags e' = ChangeEvent.tags e
        /\ ChangeEvent.status e' = ChangeEvent.status e
        /\ ChangeEvent.effective_date e' = ChangeEvent.effective_date e
        /\ ChangeEvent.detected_at e' = ChangeEvent.detected_at e)
  /\ Dashboard.source_rows db' = Dashboard.source_rows db
  /\ st' = Dashboard.fetchChanges fetch_error db' st
  /\ forall e,
       Dashboard.markReviewed (Some e) fetch_error now changeId db st
       = (db, st).
Proof.
  cbv zeta. cbn [Dashboard.markReviewed fst snd].
  split.
  { unfold Dashboard.update_reviewed; cbn [Dashboard.change_rows].
    rewrite map_map. apply map_ext. intros r.
    destruct (Pos.eqb _ changeId); reflexivity. }
  split.
  { intros r' Hin Hid. apply update_reviewed_rows in Hin.
    destruct Hin as [r [Hr ->]].
    destruct (Pos.eqb_spec (ChangeEvent.id (Dashboard.event r)) changeId)
      as [Heq|Hneq].
    - repeat split. now exists r.
    - contradiction. }
  split.
  { intros r' Hid. rewrite update_reviewed_rows. split.
    - intros [r [Hr ->]].
      destruct (Pos.eqb_spec (ChangeEvent.id (Dashboard.event r)) changeId)
        as [Heq|Hneq]; [|exact Hr].
      now elim Hid.
    - intros Hr. exists r'. split; [exact Hr|].
      destruct (Pos.eqb_spec (ChangeEvent.id (Dashboard.event r')) changeId)
        as [Heq|Hneq]; [contradiction | reflexivity]. }
  repeat split.
Qed.

Lemma pending_after_review (fs now : string) (changeId : positive)
  (r : Dashboard.Row) :
  Dashboard.matches fs "pending"
    (if Pos.eqb (ChangeEvent.id (Dashboard.event r)) changeId
     then Dashboard.reviewed now r else r)
  = Dashboard.matches fs "pending" r
    && negb (Pos.eqb (ChangeEvent.id (Dashboard.event r)) changeId).
Proof.
  destruct (Pos.eqb _ changeId); [|now rewrite andb_true_r].
  unfold Dashboard.matches, Dashboard.matches_review; simpl.
  now rewrite !andb_false_r.
Qed.

(** X24. Marking a change as reviewed removes it, and nothing else, from
    the changes pending review: the rows of the updated table that pass the
    'pending' filter are those that passed it before, less the rows of the
    marked identifier.  After the refresh under that filter, no row shown
    carries the identifier and every row shown awaits review. *)
Theorem markReviewed_empties_pending_of_that_change
  (now : string) (changeId : positive) (db : Dashboard.Store)
  (st : Dashboard.State) :
  let db' := Dashboard.update_reviewed now changeId db in
  filter (Dashboard.matches (Dashboard.filterSource st) "pending")
         (Dashboard.change_rows db')
  = filter (fun r => negb (Pos.eqb (ChangeEvent.id (Dashboard.event r))
                                   changeId))
      (filter (Dashboard.matches (Dashboard.filterSource st) "pending")
              (Dashboard.change_rows db))
  /\ (Dashboard.filterReview st = "pending" ->
      forall v,
        In v (Dashboard.changes
                (snd (Dashboard.markReviewed None None now changeId db st))) ->
        ChangeEvent.id (Dashboard.event (Dashboard.row v)) <> changeId
        /\ Dashboard.awaits_review (Dashboard.row v) = true).
Proof.
  cbv zeta. split.
  - unfold Dashboard.update_reviewed; cbn [Dashboard.change_rows].
    induction (Dashboard.change_rows db) as [|r l IH]; [reflexivity|].
    cbn [map filter]. rewrite pending_after_review.
    destruct (Dashboard.matches (Dashboard.filterSource st) "pending" r);
      cbn [andb filter]; [|exact IH].
    destruct (Pos.eqb (ChangeEvent.id (Dashboard.event r)) changeId);
      cbn [negb]; [exact IH | now rewrite IH].
  - intros Hfr v Hv.
    cbn [Dashboard.markReviewed snd Dashboard.fetchChanges
         Dashboard.changes] in Hv.
    rewrite Hfr in Hv. unfold Dashboard.select_changes in Hv.
    apply in_map_iff in Hv. destruct Hv as [r [<- Hr]].
    cbn [Dashboard.embed_source Dashboard.row].
    assert (Hin : In r (Dashboard.newest_first
                          (filter (Dashboard.matches
                                     (Dashboard.filterSource st) "pending")
                                  (Dashboard.change_rows
                                     (Dashboard.update_reviewed now changeId
                                        db))))).
    { rewrite <- (firstn_skipn Dashboard.LIMIT (Dashboard.newest_first _)).
      apply in_or_app. now left. }
    apply (proj1 (in_newest_first _ _)) in Hin.
    apply filter_In in Hin. destruct Hin as [Hrow Hm].
    apply update_reviewed_rows in Hrow. destruct Hrow as [r0 [_ ->]].
    rewrite pending_after_review in Hm.
    apply andb_true_iff in Hm. destruct Hm as [Hm Hid].
    destruct (Pos.eqb_spec (ChangeEvent.id (Dashboard.event r0)) changeId)
      as [Heq|Hneq]; [discriminate|].
    split; [exact Hneq|].
    unfold Dashboard.matches, Dashboard.matches_review in Hm. simpl in Hm.
    apply andb_true_iff in Hm. destruct Hm as [_ Hm].
    unfold Dashboard.awaits_review.
    destruct (ChangeEvent.needs_review (Dashboard.event r0));
      [|discriminate].
    destruct (Dashboard.reviewed_at r0); [discriminate | reflexivity].
Qed.

(** X25. The 'pending' and the 'reviewed' filters never show the same row,
    and between them they miss some: a change that the analysis did not flag
    for review and that nobody has reviewed passes neither, and is shown
    only when the review filter is 'all'.  A change flagged and never
    reviewed is pending and shows the badge. *)
Theorem review_filters_are_disjoint_not_exhaustive
  (fs : string) (r : Dashboard.Row) :
  Dashboard.matches fs "pending" r && Dashboard.matches fs "reviewed" r = false
  /\ Dashboard.matches fs "all" r = Dashboard.matches_source fs r
  /\ (ChangeEvent.needs_review (Dashboard.event r) = false ->
      Dashboard.reviewed_at r = None ->
      Dashboard.matches fs "pending" r = false
      /\ Dashboard.matches fs "reviewed" r = false)
  /\ (ChangeEvent.needs_review (Dashboard.event r) = true ->
      Dashboard.reviewed_at r = None ->
      Dashboard.matches fs "pending" r = Dashboard.matches_source fs r
      /\ Dashboard.awaits_review r = true).
Proof.
  unfold Dashboard.matches, Dashboard.matches_review, Dashboard.awaits_review.
  simpl.
  destruct (Dashboard.matches_source fs r),
    (ChangeEvent.needs_review (Dashboard.event r)),
    (Dashboard.reviewed_at r); simpl; repeat split; intros; congruence.
Qed.

Lemma newest_first_newest_last (x : Dashboard.Row) (l : list Dashboard.Row) :
  (forall r, In r l ->
     ChangeEvent.detected_at (Dashboard.event r)
     < ChangeEvent.detected_at (Dashboard.event x)) ->
  Dashboard.newest_first (l ++ [x]) = x :: Dashboard.newest_first l.
Proof.
  induction l as [|y l IH]; intros Holder; [reflexivity|].
  cbn [app Dashboard.newest_first fold_right].
  fold (Dashboard.newest_first (l ++ [x])). fold (Dashboard.newest_first l).
  rewrite IH by (intros r Hr; apply Holder; now right).
  cbn [Dashboard.insert_by_date].
  specialize (Holder y (or_introl eq_refl)).
  destruct (Nat.leb_spec (ChangeEvent.detected_at (Dashboard.event x))
                         (ChangeEvent.detected_at (Dashboard.event y)));
    [lia | reflexivity].
Qed.

(** X26. From the pipeline to the dashboard: when a run records a change
    event in a store that accepts the requests and holds no event detected
    in the future, the event, as the pipeline leaves it, is the first row
    that [fetchChanges] shows under any filters that it passes.  It passes
    the filters of a freshly opened dashboard, and, when its review flag is
    on, the 'pending' filter of its source, with the badge shown. *)
Theorem recorded_change_is_shown_first
  (JSON_parse : string -> Error + JSValue) (env : Env) (source : Source.t)
  (w : World) (status : nat) (html : string) :
  store_up env ->
  fetch_succeeds env source w status html ->
  same_hash (latest_snapshot w (Source.id source)) (sha256_hex html) = false ->
  (forall e, In e (change_events w) -> ChangeEvent.detected_at e <= tick w) ->
  let w' := snd (checkSource JSON_parse env source w) in
  exists event,
    change_events w' = (change_events w ++ [event])%list
    /\ (forall (st : Dashboard.State),
          Dashboard.matches (Dashboard.filterSource st)
                            (Dashboard.filterReview st)
                            (Dashboard.recorded event) = true ->
          hd_error (Dashboard.changes
                      (Dashboard.fetchChanges None (dashboard_store w') st))
          = Some (Dashboard.embed_source (dashboard_store w')
                    (Dashboard.recorded event)))
    /\ Dashboard.matches (Dashboard.filterSource Dashboard.initial)
                         (Dashboard.filterReview Dashboard.initial)
                         (Dashboard.recorded event) = true
    /\ (ChangeEvent.needs_review event = true ->
        Dashboard.matches (Source.id source) "pending"
                          (Dashboard.recorded event) = true
        /\ Dashboard.awaits_review (Dashboard.recorded event) = true).
Proof.
  intros Hup Hfetch Hchanged Hpast; cbv zeta.
  pose proof (checkSource_success JSON_parse env source w status html
                Hup Hfetch) as H.
  cbv zeta in H. rewrite Hchanged in H.
  destruct H as [analysis [_ H]]. rewrite H. cbn [snd].
  set (w3 := log _ (with_snapshot _ _)).
  set (row := change_row source _ _ analysis).
  exists (stored_change_event w3 row).
  split; [reflexivity|]. split; [|split].
  - intros st Hm.
    cbn [Dashboard.fetchChanges Dashboard.changes].
    unfold Dashboard.select_changes.
    cbn [dashboard_store with_change_event change_events
         Dashboard.change_rows].
    rewrite map_app, filter_app. cbn [map filter]. rewrite Hm.
    rewrite newest_first_newest_last; [reflexivity|].
    intros r Hr. apply filter_In in Hr. destruct Hr as [Hr _].
    apply in_map_iff in Hr. destruct Hr as [e [<- He]].
    specialize (Hpast e He).
    cbn [Dashboard.recorded Dashboard.event stored_change_event
         ChangeEvent.detected_at].
    unfold w3. rewrite tick_log, tick_with_snapshot, !tick_log. lia.
  - reflexivity.
  - intros Hreview.
    unfold Dashboard.matches, Dashboard.matches_source,
      Dashboard.matches_review, Dashboard.awaits_review.
    cbn [Dashboard.recorded Dashboard.event Dashboard.reviewed_at
         stored_change_event ChangeEvent.source_id ChangeEvent.needs_review]
      in *.
    rewrite Hreview. cbn [row change_row NewChangeEvent.source_id].
    rewrite String.eqb_refl.
    destruct (Source.id source =? "all"); split; reflexivity.
Qed.

Lemma recorded_change_is_shown_first_witness :
  exists event,
    change_events
      (snd (checkSource scenario_JSON_parse
              (scenario store_accepts (page 200 "v2") service_down)
              source_A (world_with [snapshot_v1])))
    = [event]
    /\ hd_error
         (Dashboard.changes
            (Dashboard.fetchChanges None
               (dashboard_store
                  (snd (checkSource scenario_JSON_parse
                          (scenario store_accepts (page 200 "v2") service_down)
                          source_A (world_with [snapshot_v1]))))
               Dashboard.initial))
       = Some (Dashboard.mkView (Dashboard.recorded event)
                                (Some ("A", "https://regulator.example/a"))).
Proof.
  destruct (recorded_change_is_shown_first scenario_JSON_parse
              (scenario store_accepts (page 200 "v2") service_down)
              source_A (world_with [snapshot_v1]) 200 "v2")
    as [event [Hev [Hshown [Hinit _]]]].
  - intros t. reflexivity.
  - split; reflexivity.
  - vm_compute. reflexivity.
  - intros e [].
  - exists event. split; [exact Hev|].
    rewrite (Hshown Dashboard.initial Hinit).
    f_equal. unfold Dashboard.embed_source. f_equal.
    assert (Hsid : ChangeEvent.source_id
                     (Dashboard.event (Dashboard.recorded event)) = "src-a").
    { assert (Hl : last (change_events
                           (snd (checkSource scenario_JSON_parse
                                   (scenario store_accepts (page 200 "v2")
                                             service_down)
                                   source_A (world_with [snapshot_v1]))))
                        event = event) by (rewrite Hev; reflexivity).
      rewrite <- Hl. vm_compute. reflexivity. }
    rewrite Hsid. vm_compute. reflexivity.
Defined.

(** * The change decision and the record of a run, request by request

    [checkSource] reads the data of the store's replies and never their
    error: what it decides and records depends on which of its requests the
    store accepts.  Each property below names the requests it relies on,
    and comes with runs in which the store refuses one of them. *)

Section AcceptedRequests.

Variable JSON_parse : string -> Error + JSValue.
Variable env : Env.

Lemma looked_up_accepted (source : Source.t) (w : World) :
  lookup_accepted env w ->
  looked_up env source w = latest_snapshot w (Source.id source).
Proof. unfold lookup_accepted, looked_up. now intros ->. Qed.

Lemma looked_up_never_seen (source : Source.t) (w : World) :
  latest_snapshot w (Source.id source) = None ->
  looked_up env source w = None.
Proof.
  unfold looked_up. intros ->. now destruct (store_error env (S (tick w))).
Qed.

Lemma after_insert_snapshot_accepted (row : NewSnapshot.t) (w : World) :
  store_error env (tick w) = None ->
  after_insert_snapshot env row w = with_snapshot w row.
Proof.
  intros H. unfold after_insert_snapshot.
  now rewrite (insert_snapshot_accepted env row w H).
Qed.

Lemma after_insert_change_event_accepted (row : NewChangeEvent.t)
  (w : World) :
  store_error env (tick w) = None ->
  after_insert_change_event env row w = with_change_event w row.
Proof.
  intros H. unfold after_insert_change_event.
  now rewrite (insert_change_event_accepted env row w H).
Qed.

Lemma change_events_after_insert_snapshot (row : NewSnapshot.t) (w : World) :
  change_events (after_insert_snapshot env row w) = change_events w.
Proof.
  destruct (after_insert_snapshot_inv env row w) as [[_ ->]|[e [_ ->]]];
    reflexivity.
Qed.

Lemma snapshots_after_insert_change_event (row : NewChangeEvent.t)
  (w : World) :
  snapshots (after_insert_change_event env row w) = snapshots w.
Proof.
  destruct (after_insert_change_event_inv env row w) as [[_ ->]|[e [_ ->]]];
    reflexivity.
Qed.

(** The run on a response outside the success range, whatever the store
    answers. *)
Lemma checkSource_http_error_run (source : Source.t) (w : World)
  (r : HttpResponse.t) :
  network env (tick w) (Source.url source) = FetchResolves r ->
  HttpResponse.ok r = false ->
  checkSource JSON_parse env source w =
  (Returns (Entry.mk (Source.name source) "error" None None
                     (Some (HttpResponse.status r))),
   after_insert_snapshot env
     (error_row source
        (Some ("HTTP " ++ show_nat (HttpResponse.status r)))
        (Some (HttpResponse.status r)))
     (fetched source w)).
Proof.
  intros Hnet Hok. unfold checkSource, try_catch, checkSource_try.
  erewrite bind_returns by (apply fetch_resolves; exact Hnet).
  rewrite Hok; cbn [negb].
  erewrite bind_returns by apply saveSnapshot_run.
  reflexivity.
Qed.

(** The run on a fetched page that is not the page last seen, the store
    accepting the two inserts. *)
Lemma checkSource_changed_run (source : Source.t) (w : World) (status : nat)
  (html : string) :
  fetch_succeeds env source w status html ->
  same_hash (looked_up env source w) (sha256_hex html) = false ->
  snapshot_insert_accepted env w ->
  change_event_insert_accepted env w ->
  let last := looked_up env source w in
  let new := stored_snapshot (selected source w)
               (success_row source html status) in
  let w2 := with_snapshot (selected source w)
              (success_row source html status) in
  let w3 := log (analysis_request source (previous_html last) html) w2 in
  exists analysis,
    analyzeDiff JSON_parse env source (previous_html last) html w2
      = (Returns analysis, w3)
    /\ checkSource JSON_parse env source w =
       (Returns (Entry.mk (Source.name source) "changed"
                   (Some (Analysis.summary analysis)) None None),
        with_change_event w3
          (change_row source last (Snapshot.id new) analysis)).
Proof.
  intros Hfetch Hsame Hins Hev. cbv zeta.
  destruct (checkSource_on_page JSON_parse env source w status html Hfetch)
    as [analysis [Han Hrun]].
  cbv zeta in Han, Hrun. rewrite Hsame in Hrun.
  unfold persisted in Hrun. unfold snapshot_insert_accepted in Hins.
  rewrite Hins in Hrun.
  rewrite after_insert_snapshot_accepted in Han, Hrun
    by (rewrite tick_selected; exact Hins).
  rewrite after_insert_change_event_accepted in Hrun
    by (rewrite tick_log, tick_with_snapshot, tick_selected; exact Hev).
  exists analysis. split; [exact Han | exact Hrun].
Qed.

End AcceptedRequests.

(** C1. On a successful fetch of a source that has a prior snapshot, the
    store accepting the lookup of that snapshot: when the prior fingerprint
    equals the SHA-256 fingerprint of the fetched content, the entry is
    'unchanged' and no change event is created; when the store accepts the
    insert of the new snapshot, the snapshot is inserted with that
    fingerprint, and when the fingerprints differ and the store accepts the
    insert of the change event as well, the entry is 'changed' and exactly
    one change event is created, from the prior snapshot to the new one. *)
Theorem change_decision_against_prior_snapshot
  (JSON_parse : string -> Error + JSValue) (env : Env) (source : Source.t)
  (w : World) (status : nat) (html : string) (prior : Snapshot.t) :
  fetch_succeeds env source w status html ->
  latest_snapshot w (Source.id source) = Some prior ->
  lookup_accepted env w ->
  exists entry w',
    checkSource JSON_parse env source w = (Returns entry, w')
    /\ (Snapshot.raw_hash prior = sha256_hex html ->
        Entry.status entry = "unchanged"
        /\ change_events w' = change_events w)
    /\ (snapshot_insert_accepted env w ->
        exists new,
          snapshots w' = (snapshots w ++ [new])%list
          /\ Snapshot.raw_hash new = sha256_hex html
          /\ (Snapshot.raw_hash prior <> sha256_hex html ->
              change_event_insert_accepted env w ->
              Entry.status entry = "changed"
              /\ exists event,
                   change_events w' = (change_events w ++ [event])%list
                   /\ ChangeEvent.snapshot_after_id event = Snapshot.id new
                   /\ ChangeEvent.snapshot_before_id event
                      = Some (Snapshot.id prior))).
Proof.
  intros Hfetch Hlast Hlookup.
  destruct (String.eqb_spec (Snapshot.raw_hash prior) (sha256_hex html))
    as [Heq|Hneq].
  - destruct (checkSource_on_page JSON_parse env source w status html Hfetch)
      as [analysis [_ Hrun]].
    cbv zeta in Hrun.
    rewrite (looked_up_accepted env source w Hlookup), Hlast in Hrun.
    cbn [same_hash] in Hrun.
    rewrite (proj2 (String.eqb_eq _ _) Heq) in Hrun.
    eexists _, _. split; [exact Hrun|]. split.
    + intros _. split; [reflexivity|].
      now rewrite change_events_after_insert_snapshot.
    + intros Hins.
      rewrite after_insert_snapshot_accepted
        by (rewrite tick_selected; exact Hins).
      eexists. split; [reflexivity|]. split; [reflexivity|].
      intros Hc. now elim Hc.
  - destruct (store_error env (S (S (tick w)))) as [e|] eqn:Hstore.
    + destruct (checkSource_follows_a_path JSON_parse env source w)
        as [entry [w' [Hrun _]]].
      exists entry, w'. split; [exact Hrun|]. split.
      * intros Hc. now elim Hneq.
      * unfold snapshot_insert_accepted. rewrite Hstore. discriminate.
    + destruct (store_error env (4 + tick w)) as [e|] eqn:Hevent.
      * destruct (checkSource_on_page JSON_parse env source w status html
                    Hfetch) as [analysis [_ Hrun]].
        cbv zeta in Hrun. unfold persisted in Hrun. rewrite Hstore in Hrun.
        rewrite (looked_up_accepted env source w Hlookup), Hlast in Hrun.
        cbn [same_hash] in Hrun.
        rewrite (proj2 (String.eqb_neq _ _) Hneq) in Hrun.
        rewrite after_insert_snapshot_accepted in Hrun
          by (rewrite tick_selected; exact Hstore).
        eexists _, _. split; [exact Hrun|]. split.
        -- intros Hc. now elim Hneq.
        -- intros _. eexists.
           split; [rewrite snapshots_after_insert_change_event; reflexivity|].
           split; [reflexivity|].
           intros _. unfold change_event_insert_accepted.
           rewrite Hevent. discriminate.
      * assert (Hsame : same_hash (looked_up env source w) (sha256_hex html)
                        = false).
        { rewrite (looked_up_accepted env source w Hlookup), Hlast.
          cbn [same_hash]. now apply String.eqb_neq. }
        destruct (checkSource_changed_run JSON_parse env source w status html
                    Hfetch Hsame Hstore Hevent) as [analysis [_ Hrun]].
        cbv zeta in Hrun.
        rewrite (looked_up_accepted env source w Hlookup), Hlast in Hrun.
        eexists _, _. split; [exact Hrun|]. split.
        -- intros Hc. now elim Hneq.
        -- intros _. eexists. split; [reflexivity|]. split; [reflexivity|].
           intros _ _. split; [reflexivity|].
           eexists. split; [reflexivity|]. split; reflexivity.
Qed.

Lemma change_decision_against_prior_snapshot_witness :
  (exists entry w',
     checkSource scenario_JSON_parse
       (scenario store_accepts (page 200 "v1") service_down)
       source_A (world_with [snapshot_v1]) = (Returns entry, w')
     /\ Entry.status entry = "unchanged"
     /\ change_events w' = [])
  /\ (exists entry w' new event,
       checkSource scenario_JSON_parse
         (scenario store_accepts (page 200 "v2") service_down)
         source_A (world_with [snapshot_v1]) = (Returns entry, w')
       /\ Entry.status entry = "changed"
       /\ snapshots w' = [snapshot_v1; new]
       /\ change_events w' = [event]
       /\ ChangeEvent.snapshot_after_id event = Snapshot.id new
       /\ ChangeEvent.snapshot_before_id event = Some 1%positive).
Proof.
  split.
  - destruct (change_decision_against_prior_snapshot scenario_JSON_parse
                (scenario store_accepts (page 200 "v1") service_down)
                source_A (world_with [snapshot_v1]) 200 "v1" snapshot_v1)
      as [entry [w' [Hrun [Hsame _]]]].
    + split; reflexivity.
    + reflexivity.
    + reflexivity.
    + exists entry, w'. split; [exact Hrun|]. apply Hsame. reflexivity.
  - destruct (change_decision_against_prior_snapshot scenario_JSON_parse
                (scenario store_accepts (page 200 "v2") service_down)
                source_A (world_with [snapshot_v1]) 200 "v2" snapshot_v1)
      as [entry [w' [Hrun [_ Hnew]]]].
    + split; reflexivity.
    + reflexivity.
    + reflexivity.
    + destruct Hnew as [new [Hrows [_ Hdiff]]]; [reflexivity|].
      destruct Hdiff as [Hstatus [event [Hevents [Hafter Hbefore]]]].
      * vm_compute. discriminate.
      * reflexivity.
      * exists entry, w', new, event. repeat split; assumption.
Defined.

(** Three runs on the page of a source whose prior snapshot holds [v1].
    The store refuses the lookup: the page still reads [v1], the
    fingerprints are equal, and the run reports 'changed' and records a
    change event.  The store refuses the insert of the new snapshot: the
    page reads [v2], the fingerprints differ, and the run reports 'error'
    and records no change event.  The store refuses the insert of the
    change event: the run reports 'changed' and no change event exists. *)
Lemma change_decision_against_prior_snapshot_counterexample :
  (fetch_succeeds
     (scenario (store_refuses_at 1) (page 200 "v1")
               (service_answers sample_answer))
     source_A (world_with [snapshot_v1]) 200 "v1"
   /\ latest_snapshot (world_with [snapshot_v1]) (Source.id source_A)
      = Some snapshot_v1
   /\ Snapshot.raw_hash snapshot_v1 = sha256_hex "v1"
   /\ fst (checkSource scenario_JSON_parse
             (scenario (store_refuses_at 1) (page 200 "v1")
                       (service_answers sample_answer))
             source_A (world_with [snapshot_v1]))
      = Returns (Entry.mk "A" "changed"
                   (Some (JSString "Labeling rule updated")) None None)
   /\ List.length
        (change_events
           (snd (checkSource scenario_JSON_parse
                   (scenario (store_refuses_at 1) (page 200 "v1")
                             (service_answers sample_answer))
                   source_A (world_with [snapshot_v1])))) = 1)
  /\ (fetch_succeeds
        (scenario (store_refuses_at 2) (page 200 "v2")
                  (service_answers sample_answer))
        source_A (world_with [snapshot_v1]) 200 "v2"
      /\ (Snapshot.raw_hash snapshot_v1 =? sha256_hex "v2") = false
      /\ fst (checkSource scenario_JSON_parse
                (scenario (store_refuses_at 2) (page 200 "v2")
                          (service_answers sample_answer))
                source_A (world_with [snapshot_v1]))
         = Returns (Entry.mk "A" "error" None
                      (Some "Cannot read properties of null (reading 'id')")
                      None)
      /\ change_events
           (snd (checkSource scenario_JSON_parse
                   (scenario (store_refuses_at 2) (page 200 "v2")
                             (service_answers sample_answer))
                   source_A (world_with [snapshot_v1]))) = [])
  /\ (fetch_succeeds
        (scenario (store_refuses_at 4) (page 200 "v2")
                  (service_answers sample_answer))
        source_A (world_with [snapshot_v1]) 200 "v2"
      /\ fst (checkSource scenario_JSON_parse
                (scenario (store_refuses_at 4) (page 200 "v2")
                          (service_answers sample_answer))
                source_A (world_with [snapshot_v1]))
         = Returns (Entry.mk "A" "changed"
                      (Some (JSString "Labeling rule updated")) None None)
      /\ change_events
           (snd (checkSource scenario_JSON_parse
                   (scenario (store_refuses_at 4) (page 200 "v2")
                             (service_answers sample_answer))
                   source_A (world_with [snapshot_v1]))) = []).
Proof.
  split; [|split].
  - split; [split; reflexivity|]. split; [reflexivity|].
    split; [reflexivity|]. split; vm_compute; reflexivity.
  - split; [split; reflexivity|]. split; [vm_compute; reflexivity|].
    split; vm_compute; reflexivity.
  - split; [split; reflexivity|]. split; vm_compute; reflexivity.
Qed.

(** C2. On a successful fetch of a source that has no prior snapshot, the
    store accepting the insert of the new snapshot and the insert of the
    change event, the entry is 'changed' and exactly one change event is
    created, with no "before" snapshot and with the newly inserted snapshot
    as its "after" snapshot. *)
Theorem first_observation_is_a_change
  (JSON_parse : string -> Error + JSValue) (env : Env) (source : Source.t)
  (w : World) (status : nat) (html : string) :
  fetch_succeeds env source w status html ->
  latest_snapshot w (Source.id source) = None ->
  snapshot_insert_accepted env w ->
  change_event_insert_accepted env w ->
  exists entry w' new event,
    checkSource JSON_parse env source w = (Returns entry, w')
    /\ Entry.status entry = "changed"
    /\ snapshots w' = (snapshots w ++ [new])%list
    /\ change_events w' = (change_events w ++ [event])%list
    /\ ChangeEvent.snapshot_before_id event = None
    /\ ChangeEvent.snapshot_after_id event = Snapshot.id new.
Proof.
  intros Hfetch Hlast Hins Hev.
  pose proof (looked_up_never_seen env source w Hlast) as Hnone.
  assert (Hsame : same_hash (looked_up env source w) (sha256_hex html) = false)
    by now rewrite Hnone.
  destruct (checkSource_changed_run JSON_parse env source w status html
              Hfetch Hsame Hins Hev) as [analysis [_ Hrun]].
  cbv zeta in Hrun. rewrite Hnone in Hrun.
  eexists _, _, _, _. split; [exact Hrun|]. repeat split.
Qed.

Lemma first_observation_is_a_change_witness :
  exists entry w' event,
    checkSource scenario_JSON_parse
      (scenario store_accepts (page 200 "v1") (service_answers sample_answer))
      source_A (world_with []) = (Returns entry, w')
    /\ Entry.status entry = "changed"
    /\ change_events w' = [event]
    /\ ChangeEvent.snapshot_before_id event = None.
Proof.
  destruct (first_observation_is_a_change scenario_JSON_parse
              (scenario store_accepts (page 200 "v1")
                        (service_answers sample_answer))
              source_A (world_with []) 200 "v1")
    as [entry [w' [new [event [Hrun [Hstatus [_ [Hevents [Hbefore _]]]]]]]]].
  - split; reflexivity.
  - reflexivity.
  - reflexivity.
  - reflexivity.
  - exists entry, w', event. repeat split; assumption.
Defined.

(** Two runs on the page of a source that has no snapshot.  The store
    refuses the insert of the new snapshot: the run reports 'error' and no
    change event is created.  The store refuses the insert of the change
    event: the run reports 'changed' and no change event is created. *)
Lemma first_observation_is_a_change_counterexample :
  (fetch_succeeds
     (scenario (store_refuses_at 2) (page 200 "v1")
               (service_answers sample_answer))
     source_A (world_with []) 200 "v1"
   /\ latest_snapshot (world_with []) (Source.id source_A) = None
   /\ fst (checkSource scenario_JSON_parse
             (scenario (store_refuses_at 2) (page 200 "v1")
                       (service_answers sample_answer))
             source_A (world_with []))
      = Returns (Entry.mk "A" "error" None
                   (Some "Cannot read properties of null (reading 'id')")
                   None)
   /\ change_events
        (snd (checkSource scenario_JSON_parse
                (scenario (store_refuses_at 2) (page 200 "v1")
                          (service_answers sample_answer))
                source_A (world_with []))) = [])
  /\ (fetch_succeeds
        (scenario (store_refuses_at 4) (page 200 "v1")
                  (service_answers sample_answer))
        source_A (world_with []) 200 "v1"
      /\ fst (checkSource scenario_JSON_parse
                (scenario (store_refuses_at 4) (page 200 "v1")
                          (service_answers sample_answer))
                source_A (world_with []))
         = Returns (Entry.mk "A" "changed"
                      (Some (JSString "Labeling rule updated")) None None)
      /\ change_events
           (snd (checkSource scenario_JSON_parse
                   (scenario (store_refuses_at 4) (page 200 "v1")
                             (service_answers sample_answer))
                   source_A (world_with []))) = []).
Proof.
  split.
  - split; [split; reflexivity|]. split; [reflexivity|].
    split; vm_compute; reflexivity.
  - split; [split; reflexivity|]. split; vm_compute; reflexivity.
Qed.

(** C10. When the most recent snapshot of a source is an error snapshot,
    recorded with the empty string as its fingerprint, a successful fetch is
    classified as changed whatever the fetched content and whatever the
    store answers: the SHA-256 digest in hexadecimal has 64 characters and
    is never empty.  When the store accepts the lookup and the two inserts
    of the run, the entry is 'changed' and the change event created has
    that error snapshot as its "before" snapshot. *)
Theorem error_snapshot_makes_next_fetch_a_change
  (JSON_parse : string -> Error + JSValue) (env : Env) (source : Source.t)
  (w : World) (status : nat) (html : string) (prior : Snapshot.t) :
  fetch_succeeds env source w status html ->
  latest_snapshot w (Source.id source) = Some prior ->
  Snapshot.fetch_status prior = "error" ->
  Snapshot.raw_hash prior = "" ->
  length (sha256_hex html) = 64
  /\ same_hash (looked_up env source w) (sha256_hex html) = false
  /\ (lookup_accepted env w ->
      snapshot_insert_accepted env w ->
      change_event_insert_accepted env w ->
      exists entry w' new event,
        checkSource JSON_parse env source w = (Returns entry, w')
        /\ Entry.status entry = "changed"
        /\ snapshots w' = (snapshots w ++ [new])%list
        /\ change_events w' = (change_events w ++ [event])%list
        /\ ChangeEvent.snapshot_before_id event = Some (Snapshot.id prior)
        /\ ChangeEvent.snapshot_after_id event = Snapshot.id new).
Proof.
  intros Hfetch Hlast _ Hhash.
  split; [apply sha256_hex_length|].
  assert (Hsame : same_hash (looked_up env source w) (sha256_hex html) = false).
  { unfold looked_up. destruct (store_error env (S (tick w)));
      [reflexivity|]. rewrite Hlast. cbn [same_hash]. rewrite Hhash.
    apply sha256_hex_neqb_empty. }
  split; [exact Hsame|].
  intros Hlookup Hins Hev.
  pose proof (looked_up_accepted env source w Hlookup) as Hlooked.
  rewrite Hlast in Hlooked.
  destruct (checkSource_changed_run JSON_parse env source w status html
              Hfetch Hsame Hins Hev) as [analysis [_ Hrun]].
  cbv zeta in Hrun. rewrite Hlooked in Hrun.
  eexists _, _, _, _. split; [exact Hrun|]. repeat split.
Qed.

Lemma error_snapshot_makes_next_fetch_a_change_witness :
  exists entry w' event,
    checkSource scenario_JSON_parse
      (scenario store_accepts (page 200 "v1") (service_answers sample_answer))
      source_A (world_with [snapshot_v1; snapshot_failed]) = (Returns entry, w')
    /\ Entry.status entry = "changed"
    /\ change_events w' = [event]
    /\ ChangeEvent.snapshot_before_id event = Some 2%positive.
Proof.
  destruct (error_snapshot_makes_next_fetch_a_change scenario_JSON_parse
              (scenario store_accepts (page 200 "v1")
                        (service_answers sample_answer))
              source_A (world_with [snapshot_v1; snapshot_failed])
              200 "v1" snapshot_failed)
    as [_ [_ Hrun]].
  - split; reflexivity.
  - reflexivity.
  - reflexivity.
  - reflexivity.
  - destruct Hrun
      as [entry [w' [new [event [Hrun [Hstatus [_ [Hevents [Hbefore _]]]]]]]]];
      [reflexivity | reflexivity | reflexivity |].
    exists entry, w', event. repeat split; assumption.
Defined.

(** Three runs on the page of a source whose most recent snapshot is an
    error snapshot.  The store refuses the lookup: the change event has no
    "before" snapshot.  The store refuses the insert of the new snapshot:
    the run reports 'error' and no change event is created.  The store
    refuses the insert of the change event: the run reports 'changed' and
    no change event is created. *)
Lemma error_snapshot_makes_next_fetch_a_change_counterexample :
  (fetch_succeeds
     (scenario (store_refuses_at 1) (page 200 "v1")
               (service_answers sample_answer))
     source_A (world_with [snapshot_v1; snapshot_failed]) 200 "v1"
   /\ latest_snapshot (world_with [snapshot_v1; snapshot_failed])
        (Source.id source_A) = Some snapshot_failed
   /\ Snapshot.fetch_status snapshot_failed = "error"
   /\ Snapshot.raw_hash snapshot_failed = ""
   /\ map ChangeEvent.snapshot_before_id
        (change_events
           (snd (checkSource scenario_JSON_parse
                   (scenario (store_refuses_at 1) (page 200 "v1")
                             (service_answers sample_answer))
                   source_A (world_with [snapshot_v1; snapshot_failed]))))
      = [None])
  /\ (fetch_succeeds
        (scenario (store_refuses_at 2) (page 200 "v1")
                  (service_answers sample_answer))
        source_A (world_with [snapshot_v1; snapshot_failed]) 200 "v1"
      /\ fst (checkSource scenario_JSON_parse
                (scenario (store_refuses_at 2) (page 200 "v1")
                          (service_answers sample_answer))
                source_A (world_with [snapshot_v1; snapshot_failed]))
         = Returns (Entry.mk "A" "error" None
                      (Some "Cannot read properties of null (reading 'id')")
                      None)
      /\ change_events
           (snd (checkSource scenario_JSON_parse
                   (scenario (store_refuses_at 2) (page 200 "v1")
                             (service_answers sample_answer))
                   source_A (world_with [snapshot_v1; snapshot_failed])))
         = [])
  /\ (fetch_succeeds
        (scenario (store_refuses_at 4) (page 200 "v1")
                  (service_answers sample_answer))
        source_A (world_with [snapshot_v1; snapshot_failed]) 200 "v1"
      /\ fst (checkSource scenario_JSON_parse
                (scenario (store_refuses_at 4) (page 200 "v1")
                          (service_answers sample_answer))
                source_A (world_with [snapshot_v1; snapshot_failed]))
         = Returns (Entry.mk "A" "changed"
                      (Some (JSString "Labeling rule updated")) None None)
      /\ change_events
           (snd (checkSource scenario_JSON_parse
                   (scenario (store_refuses_at 4) (page 200 "v1")
                             (service_answers sample_answer))
                   source_A (world_with [snapshot_v1; snapshot_failed])))
         = []).
Proof.
  split; [|split].
  - split; [split; reflexivity|]. split; [reflexivity|].
    split; [reflexivity|]. split; [reflexivity|]. vm_compute. reflexivity.
  - split; [split; reflexivity|]. split; vm_compute; reflexivity.
  - split; [split; reflexivity|]. split; vm_compute; reflexivity.
Qed.

(** C3. When the analysis service call throws, or the body of its answer
    does not parse, [analyzeDiff] does not throw: it returns the degraded
    result, with the fixed summary, the tag 'analysis-error', the status
    'unknown', no effective date and the review flag set.  When the store
    accepts the insert of the new snapshot and the insert of the change
    event, the change event of the detected change is then recorded with
    these values. *)
Theorem failed_analysis_still_records_the_change
  (JSON_parse : string -> Error + JSValue) (env : Env) (source : Source.t) :
  degraded_analysis =
    Analysis.mk
      (JSString "Change detected. LLM analysis failed - manual review required.")
      (JSArray [JSString "analysis-error"]) (JSString "unknown") JSNull true
  /\ (forall (oldHtml newHtml : string) (w : World),
        analysis_fails JSON_parse
          (completions env (tick w)
             (chat_request (analysis_prompt source oldHtml newHtml))) = true ->
        analyzeDiff JSON_parse env source oldHtml newHtml w =
        (Returns degraded_analysis,
         log (analysis_request source oldHtml newHtml) w))
  /\ (forall (w : World) (status : nat) (html : string),
        fetch_succeeds env source w status html ->
        same_hash (looked_up env source w) (sha256_hex html) = false ->
        analysis_fails JSON_parse
          (completions env (3 + tick w)
             (chat_request
                (analysis_prompt source
                   (previous_html (looked_up env source w)) html))) = true ->
        snapshot_insert_accepted env w ->
        change_event_insert_accepted env w ->
        exists w' event,
          checkSource JSON_parse env source w =
            (Returns (Entry.mk (Source.name source) "changed"
                        (Some (Analysis.summary degraded_analysis)) None None),
             w')
          /\ change_events w' = (change_events w ++ [event])%list
          /\ ChangeEvent.change_summary event = Analysis.summary degraded_analysis
          /\ ChangeEvent.tags event = Analysis.tags degraded_analysis
          /\ ChangeEvent.status event = Analysis.status degraded_analysis
          /\ ChangeEvent.effective_date event
             = Analysis.effectiveDate degraded_analysis
          /\ ChangeEvent.needs_review event = true).
Proof.
  split; [reflexivity|]. split.
  - intros oldHtml newHtml w. apply analyzeDiff_degraded.
  - intros w status html Hfetch Hchanged Hfails Hins Hev.
    destruct (checkSource_changed_run JSON_parse env source w status html
                Hfetch Hchanged Hins Hev) as [analysis [Han Hrun]].
    cbv zeta in Han, Hrun.
    rewrite analyzeDiff_degraded in Han.
    + injection Han as Han. subst analysis.
      eexists _, _. split; [exact Hrun|]. repeat split.
    + now rewrite tick_with_snapshot, tick_selected.
Qed.

Lemma failed_analysis_still_records_the_change_witness :
  (exists w',
     analyzeDiff scenario_JSON_parse
       (scenario store_accepts (page 200 "v2") (service_answers "Sorry, I cannot."))
       source_A "v1" "v2" (world_with [snapshot_v1])
     = (Returns degraded_analysis, w'))
  /\ (exists w' event,
        checkSource scenario_JSON_parse
          (scenario store_accepts (page 200 "v2") service_down)
          source_A (world_with [snapshot_v1])
        = (Returns (Entry.mk "A" "changed"
                      (Some (Analysis.summary degraded_analysis)) None None), w')
        /\ change_events w' = [event]
        /\ ChangeEvent.needs_review event = true).
Proof.
  split.
  - eexists.
    apply (proj1 (proj2 (failed_analysis_still_records_the_change
                           scenario_JSON_parse
                           (scenario store_accepts (page 200 "v2")
                              (service_answers "Sorry, I cannot."))
                           source_A))).
    reflexivity.
  - destruct (proj2 (proj2 (failed_analysis_still_records_the_change
                              scenario_JSON_parse
                              (scenario store_accepts (page 200 "v2")
                                        service_down)
                              source_A))
                (world_with [snapshot_v1]) 200 "v2")
      as [w' [event [Hrun [Hevents [_ [_ [_ [_ Hreview]]]]]]]].
    + split; reflexivity.
    + vm_compute. reflexivity.
    + reflexivity.
    + reflexivity.
    + reflexivity.
    + exists w', event. repeat split; assumption.
Defined.

(** Two runs on a changed page while the analysis service is down.  The
    store refuses the insert of the change event: the run reports 'changed'
    with the summary of the degraded result, and no change event is
    recorded.  The store refuses the insert of the new snapshot: the
    degraded result is computed, the run reports 'error', and no change
    event is recorded. *)
Lemma failed_analysis_still_records_the_change_counterexample :
  (fetch_succeeds
     (scenario (store_refuses_at 4) (page 200 "v2") service_down)
     source_A (world_with [snapshot_v1]) 200 "v2"
   /\ analysis_fails scenario_JSON_parse service_down = true
   /\ fst (checkSource scenario_JSON_parse
             (scenario (store_refuses_at 4) (page 200 "v2") service_down)
             source_A (world_with [snapshot_v1]))
      = Returns (Entry.mk "A" "changed"
                   (Some (JSString
                      "Change detected. LLM analysis failed - manual review required."))
                   None None)
   /\ change_events
        (snd (checkSource scenario_JSON_parse
                (scenario (store_refuses_at 4) (page 200 "v2") service_down)
                source_A (world_with [snapshot_v1]))) = [])
  /\ (fetch_succeeds
        (scenario (store_refuses_at 2) (page 200 "v2") service_down)
        source_A (world_with [snapshot_v1]) 200 "v2"
      /\ analysis_calls
           (trace
              (snd (checkSource scenario_JSON_parse
                      (scenario (store_refuses_at 2) (page 200 "v2")
                                service_down)
                      source_A (world_with [snapshot_v1]))))
         = [chat_request (analysis_prompt source_A "v1" "v2")]
      /\ fst (checkSource scenario_JSON_parse
                (scenario (store_refuses_at 2) (page 200 "v2") service_down)
                source_A (world_with [snapshot_v1]))
         = Returns (Entry.mk "A" "error" None
                      (Some "Cannot read properties of null (reading 'id')")
                      None)
      /\ change_events
           (snd (checkSource scenario_JSON_parse
                   (scenario (store_refuses_at 2) (page 200 "v2") service_down)
                   source_A (world_with [snapshot_v1]))) = []).
Proof.
  split.
  - split; [split; reflexivity|]. split; [reflexivity|].
    split; vm_compute; reflexivity.
  - split; [split; reflexivity|]. split; [vm_compute; reflexivity|].
    split; vm_compute; reflexivity.
Qed.

(** C4. Every run of the per-source pipeline in which the store accepts the
    insert of the snapshot of the fetch attempt inserts exactly one snapshot
    row for the source: a success snapshot when the fetch returns a success
    status and the body is read, an error snapshot carrying the status when
    the fetch returns another status, and an error snapshot carrying the
    message when the fetch or the reading of the body throws. *)
Theorem one_snapshot_per_fetch_attempt
  (JSON_parse : string -> Error + JSValue) (env : Env) (source : Source.t)
  (w : World) :
  store_error env (snapshot_write_tick env source w) = None ->
  exists entry w' new,
    checkSource JSON_parse env source w = (Returns entry, w')
    /\ snapshots w' = (snapshots w ++ [new])%list
    /\ Snapshot.source_id new = Source.id source
    /\ match network env (tick w) (Source.url source) with
       | FetchRejects e =>
           Snapshot.fetch_status new = "error"
           /\ Snapshot.error_message new = Some (message e)
       | FetchResolves r =>
           if HttpResponse.ok r then
             match HttpResponse.text r with
             | inr html =>
                 Snapshot.fetch_status new = "success"
                 /\ Snapshot.raw_html new = html
                 /\ Snapshot.raw_hash new = sha256_hex html
             | inl e =>
                 Snapshot.fetch_status new = "error"
                 /\ Snapshot.error_message new = Some (message e)
             end
           else
             Snapshot.fetch_status new = "error"
             /\ Snapshot.http_status new = Some (HttpResponse.status r)
       end.
Proof.
  unfold snapshot_write_tick.
  destruct (network env (tick w) (Source.url source)) as [e|r] eqn:Hnet.
  - intros Hstore. eexists _, _, _. split.
    + apply checkSource_fetch_rejected; [exact Hnet | exact Hstore].
    + repeat split.
  - destruct (HttpResponse.ok r) eqn:Hok.
    + destruct r as [status [e|html]]; cbn [HttpResponse.text]; intros Hstore.
      * eexists _, _, _. split.
        -- eapply checkSource_body_rejected;
             [exact Hnet | exact Hok | reflexivity | exact Hstore].
        -- repeat split.
      * destruct (checkSource_on_page JSON_parse env source w status html
                    (conj Hnet Hok)) as [analysis [_ Hrun]].
        cbv zeta in Hrun. unfold persisted in Hrun. rewrite Hstore in Hrun.
        rewrite after_insert_snapshot_accepted in Hrun
          by (rewrite tick_selected; exact Hstore).
        destruct (same_hash _ _).
        -- eexists _, _, _. split; [exact Hrun|]. repeat split.
        -- eexists _, _, _. split; [exact Hrun|].
           split; [rewrite snapshots_after_insert_change_event; reflexivity|].
           repeat split.
    + intros Hstore. eexists _, _, _. split.
      * apply checkSource_http_error; [exact Hnet | exact Hok | exact Hstore].
      * repeat split.
Qed.

Lemma one_snapshot_per_fetch_attempt_witness :
  exists entry w' new,
    checkSource scenario_JSON_parse
      (scenario store_accepts (FetchRejects (mkError "fetch failed"))
                service_down)
      source_B (world_with [snapshot_v1]) = (Returns entry, w')
    /\ snapshots w' = [snapshot_v1; new]
    /\ Snapshot.source_id new = "src-b"
    /\ Snapshot.fetch_status new = "error"
    /\ Snapshot.error_message new = Some "fetch failed".
Proof.
  destruct (one_snapshot_per_fetch_attempt scenario_JSON_parse
              (scenario store_accepts (FetchRejects (mkError "fetch failed"))
                        service_down)
              source_B (world_with [snapshot_v1]))
    as [entry [w' [new [Hrun [Hrows [Hsid [Hstatus Hmsg]]]]]]].
  - reflexivity.
  - exists entry, w', new. repeat split; assumption.
Defined.

(** Two runs in which the store refuses the insert of the snapshot of the
    fetch attempt, the error snapshot of a fetch that rejects and the
    success snapshot of a page that has not changed: the run returns its
    entry and the table of snapshots is as it was. *)
Lemma one_snapshot_per_fetch_attempt_counterexample :
  (fst (checkSource scenario_JSON_parse
          (scenario (store_refuses_at 1)
                    (FetchRejects (mkError "fetch failed")) service_down)
          source_A (world_with [snapshot_v1]))
   = Returns (Entry.mk "A" "error" None (Some "fetch failed") None)
   /\ snapshots
        (snd (checkSource scenario_JSON_parse
                (scenario (store_refuses_at 1)
                          (FetchRejects (mkError "fetch failed")) service_down)
                source_A (world_with [snapshot_v1])))
      = snapshots (world_with [snapshot_v1]))
  /\ (fst (checkSource scenario_JSON_parse
             (scenario (store_refuses_at 2) (page 200 "v1") service_down)
             source_A (world_with [snapshot_v1]))
      = Returns (Entry.mk "A" "unchanged" None None None)
      /\ snapshots
           (snd (checkSource scenario_JSON_parse
                   (scenario (store_refuses_at 2) (page 200 "v1") service_down)
                   source_A (world_with [snapshot_v1])))
         = snapshots (world_with [snapshot_v1])).
Proof.
  split; split; vm_compute; reflexivity.
Qed.

(** C7. When the fetch of a source returns a status outside the success
    range, the entry of the source has status 'error' and carries the HTTP
    status, the analysis service is not called, no change event is created,
    and the one request made to the store is the insert of a snapshot with
    outcome 'error' and that status; when the store accepts that insert,
    exactly one snapshot is inserted, with outcome 'error', that status and
    no content. *)
Theorem http_failure_is_recorded_and_not_analysed
  (JSON_parse : string -> Error + JSValue) (env : Env) (source : Source.t)
  (w : World) (r : HttpResponse.t) :
  network env (tick w) (Source.url source) = FetchResolves r ->
  HttpResponse.ok r = false ->
  exists w',
    checkSource JSON_parse env source w =
      (Returns (Entry.mk (Source.name source) "error" None None
                         (Some (HttpResponse.status r))), w')
    /\ change_events w' = change_events w
    /\ analysis_calls (trace w') = analysis_calls (trace w)
    /\ trace w' =
       (trace w
        ++ [Fetch (Source.url source) USER_AGENT;
            InsertSnapshot
              (error_row source
                 (Some ("HTTP " ++ show_nat (HttpResponse.status r))%string)
                 (Some (HttpResponse.status r)))])%list
    /\ (error_snapshot_insert_accepted env w ->
        exists new,
          snapshots w' = (snapshots w ++ [new])%list
          /\ Snapshot.source_id new = Source.id source
          /\ Snapshot.fetch_status new = "error"
          /\ Snapshot.http_status new = Some (HttpResponse.status r)
          /\ Snapshot.raw_html new = "").
Proof.
  intros Hnet Hok.
  eexists. split.
  - apply checkSource_http_error_run; [exact Hnet | exact Hok].
  - assert (Htrace :
      trace (after_insert_snapshot env
               (error_row source
                  (Some ("HTTP " ++ show_nat (HttpResponse.status r))%string)
                  (Some (HttpResponse.status r)))
               (fetched source w))
      = (trace w
         ++ [Fetch (Source.url source) USER_AGENT;
             InsertSnapshot
               (error_row source
                  (Some ("HTTP " ++ show_nat (HttpResponse.status r))%string)
                  (Some (HttpResponse.status r)))])%list).
    { rewrite trace_after_insert_snapshot. cbn [fetched log trace].
      now rewrite <- app_assoc. }
    split; [now rewrite change_events_after_insert_snapshot|].
    split.
    { rewrite Htrace, analysis_calls_app. simpl. now rewrite app_nil_r. }
    split; [exact Htrace|].
    intros Hins.
    rewrite after_insert_snapshot_accepted
      by (rewrite tick_fetched; exact Hins).
    eexists. repeat split.
Qed.

Lemma http_failure_is_recorded_and_not_analysed_witness :
  exists w' new,
    checkSource scenario_JSON_parse
      (scenario store_accepts (page 500 "Internal Server Error")
                (service_answers sample_answer))
      source_A (world_with [snapshot_v1])
    = (Returns (Entry.mk "A" "error" None None (Some 500)), w')
    /\ snapshots w' = [snapshot_v1; new]
    /\ Snapshot.fetch_status new = "error"
    /\ Snapshot.http_status new = Some 500
    /\ change_events w' = []
    /\ analysis_calls (trace w') = [].
Proof.
  destruct (http_failure_is_recorded_and_not_analysed scenario_JSON_parse
              (scenario store_accepts (page 500 "Internal Server Error")
                        (service_answers sample_answer))
              source_A (world_with [snapshot_v1])
              (HttpResponse.mk 500 (inr "Internal Server Error")))
    as [w' [Hrun [Hevents [Hcalls [_ Hnew]]]]].
  - reflexivity.
  - reflexivity.
  - destruct Hnew as [new [Hrows [_ [Hstatus [Hcode _]]]]]; [reflexivity|].
    exists w', new. repeat split; assumption.
Defined.

(** A run on a page answered with status 500 in which the store refuses the
    insert of the error snapshot: the entry is 'error' with the status, and
    the table of snapshots is as it was. *)
Lemma http_failure_is_recorded_and_not_analysed_counterexample :
  network
    (scenario (store_refuses_at 1) (page 500 "Internal Server Error")
              (service_answers sample_answer))
    (tick (world_with [snapshot_v1])) (Source.url source_A)
  = FetchResolves (HttpResponse.mk 500 (inr "Internal Server Error"))
  /\ HttpResponse.ok (HttpResponse.mk 500 (inr "Internal Server Error")) = false
  /\ fst (checkSource scenario_JSON_parse
            (scenario (store_refuses_at 1) (page 500 "Internal Server Error")
                      (service_answers sample_answer))
            source_A (world_with [snapshot_v1]))
     = Returns (Entry.mk "A" "error" None None (Some 500))
  /\ snapshots
       (snd (checkSource scenario_JSON_parse
               (scenario (store_refuses_at 1) (page 500 "Internal Server Error")
                         (service_answers sample_answer))
               source_A (world_with [snapshot_v1])))
     = snapshots (world_with [snapshot_v1]).
Proof.
  split; [reflexivity|]. split; [reflexivity|].
  split; vm_compute; reflexivity.
Qed.
